(** * The stdio service core of the MNN LLM backend

    A shallow embedding of [llm_stdio_core.cpp] / [llm_stdio_core.hpp]:
    the request decoder ([extractValue], [parseRequest]), the message
    encoder ([escapeJsonString], [createStderrMessage]), the streaming
    output adapter ([StreamingBuffer], [CaptureBuffer], the local
    [TeeBuffer]), the request handlers and the service loop ([run]).

    C++ strings are byte strings: [string] (a list of 8-bit [ascii]).
    [size_t] positions are [nat] ([std::string::npos] is [None]); the
    inference engine behind [m_llm] is an interface ([Llm]).

    Two helpers of the command-line tools are embedded as well: the
    prompt tokens of the benchmark ([adjustTokensToLength] and
    [prepareTokens] of [vllm_bench.cpp], module [VllmBench]) and the prompt
    table reader ([parse_csv] of [llm_demo_system_info.cpp], module
    [SystemInfo]). *)

From Stdlib Require Import String Ascii List ZArith NArith Bool Lia.
From Stdlib Require Import DecimalString DecimalZ.
From Equations Require Import Equations.
From stdpp Require Import base option gmap strings.

Open Scope string_scope.

(** [simpl] computes appends to literal strings, as it does without stdpp. *)
#[local] Arguments String.append !s1 s2 : simpl nomatch.

(** ** The C++ library operations the source relies on *)

Module Cxx.

(** Exceptions of [<stdexcept>] thrown by the library calls in use. *)
Inductive exn : Type :=
| std_invalid_argument
| std_out_of_range.

(** The result of running a piece of code: a value, a C++ exception
    that propagates to the caller, or undefined behaviour. *)
Inductive outcome (A : Type) : Type :=
| Ok (a : A)
| Throw (e : exn)
| Undefined.
Arguments Ok {A} a.
Arguments Throw {A} e.
Arguments Undefined {A}.

Definition bind {A B : Type} (m : outcome A) (k : A -> outcome B) : outcome B :=
  match m with
  | Ok a => k a
  | Throw e => Throw e
  | Undefined => Undefined
  end.

#[export] Instance outcome_ret : MRet outcome := fun A a => Ok a.
#[export] Instance outcome_bind : MBind outcome := fun A B k m => bind m k.

Definition returns {A : Type} (m : outcome A) : Prop := exists a, m = Ok a.

(** Character constants. *)
Definition dquote : ascii := "034"%char.
Definition backslash : ascii := "092"%char.
Definition NUL : ascii := "000"%char.
Definition BS : ascii := "008"%char.
Definition HT : ascii := "009"%char.
Definition LF : ascii := "010"%char.
Definition FF : ascii := "012"%char.
Definition CR : ascii := "013"%char.

Definition str (c : ascii) : string := String c EmptyString.
Definition empty (s : string) : bool := String.eqb s "".

(** [s[i]] on a [std::string]: the character at [i], the terminating
    NUL at [i = s.size()], undefined beyond. *)
Definition str_at (s : string) (i : nat) : outcome ascii :=
  match String.get i s with
  | Some c => Ok c
  | None => if Nat.eqb i (String.length s) then Ok NUL else Undefined
  end.

(** [s[i - 1]] for a [size_t] [i]: at [i = 0] the index wraps around to
    [SIZE_MAX], which is out of bounds. *)
Definition str_at_pred (s : string) (i : nat) : outcome ascii :=
  match i with
  | O => Undefined
  | S j => str_at s j
  end.

(** [s.substr(pos, n)]: throws [std::out_of_range] when [pos > s.size()],
    and stops at the end of [s]. *)
Definition substr (s : string) (pos n : nat) : outcome string :=
  if Nat.ltb (String.length s) pos then Throw std_out_of_range
  else Ok (String.substring pos n s).

(** [s.find(needle, pos)]; [None] is [npos]. *)
Definition find (s needle : string) (pos : nat) : option nat :=
  String.index pos needle s.

(** [std::to_string] on an integer. *)
Definition to_string (z : Z) : string :=
  NilEmpty.string_of_int (Z.to_int z).

(** A byte from [0] to [9]. *)
Definition is_decimal_digit (c : ascii) : bool :=
  (N.leb 48 (N_of_ascii c) && N.leb (N_of_ascii c) 57)%bool.

(** [std::isspace] in the C locale. *)
Definition isspace (c : ascii) : bool :=
  let n := N_of_ascii c in
  (N.eqb n 32 || (N.leb 9 n && N.leb n 13))%bool.

Definition hex_digit_upper (n : N) : ascii :=
  if N.ltb n 10 then ascii_of_N (48 + n) else ascii_of_N (55 + n).

(** [sprintf(buf, "%04X", v)] for [v < 65536]: four upper-case
    hexadecimal digits, zero padded. *)
Definition sprintf_04X (v : N) : string :=
  String (hex_digit_upper (N.modulo (N.div v 4096) 16))
    (String (hex_digit_upper (N.modulo (N.div v 256) 16))
       (String (hex_digit_upper (N.modulo (N.div v 16) 16))
          (String (hex_digit_upper (N.modulo v 16)) EmptyString))).

(** The operations performed on a [std::ostream], in program order. *)
Inductive ostream_op : Type :=
| Insert (s : string)     (* [os << s] *)
| Endl                    (* [os << std::endl] *)
| Write (s : string)      (* [os.write(s, n)] *)
| Flush.                  (* [os.flush()] *)

Definition op_bytes (op : ostream_op) : string :=
  match op with
  | Insert s => s
  | Endl => str LF
  | Write s => s
  | Flush => ""
  end.

(** The bytes a sequence of operations puts on the channel. *)
Fixpoint bytes_of (ops : list ostream_op) : string :=
  match ops with
  | nil => ""
  | op :: rest => op_bytes op ++ bytes_of rest
  end.

Definition EOF : Z := (-1)%Z.
Definition UCHAR_MAX : Z := 255%Z.

(** [std::isdigit(int ch)] in the C locale: whether [ch] is one of the
    ten decimal digits.  The behaviour is undefined unless [ch] is [EOF]
    or has the value of an [unsigned char]. *)
Definition isdigit (ch : Z) : outcome bool :=
  if (Z.leb 0 ch && Z.leb ch UCHAR_MAX)%bool then Ok (Z.leb 48 ch && Z.leb ch 57)%bool
  else if Z.eqb ch EOF then Ok false
  else Undefined.

(** [traits_type::to_int_type] and [static_cast<char>] on an [int]. *)
Definition to_int_type (c : ascii) : Z := Z.of_N (N_of_ascii c).
Definition to_char (c : Z) : ascii := ascii_of_N (Z.to_N (Z.modulo c 256)).

End Cxx.
Import Cxx.

(** ** Data model (llm_stdio_core.hpp) *)

Definition ChatMessage : Type := (string * string)%type.   (* <role, content> *)
Definition ChatMessages : Type := list ChatMessage.

Module Request.
Record t : Type := mk {
  id : string;
  method : string;
  content : string;
  params : gmap string string
}.
End Request.

(** ** Request decoder *)

Definition is_blank (c : ascii) : bool :=
  (Ascii.eqb c " " || Ascii.eqb c HT)%bool.

(** Line 159: [while (start_pos < size && (s[start_pos] == ' ' || s[start_pos] == '\t')) start_pos++]. *)
Equations? skip_blanks (json_str : string) (start_pos : nat) : outcome nat
  by wf (String.length json_str - start_pos) lt :=
  skip_blanks json_str start_pos with lt_dec start_pos (String.length json_str) => {
    | left _ with str_at json_str start_pos => {
        | Ok c := if is_blank c then skip_blanks json_str (S start_pos) else Ok start_pos;
        | Throw e := Throw e;
        | Undefined := Undefined };
    | right _ := Ok start_pos }.
Proof. lia. Qed.

Definition is_value_end (c : ascii) : bool :=
  (Ascii.eqb c "," || Ascii.eqb c "}" || Ascii.eqb c "]" || Ascii.eqb c " ")%bool.

(** Line 177: [while (end_pos < size && s[end_pos] != ',' && s[end_pos] != '}'
    && s[end_pos] != ']' && s[end_pos] != ' ') end_pos++]. *)
Equations? scan_value (json_str : string) (end_pos : nat) : outcome nat
  by wf (String.length json_str - end_pos) lt :=
  scan_value json_str end_pos with lt_dec end_pos (String.length json_str) => {
    | left _ with str_at json_str end_pos => {
        | Ok c := if is_value_end c then Ok end_pos else scan_value json_str (S end_pos);
        | Throw e := Throw e;
        | Undefined := Undefined };
    | right _ := Ok end_pos }.
Proof. lia. Qed.

Lemma index_bounds (needle : string) :
  forall (s : string) (n m : nat),
    String.index n needle s = Some m ->
    n <= m /\ m + String.length needle <= String.length s.
Proof.
  induction s as [|c s IH]; intros n m Hidx.
  - destruct n; simpl in Hidx.
    + destruct needle; inversion Hidx; simpl; lia.
    + discriminate.
  - destruct n.
    + cbn [String.index] in Hidx.
      destruct (String.prefix needle (String c s)) eqn:Hp.
      * inversion Hidx; subst. split; [lia|].
        pose proof (String.prefix_correct needle (String c s)) as [Hpc _].
        specialize (Hpc Hp).
        assert (Hlen : forall a b k, String.substring 0 k b = a -> String.length a <= String.length b).
        { clear. intros a b k <-. revert k. induction b as [|x b IHb]; intros [|k]; simpl; try lia.
          specialize (IHb k). lia. }
        apply Hlen in Hpc. simpl in *. lia.
      * destruct (String.index 0 needle s) eqn:Hi; [|discriminate].
        inversion Hidx; subst. apply IH in Hi. simpl. lia.
    + simpl in Hidx.
      destruct (String.index n needle s) eqn:Hi; [|discriminate].
      inversion Hidx; subst. apply IH in Hi. simpl. lia.
Qed.

(** Matching on a value while keeping the equation that names it. *)
Definition inspect {A : Type} (x : A) : {y : A | x = y} := exist _ x eq_refl.

Definition quote_measure (json_str : string) (end_pos : option nat) : nat :=
  match end_pos with
  | None => 0
  | Some e => S (String.length json_str - e)
  end.

(** Lines 167-169: [while (end_pos != npos && s[end_pos - 1] == backslash)
    end_pos = s.find(quote, end_pos + 1)]. *)
Equations? closing_quote (json_str : string) (end_pos : option nat) : outcome (option nat)
  by wf (quote_measure json_str end_pos) lt :=
  closing_quote json_str None := Ok None;
  closing_quote json_str (Some e) with str_at_pred json_str e => {
    | Ok c with Ascii.eqb c backslash => {
        | true with inspect (find json_str (str dquote) (e + 1)) => {
            | exist _ next Hnext := closing_quote json_str next };
        | false := Ok (Some e) };
    | Throw x := Throw x;
    | Undefined := Undefined }.
Proof.
  unfold find in Hnext. destruct next as [e'|]; simpl; [|lia].
  apply index_bounds in Hnext. simpl in Hnext. lia.
Qed.

(** [extractValue(json_str, key)], lines 147-182. *)
Definition extractValue (json_str key : string) : outcome string :=
  match find json_str (str dquote ++ key ++ str dquote) 0 with
  | None => Ok ""
  | Some key_pos =>
    match find json_str ":" key_pos with
    | None => Ok ""
    | Some colon_pos =>
      start_pos ← skip_blanks json_str (colon_pos + 1);
      c ← str_at json_str start_pos;
      (* string value: [Ok (inl v)] is the early [return v], [inr p] falls
         through with the updated [start_pos] *)
      quoted ← (if Ascii.eqb c dquote then
                  let start_pos := start_pos + 1 in
                  end_pos ← closing_quote json_str (find json_str (str dquote) start_pos);
                  match end_pos with
                  | Some end_pos =>
                    v ← substr json_str start_pos (end_pos - start_pos);
                    Ok (inl v)
                  | None => Ok (inr start_pos)
                  end
                else Ok (inr start_pos));
      match quoted with
      | inl v => Ok v
      | inr start_pos =>
        (* other values *)
        end_pos ← scan_value json_str start_pos;
        substr json_str start_pos (end_pos - start_pos)
      end
    end
  end.

(** [LlmStdioCore::parseRequest], lines 184-204. *)
Definition parseRequest (request_str : string) : outcome Request.t :=
  type ← extractValue request_str "type";
  id ← extractValue request_str "id";
  if String.eqb type "chat" then
    content ← extractValue request_str "prompt";
    max_new_tokens ← extractValue request_str "max_new_tokens";
    Ok (Request.mk id type content (<["max_new_tokens" := max_new_tokens]> ∅))
  else if String.eqb type "system_prompt" then
    content ← extractValue request_str "content";
    Ok (Request.mk id type content ∅)
  else
    Ok (Request.mk id type "" ∅).

(** A string between double quotes. *)
Definition quoted (s : string) : string := str dquote ++ s ++ str dquote.

(** ** [std::stoi] *)

Definition INT_MIN : Z := (-2147483648)%Z.
Definition INT_MAX : Z := 2147483647%Z.

Fixpoint skip_spaces (s : string) : string :=
  match s with
  | String c rest => if isspace c then skip_spaces rest else s
  | EmptyString => s
  end.

Definition digit_value (c : ascii) : Z := (Z.of_N (N_of_ascii c) - 48)%Z.

(** The longest run of decimal digits at the front of [s], as a number;
    [acc] is [None] until a digit has been read. *)
Fixpoint strtol_digits (s : string) (acc : option Z) : option Z :=
  match s with
  | String c rest =>
    if is_decimal_digit c
    then strtol_digits rest (Some (10 * default 0%Z acc + digit_value c)%Z)
    else acc
  | EmptyString => acc
  end.

(** [std::stoi(str)] (base 10, no position out-parameter): leading white
    space, an optional sign, then digits; [std::invalid_argument] when no
    digit follows, [std::out_of_range] when the value does not fit [int]. *)
Definition stoi (s : string) : outcome Z :=
  let s := skip_spaces s in
  let '(negative, s) :=
    match s with
    | String c rest =>
      if Ascii.eqb c "-" then (true, rest)
      else if Ascii.eqb c "+" then (false, rest)
      else (false, s)
    | EmptyString => (false, s)
    end in
  match strtol_digits s None with
  | None => Throw std_invalid_argument
  | Some v =>
    let v := if negative then (- v)%Z else v in
    if (Z.leb INT_MIN v && Z.leb v INT_MAX)%bool then Ok v
    else Throw std_out_of_range
  end.

(** ** Streaming output adapter *)

(** What the engine may do with the [std::ostream*] it is handed; each
    reaches the stream buffer as [sputn], [sputc] or [pubsync]. *)
Inductive sink_op : Type :=
| Sputn (s : string)
| Sputc (c : ascii)
| Pubsync.

(** Every byte a sequence of sink operations writes. *)
Fixpoint written (ops : list sink_op) : string :=
  match ops with
  | nil => ""
  | Sputn s :: rest => s ++ written rest
  | Sputc c :: rest => String c (written rest)
  | Pubsync :: rest => written rest
  end.

Module StreamingBuffer.
(** [out] is the stream behind the reference member ([std::cout]). *)
Record t : Type := mk { out : list ostream_op; started : bool }.

Definition START : string := "[LLM_STREAM_START]".
Definition END : string := "[LLM_STREAM_END]".

Definition startStream (b : t) : t :=
  if negb (started b)
  then mk (out b ++ [Insert START; Endl; Flush]) true
  else b.

Definition endStream (b : t) : t :=
  if started b
  then mk (out b ++ [Insert END; Endl; Flush]) false
  else b.

Definition overflow (c : Z) (b : t) : t :=
  if negb (Z.eqb c EOF) then
    let b := startStream b in
    let buffer := to_char c in
    mk (out b ++ [Write (str buffer); Flush]) (started b)
  else b.

Definition xsputn (s : string) (b : t) : t :=
  if Nat.ltb 0 (String.length s) then
    let b := startStream b in
    mk (out b ++ [Write s; Flush]) (started b)
  else b.

(** No put area is ever set, so [sputc] always reaches [overflow]. *)
Definition sputc (c : ascii) (b : t) : t := overflow (to_int_type c) b.
Definition sputn (s : string) (b : t) : t := xsputn s b.
End StreamingBuffer.

Module CaptureBuffer.
(** The state is the string behind the reference member [output_]. *)
Definition xsputn (s : string) (output_ : string) : string := output_ ++ s.

Definition overflow (c : Z) (output_ : string) : string :=
  if negb (Z.eqb c EOF) then output_ ++ str (to_char c) else output_.

Definition sputc (c : ascii) (output_ : string) : string := overflow (to_int_type c) output_.
Definition sputn (s : string) (output_ : string) : string := xsputn s output_.
End CaptureBuffer.

Module TeeBuffer.
(** [sb1] is the streaming buffer, [sb2] the capture buffer. *)
Definition t : Type := (StreamingBuffer.t * string)%type.

Definition overflow (c : Z) (b : t) : t :=
  if negb (Z.eqb c EOF)
  then (StreamingBuffer.sputc (to_char c) (fst b), CaptureBuffer.sputc (to_char c) (snd b))
  else b.

Definition xsputn (s : string) (b : t) : t :=
  (StreamingBuffer.sputn s (fst b), CaptureBuffer.sputn s (snd b)).

Definition sputc (c : ascii) (b : t) : t := overflow (to_int_type c) b.
Definition sputn (s : string) (b : t) : t := xsputn s b.

(** [sync] is not overridden: [pubsync] does nothing. *)
Definition apply (b : t) (op : sink_op) : t :=
  match op with
  | Sputn s => sputn s b
  | Sputc c => sputc c b
  | Pubsync => b
  end.
End TeeBuffer.

(** ** The engine behind [m_llm] *)

Record LlmContext : Type := { prompt_len : Z; gen_seq_len : Z }.

(** The calls the core makes on [Llm]: [response] reports what it writes
    to the sink it is given, and the engine's next state. *)
Class Llm (E : Type) : Type := {
  response : E -> ChatMessages -> Z -> list sink_op * E;
  reset : E -> E;
  getContext : E -> LlmContext
}.

(** The calls made on the engine, in program order. *)
Inductive llm_call : Type :=
| CallResponse (messages : ChatMessages) (max_new_tokens : Z)
| CallReset
| CallGetContext.

(** ** Session state and the three channels *)

(** The data members of [LlmStdioCore]. *)
Record Session (E : Type) : Type := mkSession {
  m_llm : E;
  m_running : bool;
  m_processing : bool;
  m_system_prompt : string;
  m_chat_history : ChatMessages
}.
Arguments mkSession {E}.
Arguments m_llm {E}.
Arguments m_running {E}.
Arguments m_processing {E}.
Arguments m_system_prompt {E}.
Arguments m_chat_history {E}.

(** What the process has done to its surroundings: the operations on
    [std::cout] and [std::cerr], how often the system clock was read, and
    the calls made on the engine. *)
Record World : Type := mkWorld {
  cout : list ostream_op;
  cerr : list ostream_op;
  clock_reads : nat;
  llm_calls : list llm_call
}.

Definition to_cerr (ops : list ostream_op) (w : World) : World :=
  mkWorld (cout w) (cerr w ++ ops) (clock_reads w) (llm_calls w).

Definition with_cout (out : list ostream_op) (w : World) : World :=
  mkWorld out (cerr w) (clock_reads w) (llm_calls w).

Definition tick (w : World) : World :=
  mkWorld (cout w) (cerr w) (S (clock_reads w)) (llm_calls w).

Definition called (c : llm_call) (w : World) : World :=
  mkWorld (cout w) (cerr w) (clock_reads w) (llm_calls w ++ [c]).

(** Diagnostic texts of the handlers (UTF-8 bytes, as in the source). *)
Definition MSG_PROMPT_SET : string := "系统提示词设置成功".
Definition MSG_PROMPT_EMPTY : string := "系统提示词内容为空".
Definition MSG_RESET : string := "模型已重置，对话历史已清空，系统提示词保留".
Definition MSG_STREAM_DONE : string := "流式输出完成".
Definition MSG_RESPONSE_DONE : string := "完整响应已生成".
Definition MSG_UNKNOWN : string := "未知请求类型: ".

(** ** What a chat exchange puts on the primary channel *)

(** The operations on [std::cout] caused by the engine's writes, once the
    stream has been started. *)
Fixpoint content_ops (ops : list sink_op) : list ostream_op :=
  match ops with
  | nil => nil
  | Sputn s :: rest =>
    if empty s then content_ops rest else Write s :: Flush :: content_ops rest
  | Sputc c :: rest => Write (str c) :: Flush :: content_ops rest
  | Pubsync :: rest => content_ops rest
  end.

(** The lines of what is on a channel: each piece that a newline ends,
    and what follows the last newline when that is not empty.  [line] is
    the line read so far. *)
Fixpoint lines_from (line s : string) : list string :=
  match s with
  | EmptyString => if empty line then [] else [line]
  | String c rest =>
    if Ascii.eqb c LF then line :: lines_from "" rest
    else lines_from (line ++ str c) rest
  end.

Definition lines_of (s : string) : list string := lines_from "" s.

(** How many lines of [s] are [text] and nothing else. *)
Definition count_lines (text s : string) : nat :=
  length (List.filter (String.eqb text) (lines_of s)).

(** What one chat exchange does to [std::cout], given the engine's writes. *)
Definition stream_ops (ops : list sink_op) : list ostream_op :=
  if empty (written ops) then [Flush]
  else [Insert StreamingBuffer.START; Endl; Flush]
         ++ content_ops ops
         ++ [Flush; Insert StreamingBuffer.END; Endl; Flush].

(** ** The escaping rule as the specification words it *)

Definition HEX_DIGITS : string := "0123456789ABCDEF".

Definition hex_char (n : nat) : string :=
  match String.get n HEX_DIGITS with
  | Some c => str c
  | None => ""
  end.

(** Quote, backslash, backspace, form feed, newline, carriage return and
    tab get their two-character escape; any other byte below 0x20 or above
    0x7F becomes backslash, u, 0, 0 and the two hexadecimal digits of the
    byte; every remaining byte stands for itself. *)
Definition escape_byte_spec (c : ascii) : string :=
  let n := nat_of_ascii c in
  if Nat.eqb n 34 then str backslash ++ str dquote
  else if Nat.eqb n 92 then str backslash ++ str backslash
  else if Nat.eqb n 8 then str backslash ++ "b"
  else if Nat.eqb n 12 then str backslash ++ "f"
  else if Nat.eqb n 10 then str backslash ++ "n"
  else if Nat.eqb n 13 then str backslash ++ "r"
  else if Nat.eqb n 9 then str backslash ++ "t"
  else if (Nat.ltb n 32 || Nat.ltb 127 n)%bool
  then str backslash ++ "u00" ++ hex_char (Nat.div n 16) ++ hex_char (Nat.modulo n 16)
  else str c.

Fixpoint escape_spec (input : string) : string :=
  match input with
  | EmptyString => ""
  | String c rest => escape_byte_spec c ++ escape_spec rest
  end.

(** The parameters of a request that carries the override [v]. *)
Definition override (v : string) : gmap string string :=
  <["max_new_tokens" := v]> ∅.

(** ** A reference JSON reader

    A reader for the documents the diagnostics are checked against:
    RFC 8259 objects whose members are strings or integers.  It is not
    part of the program; it stands for the parent process that reads the
    diagnostic channel.  It reads ASCII documents only: a byte above 0x7F
    in a string, which a reader has to check as part of a UTF-8 sequence,
    is refused, so that whatever it accepts is a JSON text. *)

Module Json.

Inductive value : Type :=
| Str (s : string)
| Num (z : Z).

Inductive token : Type :=
| LBrace
| RBrace
| Colon
| Comma
| TStr (s : string)
| TNum (text : string).

Inductive lex_state : Type :=
| Idle
| InString (acc : string)
| InEscape (acc : string)
| InUnicode (acc : string) (code : N) (missing : nat)
| InNumber (text : string).

Definition is_ws (c : ascii) : bool :=
  (Ascii.eqb c " " || Ascii.eqb c HT || Ascii.eqb c LF || Ascii.eqb c CR)%bool.

Definition hex_value (c : ascii) : option N :=
  let n := N_of_ascii c in
  if (N.leb 48 n && N.leb n 57)%bool then Some (n - 48)%N
  else if (N.leb 65 n && N.leb n 70)%bool then Some (n - 55)%N
  else if (N.leb 97 n && N.leb n 102)%bool then Some (n - 87)%N
  else None.

(** The character a one-letter escape stands for. *)
Definition unescape (c : ascii) : option ascii :=
  if Ascii.eqb c dquote then Some dquote
  else if Ascii.eqb c backslash then Some backslash
  else if Ascii.eqb c "/" then Some "/"%char
  else if Ascii.eqb c "b" then Some BS
  else if Ascii.eqb c "f" then Some FF
  else if Ascii.eqb c "n" then Some LF
  else if Ascii.eqb c "r" then Some CR
  else if Ascii.eqb c "t" then Some HT
  else None.

(** UTF-8 for a code point of the basic plane. *)
Definition utf8 (code : N) : string :=
  if N.ltb code 128 then str (ascii_of_N code)
  else if N.ltb code 2048 then
    String (ascii_of_N (192 + N.div code 64))
      (str (ascii_of_N (128 + N.modulo code 64)))
  else
    String (ascii_of_N (224 + N.div code 4096))
      (String (ascii_of_N (128 + N.modulo (N.div code 64) 64))
         (str (ascii_of_N (128 + N.modulo code 64)))).

(** What a character starts when no token is open. *)
Definition idle_step (c : ascii) : option (list token * lex_state) :=
  if Ascii.eqb c "{" then Some ([LBrace], Idle)
  else if Ascii.eqb c "}" then Some ([RBrace], Idle)
  else if Ascii.eqb c ":" then Some ([Colon], Idle)
  else if Ascii.eqb c "," then Some ([Comma], Idle)
  else if Ascii.eqb c dquote then Some ([], InString "")
  else if is_ws c then Some ([], Idle)
  else if (Ascii.eqb c "-" || is_decimal_digit c)%bool then Some ([], InNumber (str c))
  else None.

(** One character in state [st]: the tokens it completes and the next
    state, or [None] when the document is malformed. *)
Definition step (c : ascii) (st : lex_state) : option (list token * lex_state) :=
  match st with
  | Idle => idle_step c
  | InString acc =>
    if Ascii.eqb c dquote then Some ([TStr acc], Idle)
    else if Ascii.eqb c backslash then Some ([], InEscape acc)
    else if N.ltb (N_of_ascii c) 32 then None
    else if N.leb 128 (N_of_ascii c) then None
    else Some ([], InString (acc ++ str c))
  | InEscape acc =>
    if Ascii.eqb c "u" then Some ([], InUnicode acc 0 3)
    else match unescape c with
         | Some x => Some ([], InString (acc ++ str x))
         | None => None
         end
  | InUnicode acc code missing =>
    match hex_value c with
    | Some d =>
      let code := (code * 16 + d)%N in
      match missing with
      | O => Some ([], InString (acc ++ utf8 code))
      | S m => Some ([], InUnicode acc code m)
      end
    | None => None
    end
  | InNumber text =>
    if is_decimal_digit c then Some ([], InNumber (text ++ str c))
    else match idle_step c with
         | Some (toks, st') => Some (TNum text :: toks, st')
         | None => None
         end
  end.

(** The end of the document in state [st]. *)
Definition finish (st : lex_state) : option (list token) :=
  match st with
  | Idle => Some []
  | InNumber text => Some [TNum text]
  | _ => None
  end.

Fixpoint lex (input : string) (st : lex_state) : option (list token) :=
  match input with
  | EmptyString => finish st
  | String c rest =>
    match step c st with
    | Some (toks, st') => option_map (app toks) (lex rest st')
    | None => None
    end
  end.

(** The tokens completed within [input] and the state after it. *)
Fixpoint lex_run (input : string) (st : lex_state) : option (list token * lex_state) :=
  match input with
  | EmptyString => Some ([], st)
  | String c rest =>
    match step c st with
    | Some (toks, st') =>
      option_map (fun r => (toks ++ fst r, snd r)%list) (lex_run rest st')
    | None => None
    end
  end.

Fixpoint all_digits (s : string) : bool :=
  match s with
  | EmptyString => true
  | String c rest => (is_decimal_digit c && all_digits rest)%bool
  end.

(** A single zero, or digits that do not start with zero. *)
Definition natural_ok (t : string) : bool :=
  match t with
  | EmptyString => false
  | String c rest =>
    if Ascii.eqb c "0" then empty rest else (is_decimal_digit c && all_digits rest)%bool
  end.

Definition integer_ok (t : string) : bool :=
  match t with
  | EmptyString => false
  | String c rest => if Ascii.eqb c "-" then natural_ok rest else natural_ok t
  end.

Definition token_value (t : token) : option value :=
  match t with
  | TStr s => Some (Str s)
  | TNum text =>
    if integer_ok text
    then option_map (fun d => Num (Z.of_int d)) (NilEmpty.int_of_string text)
    else None
  | _ => None
  end.

Fixpoint parse_members (toks : list token) : option (list (string * value)) :=
  match toks with
  | TStr key :: Colon :: v :: rest =>
    match token_value v with
    | Some x =>
      match rest with
      | [RBrace] => Some [(key, x)]
      | Comma :: rest' => option_map (cons (key, x)) (parse_members rest')
      | _ => None
      end
    | None => None
    end
  | _ => None
  end.

Definition parse_object (toks : list token) : option (list (string * value)) :=
  match toks with
  | [LBrace; RBrace] => Some []
  | LBrace :: rest => parse_members rest
  | _ => None
  end.

(** The members of the object a document denotes, in document order. *)
Definition decode (document : string) : option (list (string * value)) :=
  match lex document Idle with
  | Some toks => parse_object toks
  | None => None
  end.

End Json.

(** ** The layout of the structured envelope, as the specification words it *)

Definition member (key value : string) : string := quoted key ++ ":" ++ value.

Definition optional (present : bool) (m : string) : list string :=
  if present then [m] else [].

(** The ready diagnostic up to its timestamp, and the tokens in it. *)
Definition ready_prefix : string :=
  "{" ++ member "type" (quoted "status") ++ ","
      ++ member "status" (quoted "ready") ++ ","
      ++ quoted "timestamp" ++ ":".

Definition ready_tokens : list Json.token :=
  [Json.LBrace; Json.TStr "type"; Json.Colon; Json.TStr "status"; Json.Comma;
   Json.TStr "status"; Json.Colon; Json.TStr "ready"; Json.Comma;
   Json.TStr "timestamp"; Json.Colon].

(** ** A scripted engine, to run the model on examples *)

(** The state counts the calls answered; every answer is [Hi!], written
    as one block and one single character. *)
#[export] Instance scripted_llm : Llm nat := {
  response := fun n _ _ => ([Sputn "Hi"; Pubsync; Sputc "!"], S n);
  reset := fun _ => 0;
  getContext := fun n => {| prompt_len := Z.of_nat n; gen_seq_len := 3 |}
}.

(** An engine that writes nothing. *)
Definition silent_llm : Llm nat := {|
  response := fun n _ _ => ([Sputn ""; Pubsync], S n);
  reset := fun _ => 0;
  getContext := fun n => {| prompt_len := Z.of_nat n; gen_seq_len := 0 |}
|}.

(** The object after the constructor (lines 24-27), with the engine [e]
    that [initialize] has loaded, and a world in which nothing has
    happened yet. *)
Definition fresh_session {E : Type} (e : E) : Session E := mkSession e false false "" [].
Definition fresh_world : World := mkWorld [] [] 0 [].

(** ** Example inputs *)

(** The line of the decoder example: an object with type chat, id 7 and
    a prompt whose text holds two backslash-quote pairs around world. *)
Definition example_chat_line : string :=
  "{" ++ quoted "type" ++ ":" ++ quoted "chat" ++ ","
      ++ quoted "id" ++ ":" ++ quoted "7" ++ ","
      ++ quoted "prompt" ++ ":"
      ++ quoted ("hello " ++ str backslash ++ str dquote ++ "world" ++ str backslash ++ str dquote)
      ++ "}".

Definition frobnicate_line : string :=
  "{" ++ quoted "type" ++ ":" ++ quoted "frobnicate" ++ "}".

Definition status_line : string :=
  "{" ++ quoted "type" ++ ":" ++ quoted "status" ++ "}".

Definition reset_line : string :=
  "{" ++ quoted "type" ++ ":" ++ quoted "reset" ++ "}".

Definition exit_line : string :=
  "{" ++ quoted "type" ++ ":" ++ quoted "exit" ++ "}".

Definition hello_line : string :=
  "{" ++ quoted "type" ++ ":" ++ quoted "chat" ++ ","
      ++ quoted "prompt" ++ ":" ++ quoted "hello" ++ "}".

Definition system_prompt_line : string :=
  "{" ++ quoted "type" ++ ":" ++ quoted "system_prompt" ++ ","
      ++ quoted "content" ++ ":" ++ quoted "X" ++ "}".

(** The prompt text between the outer quotes of that line, as it stands
    there (15 bytes, both backslashes included), and with the two escapes
    resolved (13 bytes). *)
Definition example_prompt_raw : string :=
  "hello " ++ str backslash ++ str dquote ++ "world" ++ str backslash ++ str dquote.

Definition example_prompt_unescaped : string :=
  "hello " ++ str dquote ++ "world" ++ str dquote.

(** A chat line whose generation-length override is a lone minus sign. *)
Definition sign_only_line : string :=
  "{" ++ quoted "type" ++ ":" ++ quoted "chat" ++ ","
      ++ quoted "prompt" ++ ":" ++ quoted "hi" ++ ","
      ++ quoted "max_new_tokens" ++ ":" ++ quoted "-" ++ "}".

(** A chat line whose override holds a byte above 0x7F after a digit. *)
Definition high_byte_line : string :=
  "{" ++ quoted "type" ++ ":" ++ quoted "chat" ++ ","
      ++ quoted "prompt" ++ ":" ++ quoted "hi" ++ ","
      ++ quoted "max_new_tokens" ++ ":" ++ quoted ("1" ++ str "233"%char) ++ "}".

Definition example_clock (n : nat) : Z := (1700000000000 + Z.of_nat n)%Z.

Definition example_chat_request : Request.t :=
  Request.mk "1" "chat" "hello" (override "128").

(** The session after [example_chat_request] on a fresh session with the
    scripted engine. *)
Definition example_session_after_chat : Session nat :=
  mkSession 1 false false "" [("user", "hello"); ("assistant", "Hi!")].

(** A session: set the system prompt, chat, an unknown method, chat,
    reset, chat. *)
Definition example_lines : list string :=
  [system_prompt_line; hello_line; frobnicate_line; hello_line; reset_line; hello_line].

(** The session of the reset example: system prompt X and one exchange. *)
Definition example_session_with_prompt : Session nat :=
  mkSession 1 true false "X" [("user", "hello"); ("assistant", "Hi!")].

Definition example_reset_request : Request.t := Request.mk "" "reset" "" ∅.

Definition example_status_request : Request.t := Request.mk "" "status" "" ∅.

Definition empty_prompt_request : Request.t := Request.mk "" "system_prompt" "" ∅.
Definition new_prompt_request : Request.t := Request.mk "" "system_prompt" "X" ∅.

Definition running_session : Session nat := mkSession 0 true false "" [].

(** * Further definitions *)

(** ** Reading escaped text back *)

Fixpoint all_chars (p : ascii -> bool) (s : string) : bool :=
  match s with
  | EmptyString => true
  | String c rest => (p c && all_chars p rest)%bool
  end.

(** A byte from space to DEL: no control character, no byte above 0x7F. *)
Definition is_plain_byte (c : ascii) : bool :=
  (N.leb 32 (N_of_ascii c) && N.leb (N_of_ascii c) 127)%bool.

Definition is_ascii_byte (c : ascii) : bool := N.ltb (N_of_ascii c) 128.

Definition not_newline (c : ascii) : bool := negb (Ascii.eqb c LF).

(** What a JSON reader makes of one escaped byte: a byte above 0x7F comes
    back as the two UTF-8 bytes of the code point with that number. *)
Definition reread_byte (c : ascii) : string := Json.utf8 (N_of_ascii c).

Fixpoint reread (s : string) : string :=
  match s with
  | EmptyString => ""
  | String c rest => reread_byte c ++ reread rest
  end.

Definition hex_nibble (c : ascii) : N :=
  match Json.hex_value c with
  | Some d => d
  | None => 0%N
  end.

(** A reader that takes every u-escape for the single byte it names. *)
Fixpoint unescape_bytes (s : string) : string :=
  match s with
  | EmptyString => ""
  | String c rest =>
    if Ascii.eqb c backslash then
      match rest with
      | String x rest' =>
        if Ascii.eqb x "u" then
          match rest' with
          | String _ (String _ (String h (String l rest''))) =>
            String (ascii_of_N (hex_nibble h * 16 + hex_nibble l)) (unescape_bytes rest'')
          | _ => ""
          end
        else
          match Json.unescape x with
          | Some y => String y (unescape_bytes rest')
          | None => ""
          end
      | EmptyString => ""
      end
    else String c (unescape_bytes rest)
  end.

(** A byte that may stand in a JSON string as it is: from space to DEL,
    and neither the quote nor the backslash. *)
Definition is_json_plain_byte (c : ascii) : bool :=
  (N.leb 32 (N_of_ascii c) && N.ltb (N_of_ascii c) 128
   && negb (Ascii.eqb c dquote) && negb (Ascii.eqb c backslash))%bool.

(** The member a reader finds for an optional string argument. *)
Definition reread_field (key value : string) : list (string * Json.value) :=
  if empty value then [] else [(key, Json.Str (reread value))].

(** The tokens of a sequence of string members, each followed by a comma. *)
Definition member_tokens (fields : list (string * string)) : list Json.token :=
  flat_map (fun kv => [Json.TStr (fst kv); Json.Colon; Json.TStr (reread (snd kv)); Json.Comma])
           fields.

Definition present (fields : list (string * string)) : list (string * string) :=
  List.filter (fun kv => negb (empty (snd kv))) fields.

(** ** The generation-length override in words *)

(** The text from position [n] on. *)
Fixpoint drop (n : nat) (s : string) : string :=
  match n, s with
  | O, _ => s
  | S n', String _ rest => drop n' rest
  | S _, EmptyString => ""
  end.

Fixpoint decimal_value_from (s : string) (acc : Z) : Z :=
  match s with
  | EmptyString => acc
  | String c rest => decimal_value_from rest (10 * acc + digit_value c)%Z
  end.

(** The number a string of decimal digits denotes. *)
Definition decimal_value (s : string) : Z := decimal_value_from s 0.

(** A leading sign, split off: whether it is a minus, and the rest. *)
Definition split_sign (s : string) : bool * string :=
  match s with
  | String c rest =>
    if Ascii.eqb c "-" then (true, rest)
    else if Ascii.eqb c "+" then (false, rest)
    else (false, s)
  | EmptyString => (false, s)
  end.

(** A byte whose value as a plain [char] is negative and not [EOF]:
    [std::isdigit] is not defined on it.  There is none where plain [char]
    is unsigned. *)
Definition outside_ctype (char_is_signed : bool) (c : ascii) : bool :=
  (char_is_signed && N.leb 128 (N_of_ascii c) && N.ltb (N_of_ascii c) 255)%bool.

(** The first byte of [s] that is no decimal digit. *)
Fixpoint first_non_digit (s : string) : option ascii :=
  match s with
  | EmptyString => None
  | String c rest => if is_decimal_digit c then first_non_digit rest else Some c
  end.

(** What becomes of an override: the default for the empty string and for
    anything with a non-digit after the optional sign, unless the first
    such byte is one [std::isdigit] is not defined on, where the behaviour
    is undefined; an exception for a sign alone and for a number that does
    not fit [int]; the number otherwise. *)
Definition budget_rule (char_is_signed : bool) (str : string) : outcome Z :=
  if empty str then Ok (-1)%Z
  else
    let '(negative, body) := split_sign str in
    match first_non_digit body with
    | Some c => if outside_ctype char_is_signed c then Undefined else Ok (-1)%Z
    | None =>
      if empty body then Throw std_invalid_argument
      else
        let v := if negative then (- decimal_value body)%Z else decimal_value body in
        if (Z.leb INT_MIN v && Z.leb v INT_MAX)%bool then Ok v
        else Throw std_out_of_range
    end.

(** ** Shapes of a session *)

(** The method a line decodes to. *)
Definition method_of (line : string) : string :=
  match parseRequest line with
  | Ok req => Request.method req
  | _ => ""
  end.

(** A line that makes the loop leave: not empty, and decoding to exit. *)
Definition is_exit_line (line : string) : bool :=
  (negb (empty line) && String.eqb (method_of line) "exit")%bool.

(** Roles in pairs: user, assistant, user, assistant, ... *)
Fixpoint paired_roles (roles : list string) : bool :=
  match roles with
  | [] => true
  | r1 :: rest =>
    match rest with
    | r2 :: rest' =>
      (String.eqb r1 "user" && String.eqb r2 "assistant" && paired_roles rest')%bool
    | [] => false
    end
  end.

(** The system message of a prompt: none when the system prompt is empty. *)
Definition system_part (system_prompt : string) : ChatMessages :=
  if empty system_prompt then [] else [("system", system_prompt)].

(** Where the system prompt of a prompt can come from: the system prompt
    the session started with, or the content of a system_prompt line. *)
Definition prompt_from (lines : list string) (system_prompt p : string) : Prop :=
  p = system_prompt \/
  exists line req,
    In line lines /\ parseRequest line = Ok req /\
    Request.method req = "system_prompt" /\ Request.content req = p.

(** Where the user message of a prompt comes from: the content of a chat
    line. *)
Definition content_from (lines : list string) (content : string) : Prop :=
  exists line req,
    In line lines /\ parseRequest line = Ok req /\
    Request.method req = "chat" /\ Request.content req = content.

Definition is_response_call (c : llm_call) : bool :=
  match c with
  | CallResponse _ _ => true
  | _ => false
  end.

Definition count_responses (calls : list llm_call) : nat :=
  length (List.filter is_response_call calls).

(** The bytes one answer takes on standard output. *)
Definition frame (answer : string) : string :=
  if empty answer then ""
  else StreamingBuffer.START ++ str LF ++ answer ++ StreamingBuffer.END ++ str LF.

Fixpoint join_all (parts : list string) : string :=
  match parts with
  | [] => ""
  | p :: rest => p ++ join_all rest
  end.

(** An operation on the diagnostic channel is in order when the text it
    inserts is a JSON object and has no newline in it. *)
Definition diagnostic_ok (op : ostream_op) : Prop :=
  match op with
  | Insert text => Json.decode text <> None /\ all_chars not_newline text = true
  | _ => True
  end.

(** * The prompt tokens of the benchmark, [vllm_bench.cpp] *)

Module VllmBench.

(** The two fields of [TestInstance] that [prepareTokens] reads. *)
Record TestInstance : Type := mkTestInstance {
  useVariablePrompt : bool;
  promptFilePath : string }.

(** Lines 705-707: [for (int i = 0; i < fullCycles; ++i)
    adjustedTokens.insert(adjustedTokens.end(), begin, end)]. *)
Fixpoint insert_cycles (fullCycles : nat) (sourceTokens adjustedTokens : list Z)
    : list Z :=
  match fullCycles with
  | O => adjustedTokens
  | S n => insert_cycles n sourceTokens (adjustedTokens ++ sourceTokens)%list
  end.

(** [adjustTokensToLength], lines 683-716.  [targetLength] is positive
    wherever it is converted to [size_t]. *)
Definition adjustTokensToLength (sourceTokens : list Z) (targetLength : Z) : list Z :=
  let adjustedTokens : list Z := [] in
  if (Nat.eqb (length sourceTokens) 0 || (targetLength <=? 0)%Z)%bool then adjustedTokens
  else if (Z.of_nat (length sourceTokens) =? targetLength)%Z then sourceTokens
  else if (targetLength <? Z.of_nat (length sourceTokens))%Z then
    firstn (Z.to_nat targetLength) sourceTokens
  else
    let fullCycles := (targetLength / Z.of_nat (length sourceTokens))%Z in
    let remainder := (targetLength mod Z.of_nat (length sourceTokens))%Z in
    let adjustedTokens :=
      insert_cycles (Z.to_nat fullCycles) sourceTokens adjustedTokens in
    if (0 <? remainder)%Z
    then (adjustedTokens ++ firstn (Z.to_nat remainder) sourceTokens)%list
    else adjustedTokens.

(** Lines 731-733: [for (int i = 0; i < nPrompt; ++i)
    tokens.push_back(20 + (i % 20))], from index [i] on, [count] rounds. *)
Fixpoint push_variable (count : nat) (i : Z) (tokens : list Z) : list Z :=
  match count with
  | O => tokens
  | S n => push_variable n (i + 1)%Z (tokens ++ [(20 + Z.rem i 20)%Z])%list
  end.

(** What [printf] prints for [%s] given [s.c_str()]: the bytes before the
    first NUL. *)
Fixpoint c_str (s : string) : string :=
  match s with
  | EmptyString => ""
  | String c rest => if Ascii.eqb c NUL then "" else String c (c_str rest)
  end.

(** [prepareTokens], lines 718-740: the tokens, and what [printf] wrote. *)
Definition prepareTokens (t : TestInstance) (fileTokens : list Z) (nPrompt : Z)
    (verbose : bool) (testType : string) : list Z * list string :=
  let tokens : list Z := [] in
  if (negb (empty (promptFilePath t)) && (0 <? nPrompt)%Z)%bool then
    let tokens := adjustTokensToLength fileTokens nPrompt in
    if verbose
    then (tokens, ["DEBUG: Using file tokens for " ++ c_str testType ++ str LF])
    else (tokens, [])
  else if (0 <? nPrompt)%Z then
    if useVariablePrompt t
    then (push_variable (Z.to_nat nPrompt) 0 tokens, [])
    else (repeat 16%Z (Z.to_nat nPrompt), [])
  else (tokens, []).

End VllmBench.

(** * The prompt table reader, [llm_demo_system_info.cpp] *)

Module SystemInfo.

(** Lines 218-221: [for (auto line : lines) content = content + line + "\n"]. *)
Definition content_of (lines : list string) : string :=
  fold_left (fun content line => (content ++ line) ++ str LF) lines "".

(** The [while (stream.peek() != EOF)] loop of [parse_csv], lines
    224-248, over what is left of the stream.  [startCollecting] is
    written and never read, and is left out. *)
Fixpoint parse_csv_loop (stream cell : string) (row : list string)
    (csv_data : list (list string)) (insideQuotes : bool) : list (list string) :=
  match stream with
  | EmptyString => csv_data
  | String c rest =>
    if Ascii.eqb c dquote then
      match rest with
      | String next rest' =>
        if (insideQuotes && Ascii.eqb next dquote)%bool
        then parse_csv_loop rest' (cell ++ str dquote) row csv_data insideQuotes
        else parse_csv_loop rest cell row csv_data (negb insideQuotes)
      | EmptyString => parse_csv_loop rest cell row csv_data (negb insideQuotes)
      end
    else if (Ascii.eqb c "," && negb insideQuotes)%bool then
      parse_csv_loop rest "" (row ++ [cell])%list csv_data insideQuotes
    else if ((Ascii.eqb c LF || empty rest) && negb insideQuotes)%bool then
      parse_csv_loop rest "" [] (csv_data ++ [(row ++ [cell])%list])%list insideQuotes
    else
      parse_csv_loop rest (cell ++ str c) row csv_data insideQuotes
  end.

(** [parse_csv], lines 209-250. *)
Definition parse_csv (lines : list string) : list (list string) :=
  parse_csv_loop (content_of lines) "" [] [] false.

(** A writer of such tables, to state what the reader reads back: a cell
    is written as it is, or between quotes with each quote in it doubled;
    the cells of a row are joined by commas. *)
Fixpoint double_quotes (cell : string) : string :=
  match cell with
  | EmptyString => ""
  | String c rest =>
    if Ascii.eqb c dquote
    then String dquote (String dquote (double_quotes rest))
    else String c (double_quotes rest)
  end.

Definition is_plain_char (c : ascii) : bool :=
  negb (Ascii.eqb c dquote || Ascii.eqb c "," || Ascii.eqb c LF).

Definition csv_cell (quote : string -> bool) (cell : string) : string :=
  if quote cell then quoted (double_quotes cell) else cell.

Fixpoint csv_line (quote : string -> bool) (cells : list string) : string :=
  match cells with
  | [] => ""
  | cell :: rest =>
    match rest with
    | [] => csv_cell quote cell
    | _ :: _ => csv_cell quote cell ++ "," ++ csv_line quote rest
    end
  end.

(** Every cell that is written without quotes can do without them. *)
Definition quotes_where_needed (quote : string -> bool) (rows : list (list string))
    : bool :=
  forallb (forallb (fun cell => (quote cell || all_chars is_plain_char cell)%bool)) rows.

Definition no_empty_row (rows : list (list string)) : bool :=
  forallb (fun row => negb (Nat.eqb (length row) 0)) rows.

End SystemInfo.

(** ** Shapes of a member of a request line *)

Definition not_char (d c : ascii) : bool := negb (Ascii.eqb c d).

(** The scan for the closing quote runs to the end of [v] and stops
    there: every quote in [v] has a backslash just before it, and the
    byte before the end ([prev] when [v] is empty) is no backslash. *)
Fixpoint closes_at_end (prev : ascii) (v : string) : bool :=
  match v with
  | EmptyString => negb (Ascii.eqb prev backslash)
  | String c rest =>
    ((negb (Ascii.eqb c dquote) || Ascii.eqb prev backslash) && closes_at_end c rest)%bool
  end.

(** A value that is not a string: it starts with neither a blank nor a
    quote and holds none of the four bytes that end a value. *)
Definition bare_value (v : string) : bool :=
  match v with
  | EmptyString => false
  | String c _ =>
    (negb (is_blank c) && negb (Ascii.eqb c dquote)
     && all_chars (fun c => negb (is_value_end c)) v)%bool
  end.

(** What follows a value that is not a string: the end of the line, or
    one of the four bytes. *)
Definition ends_value (rest : string) : bool :=
  match rest with
  | EmptyString => true
  | String c _ => is_value_end c
  end.

(** A request line with a type and one more string member. *)
Definition request_line (type key value : string) : string :=
  "{" ++ member "type" (quoted type) ++ "," ++ member key (quoted value) ++ "}".

Section LlmStdioCore.

(** Whether plain [char] is signed on the target (x86: yes, ARM Linux: no). *)
Variable char_is_signed : bool.

(** The successive readings of [system_clock::now()], in milliseconds
    since the epoch. *)
Variable system_clock : nat -> Z.

Context {E : Type} {llm : Llm E}.

(** ** Message encoder *)

(** A [char] promoted to [int]. *)
Definition char_to_int (c : ascii) : Z :=
  let b := Z.of_N (N_of_ascii c) in
  if (char_is_signed && Z.leb 128 b)%bool then (b - 256)%Z else b.

(** One iteration of the loop of [escapeJsonString]: the [switch]. *)
Definition escape_step (escaped : string) (c : ascii) : string :=
  if Ascii.eqb c dquote then escaped ++ str backslash ++ str dquote
  else if Ascii.eqb c backslash then escaped ++ str backslash ++ str backslash
  else if Ascii.eqb c BS then escaped ++ str backslash ++ "b"
  else if Ascii.eqb c FF then escaped ++ str backslash ++ "f"
  else if Ascii.eqb c LF then escaped ++ str backslash ++ "n"
  else if Ascii.eqb c CR then escaped ++ str backslash ++ "r"
  else if Ascii.eqb c HT then escaped ++ str backslash ++ "t"
  else if (Z.ltb (char_to_int c) 32 || Z.ltb 127 (char_to_int c))%bool
  then (escaped ++ str backslash ++ "u") ++ sprintf_04X (N_of_ascii c)
  else escaped ++ str c.

Fixpoint escape_loop (escaped input : string) : string :=
  match input with
  | EmptyString => escaped
  | String c rest => escape_loop (escape_step escaped c) rest
  end.

(** [LlmStdioCore::escapeJsonString], lines 68-106. *)
Definition escapeJsonString (input : string) : string := escape_loop "" input.

(** [LlmStdioCore::createStderrMessage], lines 108-138; [now_ms] is the
    clock reading of line 132. *)
Definition createStderrMessage
    (message_type status message response_text data : string) (now_ms : Z) : string :=
  let response := "{" ++ quoted "type" ++ ":" ++ str dquote
                      ++ escapeJsonString message_type ++ str dquote in
  let response :=
    if negb (empty status)
    then response ++ "," ++ quoted "status" ++ ":" ++ str dquote
                  ++ escapeJsonString status ++ str dquote
    else response in
  let response :=
    if negb (empty message)
    then response ++ "," ++ quoted "message" ++ ":" ++ str dquote
                  ++ escapeJsonString message ++ str dquote
    else response in
  let response :=
    if negb (empty response_text)
    then response ++ "," ++ quoted "response" ++ ":" ++ str dquote
                  ++ escapeJsonString response_text ++ str dquote
    else response in
  let response :=
    if negb (empty data)
    then response ++ "," ++ quoted "data" ++ ":" ++ data
    else response in
  let response := response ++ "," ++ quoted "timestamp" ++ ":" ++ to_string now_ms in
  response ++ "}".

(** [LlmStdioCore::generateResponse], lines 140-144. *)
Definition generateResponse (id type content : string) : string :=
  "{" ++ quoted "id" ++ ":" ++ quoted id ++ "," ++ quoted "type" ++ ":" ++ quoted type
      ++ "," ++ quoted "content" ++ ":" ++ quoted content ++ "}".

(** [std::cerr << createStderrMessage(...) << std::endl]. *)
Definition cerr_message
    (message_type status message response_text data : string) (w : World) : World :=
  let now_ms := system_clock (clock_reads w) in
  to_cerr [Insert (createStderrMessage message_type status message response_text data now_ms); Endl]
          (tick w).

(** ** The generation-length override of a chat request *)

(** Lines 304-309: [for (; i < str.size(); ++i) if (!std::isdigit(str[i])) { valid = false; break; }];
    the result is the final value of [valid].  [str[i]] is a plain
    [char], promoted to [int] for the call. *)
Equations? all_digits_from (str : string) (i : nat) : outcome bool
  by wf (String.length str - i) lt :=
  all_digits_from str i with lt_dec i (String.length str) => {
    | left _ with str_at str i => {
        | Ok c with isdigit (char_to_int c) => {
            | Ok digit := if negb digit then Ok false else all_digits_from str (S i);
            | Throw e := Throw e;
            | Undefined := Undefined };
        | Throw e := Throw e;
        | Undefined := Undefined };
    | right _ := Ok true }.
Proof. lia. Qed.

(** [handleChatRequest], lines 289-314: the value of the local
    [max_new_tokens] handed to the engine. *)
Definition chat_max_new_tokens (params : gmap string string) : outcome Z :=
  let max_new_tokens := (-1)%Z in
  match params !! "max_new_tokens" with
  | Some str =>
    if negb (empty str) then
      c ← str_at str 0;
      let i := if (Ascii.eqb c "+" || Ascii.eqb c "-")%bool then 1 else 0 in
      valid ← all_digits_from str i;
      if (valid && negb (empty str))%bool then stoi str else Ok max_new_tokens
    else Ok max_new_tokens
  | None => Ok max_new_tokens
  end.

(** ** Request handlers *)

Definition set_processing (b : bool) (s : Session E) : Session E :=
  mkSession (m_llm s) (m_running s) b (m_system_prompt s) (m_chat_history s).

Definition set_running (b : bool) (s : Session E) : Session E :=
  mkSession (m_llm s) b (m_processing s) (m_system_prompt s) (m_chat_history s).

Definition set_system_prompt (p : string) (s : Session E) : Session E :=
  mkSession (m_llm s) (m_running s) (m_processing s) p (m_chat_history s).

Definition set_chat_history (h : ChatMessages) (s : Session E) : Session E :=
  mkSession (m_llm s) (m_running s) (m_processing s) (m_system_prompt s) h.

Definition set_llm (e : E) (s : Session E) : Session E :=
  mkSession e (m_running s) (m_processing s) (m_system_prompt s) (m_chat_history s).

(** [LlmStdioCore::handleSystemPromptRequest], lines 267-276. *)
Definition handleSystemPromptRequest (req : Request.t) (s : Session E) (w : World)
    : Session E * World :=
  if negb (empty (Request.content req)) then
    let s := set_system_prompt (Request.content req) s in
    let w := cerr_message "message" "success" MSG_PROMPT_SET "" "" w in
    (s, to_cerr [Flush] w)
  else
    let w := cerr_message "error" "error" MSG_PROMPT_EMPTY "" "" w in
    (s, to_cerr [Flush] w).

(** [LlmStdioCore::handleResetRequest], lines 278-284. *)
Definition handleResetRequest (req : Request.t) (s : Session E) (w : World)
    : Session E * World :=
  let s := set_chat_history [] s in
  let s := set_llm (reset (m_llm s)) s in
  let w := called CallReset w in
  let w := cerr_message "message" "success" MSG_RESET "" "" w in
  (s, to_cerr [Flush] w).

(** Lines 320-332 of [handleChatRequest]: the message list for the engine. *)
Definition chat_messages (req : Request.t) (s : Session E) : ChatMessages :=
  let messages : ChatMessages := [] in
  let messages :=
    if negb (empty (m_system_prompt s))
    then (messages ++ [("system", m_system_prompt s)])%list
    else messages in
  let messages := (messages ++ m_chat_history s)%list in
  (messages ++ [("user", Request.content req)])%list.

(** [LlmStdioCore::handleChatRequest], lines 286-392.  The streaming
    buffer writes to [std::cout] itself (its [out] is a reference), so
    the flush of line 372 goes to the same stream. *)
Definition handleChatRequest (req : Request.t) (s : Session E) (w : World)
    : outcome (Session E * World) :=
  let s := set_processing true s in
  max_new_tokens ← chat_max_new_tokens (Request.params req);
  let streaming_buffer := StreamingBuffer.mk (cout w) false in
  let messages := chat_messages req s in
  let full_response := "" in
  let '(ops, e) := response (m_llm s) messages max_new_tokens in
  let w := called (CallResponse messages max_new_tokens) w in
  let s := set_llm e s in
  let '(streaming_buffer, full_response) :=
    fold_left TeeBuffer.apply ops (streaming_buffer, full_response) in
  let streaming_buffer :=
    StreamingBuffer.mk (StreamingBuffer.out streaming_buffer ++ [Flush])
                       (StreamingBuffer.started streaming_buffer) in
  let streaming_buffer := StreamingBuffer.endStream streaming_buffer in
  let w := with_cout (StreamingBuffer.out streaming_buffer) w in
  let s := set_chat_history (m_chat_history s ++ [("user", Request.content req)])%list s in
  let s := set_chat_history (m_chat_history s ++ [("assistant", full_response)])%list s in
  let w := cerr_message "status" "success" MSG_STREAM_DONE "" "" w in
  let w := cerr_message "response" "success" MSG_RESPONSE_DONE full_response "" w in
  let w := to_cerr [Flush] w in
  Ok (set_processing false s, w).

(** [LlmStdioCore::handleStatusRequest], lines 394-405. *)
Definition handleStatusRequest (req : Request.t) (s : Session E) (w : World)
    : Session E * World :=
  let status := if m_processing s then "processing" else "idle" in
  let context := getContext (m_llm s) in
  let w := called CallGetContext w in
  let info := "status:" ++ status
              ++ ",prompt_len:" ++ to_string (prompt_len context)
              ++ ",gen_seq_len:" ++ to_string (gen_seq_len context)
              ++ ",chat_history_count:" ++ to_string (Z.of_nat (length (m_chat_history s))) in
  let w := cerr_message "status" "info" info "" "" w in
  (s, to_cerr [Flush] w).

(** ** Service loop *)

(** The body of [run]'s [while (m_running)], lines 411-441.  Standard
    input is the list of lines [std::getline] will deliver; when it is
    exhausted the read leaves [request] empty with [eof] set. *)
Fixpoint run_loop (lines : list string) (s : Session E) (w : World)
    : outcome (Session E * World) :=
  if m_running s then
    match lines with
    | [] => Ok (s, w)
    | request :: lines =>
      if empty request then run_loop lines s w
      else
        req ← parseRequest request;
        if String.eqb (Request.method req) "chat" then
          '(s, w) ← handleChatRequest req s w;
          run_loop lines s w
        else if String.eqb (Request.method req) "status" then
          let '(s, w) := handleStatusRequest req s w in run_loop lines s w
        else if String.eqb (Request.method req) "system_prompt" then
          let '(s, w) := handleSystemPromptRequest req s w in run_loop lines s w
        else if String.eqb (Request.method req) "reset" then
          let '(s, w) := handleResetRequest req s w in run_loop lines s w
        else if String.eqb (Request.method req) "exit" then
          Ok (s, w)
        else
          let w := cerr_message "error" "error" (MSG_UNKNOWN ++ Request.method req) "" "" w in
          run_loop lines s (to_cerr [Flush] w)
    end
  else Ok (s, w).

(** [LlmStdioCore::run], lines 407-442. *)
Definition run (lines : list string) (s : Session E) (w : World)
    : outcome (Session E * World) :=
  run_loop lines (set_running true s) w.

(** [LlmStdioCore::stop]. *)
Definition stop (s : Session E) : Session E := set_running false s.

(** ** Shapes used in the statements *)

(** The two diagnostics a completed chat exchange sends to [std::cerr]. *)
Definition chat_diagnostics (full_response : string) (reads : nat) : list ostream_op :=
  [Insert (createStderrMessage "status" "success" MSG_STREAM_DONE "" "" (system_clock reads));
   Endl;
   Insert (createStderrMessage "response" "success" MSG_RESPONSE_DONE full_response ""
             (system_clock (S reads)));
   Endl;
   Flush].

(** The members of the envelope: type, then each of status, message,
    response and data that is not empty, then timestamp; the strings are
    escaped and quoted, data is taken as it is. *)
Definition envelope_members
    (message_type status message response_text data : string) (now_ms : Z) : list string :=
  ([member "type" (quoted (escapeJsonString message_type))]
     ++ optional (negb (empty status)) (member "status" (quoted (escapeJsonString status)))
     ++ optional (negb (empty message)) (member "message" (quoted (escapeJsonString message)))
     ++ optional (negb (empty response_text))
          (member "response" (quoted (escapeJsonString response_text)))
     ++ optional (negb (empty data)) (member "data" data)
     ++ [member "timestamp" (to_string now_ms)])%list.

(** The members of string fields as [createStderrMessage] writes them. *)
Definition encode_fields (fields : list (string * string)) : list string :=
  map (fun kv => member (fst kv) (quoted (escapeJsonString (snd kv)))) fields.

(** The calls made to the engine, replayed from the engine state [e] and
    the history [h] to the engine state and the history at the end.  The
    prompt of each [response] call is the system message, if there is a
    system prompt, then the whole history as it stands, then one new user
    message; the history then grows by that message and by the answer,
    which is what the engine writes for this prompt; a reset empties the
    history. *)
Inductive replays (prompt_ok content_ok : string -> Prop)
    : E -> ChatMessages -> list llm_call -> E -> ChatMessages -> Prop :=
| replays_done (e : E) (h : ChatMessages) :
    replays prompt_ok content_ok e h [] e h
| replays_response (e e1 e' : E) (h h' : ChatMessages) (system_prompt content : string)
    (max_new_tokens : Z) (ops : list sink_op) (rest : list llm_call) :
    prompt_ok system_prompt ->
    content_ok content ->
    response e (system_part system_prompt ++ h ++ [("user", content)])%list max_new_tokens
      = (ops, e1) ->
    replays prompt_ok content_ok e1
      (h ++ [("user", content); ("assistant", written ops)])%list rest e' h' ->
    replays prompt_ok content_ok e h
      (CallResponse (system_part system_prompt ++ h ++ [("user", content)])%list
         max_new_tokens :: rest)
      e' h'
| replays_reset (e e' : E) (h h' : ChatMessages) (rest : list llm_call) :
    replays prompt_ok content_ok (reset e) [] rest e' h' ->
    replays prompt_ok content_ok e h (CallReset :: rest) e' h'
| replays_context (e e' : E) (h h' : ChatMessages) (rest : list llm_call) :
    replays prompt_ok content_ok e h rest e' h' ->
    replays prompt_ok content_ok e h (CallGetContext :: rest) e' h'.

(** The answers the engine gives when the calls are made from the engine
    state [e], in the order of the calls, and the engine state after the
    last one. *)
Fixpoint answers_of (e : E) (calls : list llm_call) : list string * E :=
  match calls with
  | [] => ([], e)
  | CallResponse messages max_new_tokens :: rest =>
    let '(ops, e) := response e messages max_new_tokens in
    let '(answers, e) := answers_of e rest in
    (written ops :: answers, e)
  | CallReset :: rest => answers_of (reset e) rest
  | CallGetContext :: rest => answers_of e rest
  end.

(** * Properties *)

(** ** The decoder never fails *)

Lemma get_some_lt (s : string) :
  forall i c, String.get i s = Some c -> i < String.length s.
Proof.
  induction s as [|a s IH]; intros [|i] c H; simpl in *; try discriminate; try lia.
  apply IH in H. lia.
Qed.

Lemma get_none_ge (s : string) :
  forall i, String.get i s = None -> String.length s <= i.
Proof.
  induction s as [|a s IH]; intros [|i] H; simpl in *; try discriminate; try lia.
  apply IH in H. lia.
Qed.

Lemma str_at_ok (s : string) (i : nat) :
  i <= String.length s -> exists c, str_at s i = Ok c.
Proof.
  intros Hi. unfold str_at.
  destruct (String.get i s) eqn:Hg; [eauto|].
  apply get_none_ge in Hg.
  replace i with (String.length s) by lia.
  rewrite Nat.eqb_refl. eauto.
Qed.

Lemma str_at_inside (s : string) (i : nat) (c : ascii) :
  str_at s i = Ok c -> c <> NUL -> i < String.length s.
Proof.
  unfold str_at. intros H Hc.
  destruct (String.get i s) eqn:Hg.
  - eapply get_some_lt; eauto.
  - destruct (Nat.eqb i (String.length s)); [|discriminate].
    inversion H; subst. contradiction.
Qed.

Lemma skip_blanks_ok (s : string) (p : nat) :
  p <= String.length s ->
  exists q, skip_blanks s p = Ok q /\ p <= q <= String.length s.
Proof.
  funelim (skip_blanks s p); intros Hp;
    try (destruct (str_at_ok json_str start_pos Hp) as [c' Hc']; congruence).
  - exists start_pos. split; [reflexivity|lia].
  - destruct (is_blank c).
    + destruct H as [q [Hq Hb]]; [lia|]. exists q. split; [exact Hq|lia].
    + exists start_pos. split; [reflexivity|lia].
Qed.

Lemma scan_value_ok (s : string) (p : nat) :
  p <= String.length s ->
  exists q, scan_value s p = Ok q /\ p <= q <= String.length s.
Proof.
  funelim (scan_value s p); intros Hp;
    try (destruct (str_at_ok json_str end_pos Hp) as [c' Hc']; congruence).
  - exists end_pos. split; [reflexivity|lia].
  - destruct (is_value_end c).
    + exists end_pos. split; [reflexivity|lia].
    + destruct H as [q [Hq Hb]]; [lia|]. exists q. split; [exact Hq|lia].
Qed.

Lemma closing_quote_ok (s : string) (end_pos : option nat) :
  (forall e, end_pos = Some e -> 1 <= e <= String.length s) ->
  exists r, closing_quote s end_pos = Ok r.
Proof.
  funelim (closing_quote s end_pos); intros Hinv.
  all: try (eexists; reflexivity).
  all: try (destruct (Hinv e eq_refl) as [H1 H2];
            destruct e as [|j]; [lia|]; simpl in Heq;
            destruct (str_at_ok json_str j ltac:(lia)) as [c' Hc']; congruence).
  apply H. intros e' He'. unfold find in He'.
  apply index_bounds in He'. simpl in He'. lia.
Qed.

Lemma substr_ok (s : string) (pos n : nat) :
  pos <= String.length s -> substr s pos n = Ok (String.substring pos n s).
Proof.
  intros Hp. unfold substr.
  destruct (Nat.ltb_spec (String.length s) pos); [lia|reflexivity].
Qed.

Lemma extractValue_returns (json_str key : string) :
  returns (extractValue json_str key).
Proof.
  unfold returns, extractValue.
  destruct (find json_str (str dquote ++ key ++ str dquote) 0) as [key_pos|]; [|eauto].
  destruct (find json_str ":" key_pos) as [colon_pos|] eqn:Hcolon; [|eauto].
  unfold find in Hcolon. apply index_bounds in Hcolon. simpl in Hcolon.
  destruct (skip_blanks_ok json_str (colon_pos + 1)) as [start_pos [Hskip Hb]]; [lia|].
  rewrite Hskip. cbn [mbind outcome_bind bind].
  destruct (str_at_ok json_str start_pos) as [c Hc]; [lia|].
  rewrite Hc. cbn [mbind outcome_bind bind].
  destruct (Ascii.eqb c dquote) eqn:Hq.
  - apply Ascii.eqb_eq in Hq. subst c.
    assert (Hlt : start_pos < String.length json_str).
    { eapply str_at_inside; [exact Hc|]. discriminate. }
    destruct (closing_quote_ok json_str (find json_str (str dquote) (start_pos + 1)))
      as [r Hr].
    { intros e He. unfold find in He. apply index_bounds in He. simpl in He. lia. }
    rewrite Hr. cbn [mbind outcome_bind bind].
    destruct r as [end_pos|].
    + rewrite substr_ok by lia. cbn [mbind outcome_bind bind]. eauto.
    + cbn [mbind outcome_bind bind].
      destruct (scan_value_ok json_str (start_pos + 1)) as [q [Hscan Hqb]]; [lia|].
      rewrite Hscan. cbn [mbind outcome_bind bind].
      rewrite substr_ok by lia. eauto.
  - cbn [mbind outcome_bind bind].
    destruct (scan_value_ok json_str start_pos) as [q [Hscan Hqb]]; [lia|].
    rewrite Hscan. cbn [mbind outcome_bind bind].
    rewrite substr_ok by lia. eauto.
Qed.

(** ** Strings *)

Lemma append_assoc (a b c : string) : (a ++ b) ++ c = a ++ (b ++ c).
Proof. induction a as [|x a IH]; simpl; [reflexivity|now rewrite IH]. Qed.

Lemma append_nil_r (a : string) : a ++ "" = a.
Proof. induction a as [|x a IH]; simpl; [reflexivity|now rewrite IH]. Qed.

Lemma append_eq_nil (a b : string) : a ++ b = "" -> a = "" /\ b = "".
Proof. destruct a; simpl; [auto|discriminate]. Qed.

Lemma empty_true (s : string) : empty s = true <-> s = "".
Proof. unfold empty. apply String.eqb_eq. Qed.

Lemma empty_false (s : string) : empty s = false <-> s <> "".
Proof. unfold empty. apply String.eqb_neq. Qed.

Lemma empty_length (s : string) : Nat.ltb 0 (String.length s) = negb (empty s).
Proof. destruct s; reflexivity. Qed.

Lemma bytes_of_app (l1 l2 : list ostream_op) :
  bytes_of (l1 ++ l2) = bytes_of l1 ++ bytes_of l2.
Proof.
  induction l1 as [|op l1 IH]; simpl; [reflexivity|].
  now rewrite IH, append_assoc.
Qed.

(** ** The tee of the streaming and the capture buffer *)

Lemma to_char_to_int_type (c : ascii) : to_char (to_int_type c) = c.
Proof.
  destruct c as [[] [] [] [] [] [] [] []]; reflexivity.
Qed.

Lemma to_int_type_not_EOF (c : ascii) : Z.eqb (to_int_type c) EOF = false.
Proof.
  apply Z.eqb_neq. unfold to_int_type, EOF. lia.
Qed.

Lemma streaming_sputc (c : ascii) (b : StreamingBuffer.t) :
  StreamingBuffer.sputc c b =
  StreamingBuffer.mk
    (StreamingBuffer.out (StreamingBuffer.startStream b) ++ [Write (str c); Flush]) true.
Proof.
  unfold StreamingBuffer.sputc, StreamingBuffer.overflow.
  rewrite to_int_type_not_EOF, to_char_to_int_type. simpl.
  unfold StreamingBuffer.startStream. destruct b as [o []]; reflexivity.
Qed.

Lemma streaming_sputn (s : string) (b : StreamingBuffer.t) :
  StreamingBuffer.sputn s b =
  if empty s then b
  else StreamingBuffer.mk
         (StreamingBuffer.out (StreamingBuffer.startStream b) ++ [Write s; Flush]) true.
Proof.
  unfold StreamingBuffer.sputn, StreamingBuffer.xsputn.
  rewrite empty_length. destruct (empty s); simpl; [reflexivity|].
  unfold StreamingBuffer.startStream. destruct b as [o []]; reflexivity.
Qed.

Lemma tee_sputc (c : ascii) (b : TeeBuffer.t) :
  TeeBuffer.sputc c b =
  (StreamingBuffer.sputc c (fst b), snd b ++ str c).
Proof.
  unfold TeeBuffer.sputc, TeeBuffer.overflow.
  rewrite to_int_type_not_EOF, to_char_to_int_type. simpl.
  unfold CaptureBuffer.sputc, CaptureBuffer.overflow.
  now rewrite to_int_type_not_EOF, to_char_to_int_type.
Qed.

(** The capture buffer receives every byte the engine writes. *)
Lemma tee_capture (ops : list sink_op) :
  forall b : TeeBuffer.t,
    snd (fold_left TeeBuffer.apply ops b) = snd b ++ written ops.
Proof.
  induction ops as [|op ops IH]; intros b; simpl.
  - now rewrite append_nil_r.
  - rewrite IH. destruct op as [s|c|]; simpl.
    + unfold CaptureBuffer.sputn, CaptureBuffer.xsputn. apply append_assoc.
    + rewrite tee_sputc. simpl. now rewrite append_assoc.
    + reflexivity.
Qed.

(** Once started, the streaming buffer appends the content operations. *)
Lemma tee_stream_started (ops : list sink_op) :
  forall (o : list ostream_op) (cap : string),
    fst (fold_left TeeBuffer.apply ops (StreamingBuffer.mk o true, cap)) =
    StreamingBuffer.mk (o ++ content_ops ops) true.
Proof.
  induction ops as [|op ops IH]; intros o cap; simpl.
  - now rewrite app_nil_r.
  - destruct op as [s|c|]; simpl.
    + unfold TeeBuffer.sputn, TeeBuffer.xsputn. simpl.
      rewrite streaming_sputn. destruct (empty s); [apply IH|].
      simpl. rewrite IH. now rewrite <- app_assoc.
    + rewrite tee_sputc, streaming_sputc. simpl. rewrite IH. now rewrite <- app_assoc.
    + apply IH.
Qed.

(** Not yet started: nothing happens until the first byte, which puts the
    start marker in front of the content. *)
Lemma tee_stream_fresh (ops : list sink_op) :
  forall (o : list ostream_op) (cap : string),
    fst (fold_left TeeBuffer.apply ops (StreamingBuffer.mk o false, cap)) =
    if empty (written ops) then StreamingBuffer.mk o false
    else StreamingBuffer.mk
           (o ++ [Insert StreamingBuffer.START; Endl; Flush] ++ content_ops ops) true.
Proof.
  induction ops as [|op ops IH]; intros o cap; simpl.
  - reflexivity.
  - destruct op as [s|c|]; simpl.
    + unfold TeeBuffer.sputn, TeeBuffer.xsputn. simpl.
      rewrite streaming_sputn. destruct s as [|x s]; simpl; [apply IH|].
      rewrite tee_stream_started. f_equal. now rewrite <- !app_assoc.
    + rewrite tee_sputc, streaming_sputc. simpl.
      rewrite tee_stream_started. f_equal. now rewrite <- !app_assoc.
    + apply IH.
Qed.

Lemma content_ops_bytes (ops : list sink_op) :
  bytes_of (content_ops ops) = written ops.
Proof.
  induction ops as [|op ops IH]; simpl; [reflexivity|].
  destruct op as [s|c|]; simpl.
  - destruct s as [|x s]; simpl; [exact IH|]. now rewrite IH.
  - now rewrite IH.
  - exact IH.
Qed.

(** ** The chat handler *)

(** A chat handler that returns has done exactly this. *)
Lemma handleChatRequest_completed (req : Request.t) (s s' : Session E) (w w' : World) :
  handleChatRequest req s w = Ok (s', w') ->
  exists max_new_tokens ops e,
    chat_max_new_tokens (Request.params req) = Ok max_new_tokens /\
    response (m_llm s) (chat_messages req s) max_new_tokens = (ops, e) /\
    s' = mkSession e (m_running s) false (m_system_prompt s)
           (m_chat_history s
              ++ [("user", Request.content req); ("assistant", written ops)])%list /\
    w' = mkWorld (cout w ++ stream_ops ops)
           (cerr w ++ chat_diagnostics (written ops) (clock_reads w))
           (S (S (clock_reads w)))
           (llm_calls w ++ [CallResponse (chat_messages req s) max_new_tokens]).
Proof.
  unfold handleChatRequest. intros H.
  destruct (chat_max_new_tokens (Request.params req)) as [budget| |] eqn:Hb;
    cbn [mbind outcome_bind bind] in H; try discriminate.
  change (chat_messages req (set_processing true s)) with (chat_messages req s) in H.
  change (m_llm (set_processing true s)) with (m_llm s) in H.
  destruct (response (m_llm s) (chat_messages req s) budget) as [ops e] eqn:Hr.
  pose proof (tee_capture ops (StreamingBuffer.mk (cout w) false, "")) as Hcap.
  pose proof (tee_stream_fresh ops (cout w) "") as Hstr.
  destruct (fold_left TeeBuffer.apply ops (StreamingBuffer.mk (cout w) false, ""))
    as [sb cap].
  simpl in Hcap, Hstr. subst cap sb.
  exists budget, ops, e. split; [reflexivity|]. split; [exact Hr|].
  inversion H; subst; clear H. split.
  - unfold set_processing, set_chat_history, set_llm. simpl.
    now rewrite <- app_assoc.
  - unfold stream_ops, cerr_message, to_cerr, with_cout, tick, called, chat_diagnostics.
    simpl. destruct (empty (written ops)); simpl.
    + now rewrite <- !app_assoc.
    + f_equal; now rewrite <- !app_assoc.
Qed.

(** C3 (amended). A chat request that completes and whose engine call
    writes at least one byte adds exactly this to standard output: the
    start marker [LLM_STREAM_START] and a newline, then the generated
    bytes as they are and in order, then the end marker [LLM_STREAM_END]
    and a newline.  The start marker comes before any generated content;
    the end marker comes directly after the last generated byte, with no
    newline of its own in front.  When the engine call writes no byte at
    all, nothing is added to standard output. *)
Theorem stream_markers_frame_the_output
    (req : Request.t) (s s' : Session E) (w w' : World) :
  handleChatRequest req s w = Ok (s', w') ->
  exists max_new_tokens ops e,
    chat_max_new_tokens (Request.params req) = Ok max_new_tokens /\
    response (m_llm s) (chat_messages req s) max_new_tokens = (ops, e) /\
    (written ops <> "" ->
     bytes_of (cout w') =
     bytes_of (cout w)
       ++ (StreamingBuffer.START ++ str LF)
       ++ written ops
       ++ (StreamingBuffer.END ++ str LF)) /\
    (written ops = "" -> bytes_of (cout w') = bytes_of (cout w)).
Proof.
  intros H. apply handleChatRequest_completed in H.
  destruct H as (budget & ops & e & Hb & Hr & -> & ->).
  exists budget, ops, e.
  split; [exact Hb|]. split; [exact Hr|].
  cbn [cout]. rewrite bytes_of_app. unfold stream_ops. split; intros Hw.
  - apply empty_false in Hw. rewrite Hw.
    rewrite !bytes_of_app, content_ops_bytes. cbn [bytes_of op_bytes].
    now rewrite !append_nil_r, !append_assoc.
  - apply empty_true in Hw. rewrite Hw. cbn [bytes_of op_bytes].
    now rewrite append_nil_r.
Qed.

(** C10. After a chat handler invocation that completes, the assistant
    entry appended to the history, the bytes on standard output between
    the stream markers, and the response argument of the second
    diagnostic are one and the same string: every byte the engine wrote
    to its sink, in order. *)
Theorem capture_is_verbatim
    (req : Request.t) (s s' : Session E) (w w' : World) :
  handleChatRequest req s w = Ok (s', w') ->
  exists max_new_tokens ops e delta,
    chat_max_new_tokens (Request.params req) = Ok max_new_tokens /\
    response (m_llm s) (chat_messages req s) max_new_tokens = (ops, e) /\
    m_chat_history s' =
      (m_chat_history s
         ++ [("user", Request.content req); ("assistant", written ops)])%list /\
    cout w' = (cout w ++ delta)%list /\
    bytes_of delta =
      (if empty (written ops) then ""
       else StreamingBuffer.START ++ str LF
              ++ written ops
              ++ StreamingBuffer.END ++ str LF) /\
    cerr w' =
      (cerr w ++
       [Insert (createStderrMessage "status" "success" MSG_STREAM_DONE "" ""
                  (system_clock (clock_reads w)));
        Endl;
        Insert (createStderrMessage "response" "success" MSG_RESPONSE_DONE
                  (written ops) "" (system_clock (S (clock_reads w))));
        Endl;
        Flush])%list.
Proof.
  intros H. apply handleChatRequest_completed in H.
  destruct H as (budget & ops & e & Hb & Hr & -> & ->).
  exists budget, ops, e, (stream_ops ops).
  repeat split; try assumption.
  unfold stream_ops. destruct (empty (written ops)); [reflexivity|].
  rewrite !bytes_of_app, content_ops_bytes. reflexivity.
Qed.

(** ** Session state across requests *)

Lemma even_plus_two (n : nat) : Nat.even (n + 2) = Nat.even n.
Proof. rewrite Nat.add_comm. reflexivity. Qed.

Lemma run_loop_history_even (lines : list string) :
  forall (s s' : Session E) (w w' : World),
    Nat.even (length (m_chat_history s)) = true ->
    run_loop lines s w = Ok (s', w') ->
    Nat.even (length (m_chat_history s')) = true.
Proof.
  induction lines as [|request lines IH]; intros s s' w w' Hev H; cbn [run_loop] in H.
  - destruct (m_running s); inversion H; subst; exact Hev.
  - destruct (m_running s); [|inversion H; subst; exact Hev].
    destruct (empty request); [eapply IH; eauto|].
    destruct (parseRequest request) as [req| |];
      cbn [mbind outcome_bind bind] in H; try discriminate.
    destruct (String.eqb (Request.method req) "chat").
    { destruct (handleChatRequest req s w) as [[s1 w1]| |] eqn:Hc;
        cbn [mbind outcome_bind bind] in H; try discriminate.
      apply handleChatRequest_completed in Hc.
      destruct Hc as (budget & ops & e & _ & _ & -> & ->).
      eapply IH; [|exact H]. simpl.
      rewrite length_app. simpl. now rewrite even_plus_two. }
    destruct (String.eqb (Request.method req) "status").
    { eapply IH; [|exact H]. exact Hev. }
    destruct (String.eqb (Request.method req) "system_prompt").
    { unfold handleSystemPromptRequest in H.
      destruct (negb (empty (Request.content req))); (eapply IH; [|exact H]); exact Hev. }
    destruct (String.eqb (Request.method req) "reset").
    { eapply IH; [|exact H]. reflexivity. }
    destruct (String.eqb (Request.method req) "exit").
    { inversion H; subst. exact Hev. }
    eapply IH; [|exact H]. exact Hev.
Qed.

(** C4. The history has even length after every completed handler
    invocation of a run that starts from an even (in particular the
    empty) history: a completed chat handler appends exactly two entries,
    the user entry and then the assistant entry; reset leaves the history
    empty; the status and system_prompt handlers leave it as it is. *)
Theorem chat_history_grows_in_pairs :
  (forall (req : Request.t) (s s' : Session E) (w w' : World),
      handleChatRequest req s w = Ok (s', w') ->
      length (m_chat_history s') = length (m_chat_history s) + 2 /\
      exists full_response,
        m_chat_history s' =
          (m_chat_history s
             ++ [("user", Request.content req); ("assistant", full_response)])%list) /\
  (forall (req : Request.t) (s : Session E) (w : World),
      m_chat_history (fst (handleResetRequest req s w)) = []) /\
  (forall (req : Request.t) (s : Session E) (w : World),
      m_chat_history (fst (handleStatusRequest req s w)) = m_chat_history s) /\
  (forall (req : Request.t) (s : Session E) (w : World),
      m_chat_history (fst (handleSystemPromptRequest req s w)) = m_chat_history s) /\
  (forall (lines : list string) (s s' : Session E) (w w' : World),
      Nat.even (length (m_chat_history s)) = true ->
      run lines s w = Ok (s', w') ->
      Nat.even (length (m_chat_history s')) = true) /\
  (forall (lines : list string) (e : E) (s' : Session E) (w w' : World),
      run lines (fresh_session e) w = Ok (s', w') ->
      Nat.even (length (m_chat_history s')) = true).
Proof.
  repeat split.
  - apply handleChatRequest_completed in H.
    destruct H as (budget & ops & e & _ & _ & -> & _). simpl.
    rewrite length_app. reflexivity.
  - apply handleChatRequest_completed in H.
    destruct H as (budget & ops & e & _ & _ & -> & _). simpl. eauto.
  - intros req s w. unfold handleSystemPromptRequest.
    destruct (negb (empty (Request.content req))); reflexivity.
  - intros lines s s' w w' Hev H. unfold run in H.
    eapply run_loop_history_even; [|exact H]. exact Hev.
  - intros lines e s' w w' H. unfold run in H.
    eapply run_loop_history_even; [|exact H]. reflexivity.
Qed.

(** C5. Handling a reset request empties the history, calls the engine's
    reset, sends one success diagnostic, and leaves the system prompt, the
    two flags and standard output as they were; a chat handled right
    after it hands the engine the earlier system prompt as the leading
    message, followed by the new user message. *)
Theorem reset_keeps_system_prompt (req : Request.t) (s : Session E) (w : World) :
  let s' := fst (handleResetRequest req s w) in
  let w' := snd (handleResetRequest req s w) in
  m_chat_history s' = [] /\
  m_llm s' = reset (m_llm s) /\
  llm_calls w' = (llm_calls w ++ [CallReset])%list /\
  cerr w' =
    (cerr w ++
     [Insert (createStderrMessage "message" "success" MSG_RESET "" ""
                (system_clock (clock_reads w)));
      Endl; Flush])%list /\
  cout w' = cout w /\
  m_system_prompt s' = m_system_prompt s /\
  m_running s' = m_running s /\
  m_processing s' = m_processing s /\
  (forall (req2 : Request.t) (s2 : Session E) (w2 : World),
      m_system_prompt s <> "" ->
      handleChatRequest req2 s' w' = Ok (s2, w2) ->
      exists max_new_tokens,
        llm_calls w2 =
          (llm_calls w' ++
           [CallResponse [("system", m_system_prompt s); ("user", Request.content req2)]
                         max_new_tokens])%list).
Proof.
  cbv zeta. unfold handleResetRequest. simpl.
  repeat split.
  - now rewrite <- app_assoc.
  - intros req2 s2 w2 Hsp H.
    apply handleChatRequest_completed in H.
    destruct H as (budget & ops & e & _ & _ & _ & ->).
    exists budget. simpl. unfold chat_messages. simpl.
    apply empty_false in Hsp. now rewrite Hsp.
Qed.

(** C8. On a request with empty content the system_prompt handler sends
    one error diagnostic and changes nothing in the session; on a request
    with non-empty content it stores that content as the system prompt,
    leaves the rest of the session alone, and sends one success
    diagnostic. *)
Theorem system_prompt_handler (req : Request.t) (s : Session E) (w : World) :
  let s' := fst (handleSystemPromptRequest req s w) in
  let w' := snd (handleSystemPromptRequest req s w) in
  (Request.content req = "" ->
   s' = s /\
   cerr w' =
     (cerr w ++
      [Insert (createStderrMessage "error" "error" MSG_PROMPT_EMPTY "" ""
                 (system_clock (clock_reads w)));
       Endl; Flush])%list /\
   cout w' = cout w /\ llm_calls w' = llm_calls w) /\
  (Request.content req <> "" ->
   s' = mkSession (m_llm s) (m_running s) (m_processing s) (Request.content req)
          (m_chat_history s) /\
   cerr w' =
     (cerr w ++
      [Insert (createStderrMessage "message" "success" MSG_PROMPT_SET "" ""
                 (system_clock (clock_reads w)));
       Endl; Flush])%list /\
   cout w' = cout w /\ llm_calls w' = llm_calls w).
Proof.
  cbv zeta. unfold handleSystemPromptRequest. split; intros Hc.
  - apply empty_true in Hc. rewrite Hc. simpl.
    repeat split. now rewrite <- app_assoc.
  - apply empty_false in Hc. rewrite Hc. simpl.
    repeat split. now rewrite <- app_assoc.
Qed.

(** ** The service loop on unknown methods *)

Lemma parseRequest_returns (request_str : string) :
  returns (parseRequest request_str).
Proof.
  unfold returns, parseRequest.
  destruct (extractValue_returns request_str "type") as [type ->].
  destruct (extractValue_returns request_str "id") as [id ->].
  cbn [mbind outcome_bind bind].
  destruct (String.eqb type "chat").
  - destruct (extractValue_returns request_str "prompt") as [c ->].
    destruct (extractValue_returns request_str "max_new_tokens") as [m ->].
    cbn [mbind outcome_bind bind]. eauto.
  - destruct (String.eqb type "system_prompt"); [|eauto].
    destruct (extractValue_returns request_str "content") as [c ->].
    cbn [mbind outcome_bind bind]. eauto.
Qed.

(** C9. [parseRequest] returns a request for every input line, without
    exception or undefined behaviour.  When the decoded method is none of
    chat, status, system_prompt, reset, exit (the empty method of a
    malformed line included), the running loop sends exactly one error
    diagnostic whose message names the method, leaves the session as it
    is, and goes on with the remaining lines. *)
Theorem unknown_method_is_reported :
  (forall request : string, exists req, parseRequest request = Ok req) /\
  (forall request key : string,
      find request (quoted key) 0 = None -> extractValue request key = Ok "") /\
  (forall (request : string) (lines : list string) (req : Request.t)
          (s : Session E) (w : World),
      m_running s = true ->
      request <> "" ->
      parseRequest request = Ok req ->
      Request.method req <> "chat" ->
      Request.method req <> "status" ->
      Request.method req <> "system_prompt" ->
      Request.method req <> "reset" ->
      Request.method req <> "exit" ->
      run_loop (request :: lines) s w =
      run_loop lines s
        (mkWorld (cout w)
           (cerr w ++
            [Insert (createStderrMessage "error" "error"
                       (MSG_UNKNOWN ++ Request.method req) "" ""
                       (system_clock (clock_reads w)));
             Endl; Flush])
           (S (clock_reads w))
           (llm_calls w))).
Proof.
  split; [|split].
  - intros request. apply parseRequest_returns.
  - intros request key Habsent. unfold extractValue.
    unfold quoted in Habsent. now rewrite Habsent.
  - intros request lines req s w Hrun Hne Hparse Hchat Hstatus Hsp Hreset Hexit.
    cbn [run_loop]. rewrite Hrun.
    apply empty_false in Hne. rewrite Hne, Hparse.
    cbn [mbind outcome_bind bind].
    apply String.eqb_neq in Hchat, Hstatus, Hsp, Hreset, Hexit.
    rewrite Hchat, Hstatus, Hsp, Hreset, Hexit.
    unfold cerr_message, to_cerr, tick. simpl.
    now rewrite <- app_assoc.
Qed.

(** ** The message encoder *)

Lemma escape_step_fresh (c : ascii) : escape_step "" c = escape_byte_spec c.
Proof.
  unfold escape_step, char_to_int.
  destruct char_is_signed;
    destruct c as [[] [] [] [] [] [] [] []]; vm_compute; reflexivity.
Qed.

Lemma escape_step_append (escaped : string) (c : ascii) :
  escape_step escaped c = escaped ++ escape_step "" c.
Proof.
  unfold escape_step.
  repeat match goal with
         | |- context [if ?b then _ else _] => destruct b
         end;
    simpl; rewrite ?append_assoc; reflexivity.
Qed.

Lemma escape_loop_spec (input : string) :
  forall escaped, escape_loop escaped input = escaped ++ escape_spec input.
Proof.
  induction input as [|c rest IH]; intros escaped; simpl.
  - now rewrite append_nil_r.
  - rewrite IH, escape_step_append, escape_step_fresh. apply append_assoc.
Qed.

Lemma escapeJsonString_spec_eq (input : string) :
  escapeJsonString input = escape_spec input.
Proof.
  unfold escapeJsonString. now rewrite escape_loop_spec.
Qed.

(** C7. On every input, [escapeJsonString] replaces each byte by what the
    escaping rule says: the two-character escapes for quote, backslash,
    backspace, form feed, newline, carriage return and tab; a u-escape
    with the digits 00 and the byte's two hexadecimal digits for every
    other byte below 0x20 or above 0x7F; the byte itself otherwise.  This
    holds whether plain [char] is signed or not. *)
Theorem escapeJsonString_follows_rule (input : string) :
  escapeJsonString input = escape_spec input.
Proof.
  apply escapeJsonString_spec_eq.
Qed.

(** ** The decoder example *)

Lemma parseRequest_example_value :
  parseRequest example_chat_line =
  Ok (Request.mk "7" "chat" example_prompt_raw (override "")).
Proof. vm_compute. reflexivity. Qed.

(** C1 (amended). On the example line [parseRequest] returns method chat,
    id 7, and as content the scanned text as it stands in the line: the
    escaped quotes do not end the scan, and the backslashes stay in the
    content. *)
Theorem parseRequest_example_keeps_backslashes :
  exists req,
    parseRequest example_chat_line = Ok req /\
    Request.method req = "chat" /\
    Request.id req = "7" /\
    Request.content req = example_prompt_raw /\
    String.length (Request.content req) = 15.
Proof.
  eexists. split; [apply parseRequest_example_value|].
  repeat split.
Qed.

(** C1 as stated does not hold: the content returned for the example line
    is not the text with the escapes resolved. *)
Lemma parseRequest_example_not_unescaped :
  ~ exists req,
      parseRequest example_chat_line = Ok req /\
      Request.method req = "chat" /\
      Request.id req = "7" /\
      Request.content req = example_prompt_unescaped.
Proof.
  intros (req & Hreq & _ & _ & Hcontent).
  rewrite parseRequest_example_value in Hreq.
  inversion Hreq; subst req. simpl in Hcontent. discriminate Hcontent.
Qed.

(** ** The generation-length override *)

Lemma parseRequest_sign_only_value :
  parseRequest sign_only_line = Ok (Request.mk "" "chat" "hi" (override "-")).
Proof. vm_compute. reflexivity. Qed.

(** C2 (the code at the failing input). The overrides 128 and +50 give
    the budgets 128 and 50, and 12a and the empty string give the default
    -1; but a lone minus sign passes the digit check and reaches
    [std::stoi], which throws [std::invalid_argument]: the chat handler,
    and with it the service loop, ends with that exception instead of
    using the default budget. *)
Theorem sign_only_override_throws :
  chat_max_new_tokens (override "128") = Ok 128%Z /\
  chat_max_new_tokens (override "+50") = Ok 50%Z /\
  chat_max_new_tokens (override "12a") = Ok (-1)%Z /\
  chat_max_new_tokens (override "") = Ok (-1)%Z /\
  chat_max_new_tokens (override "-") = Throw std_invalid_argument /\
  (forall (id method content : string) (s : Session E) (w : World),
      handleChatRequest (Request.mk id method content (override "-")) s w
      = Throw std_invalid_argument) /\
  (forall (lines : list string) (s : Session E) (w : World),
      run (sign_only_line :: lines) s w = Throw std_invalid_argument).
Proof.
  assert (Hthrow : chat_max_new_tokens (override "-") = Throw std_invalid_argument)
    by (vm_compute; reflexivity).
  split; [vm_compute; destruct char_is_signed; vm_compute; reflexivity|].
  split; [vm_compute; destruct char_is_signed; vm_compute; reflexivity|].
  split; [vm_compute; destruct char_is_signed; vm_compute; reflexivity|].
  split; [vm_compute; reflexivity|].
  split; [exact Hthrow|].
  split.
  - intros id method content s w. unfold handleChatRequest.
    cbn [Request.params]. now rewrite Hthrow.
  - intros lines s w. unfold run. cbn [run_loop set_running m_running].
    change (empty sign_only_line) with false. cbv iota.
    rewrite parseRequest_sign_only_value.
    cbn [mbind outcome_bind bind Request.method].
    change (String.eqb "chat" "chat") with true. cbv iota.
    unfold handleChatRequest. cbn [Request.params]. now rewrite Hthrow.
Qed.

Lemma createStderrMessage_layout
    (message_type status message response_text data : string) (now_ms : Z) :
  createStderrMessage message_type status message response_text data now_ms =
  "{" ++ String.concat ","
           (envelope_members message_type status message response_text data now_ms)
      ++ "}".
Proof.
  unfold createStderrMessage, envelope_members, member, quoted, optional.
  destruct (empty status), (empty message), (empty response_text), (empty data);
    simpl; repeat (progress (rewrite ?append_assoc; simpl)); reflexivity.
Qed.

(** *** Reading a document in two parts *)

Lemma lex_app (a b : string) :
  forall st,
    Json.lex (a ++ b) st =
    match Json.lex_run a st with
    | Some (toks, st') => option_map (app toks) (Json.lex b st')
    | None => None
    end.
Proof.
  induction a as [|c a IH]; intros st; simpl.
  - destruct (Json.lex b st); reflexivity.
  - destruct (Json.step c st) as [[toks st']|]; [|reflexivity].
    rewrite IH.
    destruct (Json.lex_run a st') as [[toks2 st2]|]; simpl; [|reflexivity].
    destruct (Json.lex b st2); simpl; [|reflexivity].
    now rewrite app_assoc.
Qed.

Lemma ready_prefix_tokens :
  Json.lex_run ready_prefix Json.Idle = Some (ready_tokens, Json.Idle).
Proof. vm_compute. reflexivity. Qed.

Lemma ready_message_text (now_ms : Z) :
  createStderrMessage "status" "ready" "" "" "" now_ms =
  ready_prefix ++ to_string now_ms ++ "}".
Proof.
  unfold createStderrMessage. rewrite !escapeJsonString_spec_eq.
  generalize (to_string now_ms). intros t. vm_compute. reflexivity.
Qed.

Lemma parse_ready_tokens (v : Json.token) (x : Json.value) :
  Json.token_value v = Some x ->
  Json.parse_object (ready_tokens ++ [v; Json.RBrace]) =
  Some [("type", Json.Str "status"); ("status", Json.Str "ready"); ("timestamp", x)].
Proof.
  intros Hv. simpl. now rewrite Hv.
Qed.

(** *** Reading a decimal number back *)

Lemma lex_digits (d : Decimal.uint) :
  forall text,
    Json.lex (NilEmpty.string_of_uint d ++ "}") (Json.InNumber text) =
    Some [Json.TNum (text ++ NilEmpty.string_of_uint d); Json.RBrace].
Proof.
  induction d; intros text; simpl;
    try (rewrite IHd; rewrite append_assoc; reflexivity).
  now rewrite append_nil_r.
Qed.

Lemma to_uint_normal (p : positive) :
  Decimal.unorm (Pos.to_uint p) = Pos.to_uint p.
Proof.
  rewrite <- (DecimalPos.Unsigned.to_of (Pos.to_uint p)).
  now rewrite DecimalPos.Unsigned.of_to.
Qed.

Lemma all_digits_uint (d : Decimal.uint) :
  Json.all_digits (NilEmpty.string_of_uint d) = true.
Proof. induction d; simpl; auto. Qed.

Lemma natural_ok_to_uint (p : positive) :
  Json.natural_ok (NilEmpty.string_of_uint (Pos.to_uint p)) = true.
Proof.
  pose proof (to_uint_normal p) as Hn.
  pose proof (DecimalPos.Unsigned.to_uint_nonzero p) as Hz.
  pose proof (DecimalPos.Unsigned.to_uint_nonnil p) as Hnil.
  destruct (Pos.to_uint p) as [|d|d|d|d|d|d|d|d|d|d]; simpl;
    try apply all_digits_uint; try contradiction.
  (* a leading zero would have been removed by normalisation *)
  exfalso. rewrite DecimalFacts.unorm_D0 in Hn.
  destruct d as [|d|d|d|d|d|d|d|d|d|d]; try (apply Hz; reflexivity).
  all: match type of Hn with
       | Decimal.unorm ?u = _ =>
         assert (Hne : u <> Decimal.Nil) by discriminate;
         pose proof (DecimalFacts.nb_digits_unorm u Hne) as Hlen;
         rewrite Hn in Hlen; simpl in Hlen; lia
       end.
Qed.

Lemma integer_ok_to_string (z : Z) : Json.integer_ok (to_string z) = true.
Proof.
  unfold to_string. destruct z as [|p|p]; simpl.
  - reflexivity.
  - pose proof (natural_ok_to_uint p) as Hok.
    unfold Json.integer_ok.
    destruct (NilEmpty.string_of_uint (Pos.to_uint p)) as [|c rest] eqn:Hs;
      [discriminate|].
    destruct (Ascii.eqb c "-") eqn:Hc; [|exact Hok].
    apply Ascii.eqb_eq in Hc. subst c. discriminate.
  - apply natural_ok_to_uint.
Qed.

Lemma lex_to_string (z : Z) :
  Json.lex (to_string z ++ "}") Json.Idle =
  Some [Json.TNum (to_string z); Json.RBrace].
Proof.
  pose proof (integer_ok_to_string z) as Hok.
  unfold to_string in *. destruct (Z.to_int z) as [d|d]; simpl in *.
  - destruct d; simpl in *; try discriminate;
      rewrite lex_digits; reflexivity.
  - rewrite lex_digits. reflexivity.
Qed.

Lemma token_value_to_string (z : Z) :
  Json.token_value (Json.TNum (to_string z)) = Some (Json.Num z).
Proof.
  unfold Json.token_value. rewrite integer_ok_to_string.
  unfold to_string. rewrite NilEmpty.isi. simpl.
  now rewrite DecimalZ.of_to.
Qed.

(** C6. The diagnostic built from message type status and status ready,
    with the other arguments empty, is read by a JSON reader as the
    object with exactly the members type (the string status), status (the
    string ready) and timestamp (the number of milliseconds), so with no
    message, response or data member.  In general the envelope holds, in
    this order, type, then each of status, message, response and data
    whose argument is not empty, then timestamp, which is always there. *)
Theorem ready_message_decodes :
  (forall now_ms : Z,
      Json.decode (createStderrMessage "status" "ready" "" "" "" now_ms) =
      Some [("type", Json.Str "status");
            ("status", Json.Str "ready");
            ("timestamp", Json.Num now_ms)]) /\
  (forall (message_type status message response_text data : string) (now_ms : Z),
      createStderrMessage message_type status message response_text data now_ms =
      "{" ++ String.concat ","
               ([member "type" (quoted (escapeJsonString message_type))]
                  ++ optional (negb (empty status))
                       (member "status" (quoted (escapeJsonString status)))
                  ++ optional (negb (empty message))
                       (member "message" (quoted (escapeJsonString message)))
                  ++ optional (negb (empty response_text))
                       (member "response" (quoted (escapeJsonString response_text)))
                  ++ optional (negb (empty data)) (member "data" data)
                  ++ [member "timestamp" (to_string now_ms)])%list
          ++ "}").
Proof.
  split.
  - intros now_ms. unfold Json.decode.
    rewrite ready_message_text, lex_app, ready_prefix_tokens, lex_to_string.
    cbn [option_map]. apply parse_ready_tokens, token_value_to_string.
  - intros. apply createStderrMessage_layout.
Qed.

(** * Further properties *)

(** ** The escaping rule on whole strings *)

Lemma escape_spec_app (a b : string) :
  escape_spec (a ++ b) = escape_spec a ++ escape_spec b.
Proof.
  induction a as [|c a IH]; simpl; [reflexivity|].
  now rewrite IH, append_assoc.
Qed.

(** X1. Escaping distributes over concatenation: the escaped form of a
    text in two parts is the two escaped parts one after the other. *)
Theorem escapeJsonString_app (a b : string) :
  escapeJsonString (a ++ b) = escapeJsonString a ++ escapeJsonString b.
Proof.
  rewrite !escapeJsonString_spec_eq. apply escape_spec_app.
Qed.

Lemma all_chars_app (p : ascii -> bool) (a b : string) :
  all_chars p (a ++ b) = (all_chars p a && all_chars p b)%bool.
Proof.
  induction a as [|c a IH]; simpl; [reflexivity|].
  now rewrite IH, andb_assoc.
Qed.

Lemma escape_byte_plain (c : ascii) :
  all_chars is_plain_byte (escape_byte_spec c) = true.
Proof.
  destruct c as [[] [] [] [] [] [] [] []]; vm_compute; reflexivity.
Qed.

(** X2. The escaped form of any text holds only bytes from space (0x20)
    to DEL (0x7F): no control character, no newline and no byte above
    0x7F is ever emitted. *)
Theorem escapeJsonString_plain (input : string) :
  all_chars is_plain_byte (escapeJsonString input) = true.
Proof.
  rewrite escapeJsonString_spec_eq.
  induction input as [|c rest IH]; simpl; [reflexivity|].
  now rewrite all_chars_app, escape_byte_plain, IH.
Qed.

Lemma length_append (a b : string) :
  String.length (a ++ b) = String.length a + String.length b.
Proof.
  induction a as [|c a IH]; simpl; [reflexivity|now rewrite IH].
Qed.

Lemma escape_byte_length (c : ascii) :
  1 <= String.length (escape_byte_spec c) <= 6.
Proof.
  destruct c as [[] [] [] [] [] [] [] []];
    (split; apply Nat.leb_le; vm_compute; reflexivity).
Qed.

(** X3. Escaping never shortens a text and makes it at most six times as
    long. *)
Theorem escapeJsonString_length (input : string) :
  String.length input <= String.length (escapeJsonString input)
  /\ String.length (escapeJsonString input) <= 6 * String.length input.
Proof.
  rewrite escapeJsonString_spec_eq.
  induction input as [|c rest IH]; simpl; [lia|].
  rewrite length_append. pose proof (escape_byte_length c). lia.
Qed.

Lemma unescape_escape_byte (c : ascii) (rest : string) :
  unescape_bytes (escape_byte_spec c ++ rest) = String c (unescape_bytes rest).
Proof.
  destruct c as [[] [] [] [] [] [] [] []]; reflexivity.
Qed.

Lemma unescape_escape (input : string) :
  unescape_bytes (escape_spec input) = input.
Proof.
  induction input as [|c rest IH]; simpl; [reflexivity|].
  now rewrite unescape_escape_byte, IH.
Qed.

(** X4. Escaping loses nothing: two texts with the same escaped form are
    the same text (a reader that takes each u-escape for one byte gets
    every input back). *)
Theorem escapeJsonString_injective (a b : string) :
  escapeJsonString a = escapeJsonString b -> a = b.
Proof.
  rewrite !escapeJsonString_spec_eq. intros H.
  rewrite <- (unescape_escape a), <- (unescape_escape b). now rewrite H.
Qed.

(** ** Escaped text under a JSON reader *)

Lemma lex_run_app (a b : string) :
  forall st,
    Json.lex_run (a ++ b) st =
    match Json.lex_run a st with
    | Some (t1, st1) =>
      option_map (fun r => (t1 ++ fst r, snd r)%list) (Json.lex_run b st1)
    | None => None
    end.
Proof.
  induction a as [|c a IH]; intros st; simpl.
  - destruct (Json.lex_run b st) as [[t2 st2]|]; reflexivity.
  - destruct (Json.step c st) as [[toks st']|]; [|reflexivity].
    rewrite IH.
    destruct (Json.lex_run a st') as [[t1 st1]|]; simpl; [|reflexivity].
    destruct (Json.lex_run b st1) as [[t2 st2]|]; simpl; [|reflexivity].
    now rewrite app_assoc.
Qed.

Lemma lex_run_escape_byte (c : ascii) (acc : string) :
  Json.lex_run (escape_byte_spec c) (Json.InString acc) =
  Some ([], Json.InString (acc ++ reread_byte c)).
Proof.
  destruct c as [[] [] [] [] [] [] [] []]; reflexivity.
Qed.

Lemma lex_run_escape (s : string) :
  forall acc,
    Json.lex_run (escape_spec s) (Json.InString acc) =
    Some ([], Json.InString (acc ++ reread s)).
Proof.
  induction s as [|c s IH]; intros acc; simpl.
  - now rewrite append_nil_r.
  - rewrite lex_run_app, lex_run_escape_byte, IH. simpl.
    now rewrite append_assoc.
Qed.

Lemma lex_run_quoted_escape (s : string) :
  Json.lex_run (quoted (escapeJsonString s)) Json.Idle =
  Some ([Json.TStr (reread s)], Json.Idle).
Proof.
  rewrite escapeJsonString_spec_eq. unfold quoted.
  change (str dquote ++ escape_spec s ++ str dquote)
    with (String dquote (escape_spec s ++ str dquote)).
  cbn [Json.lex_run]. change (Json.step dquote Json.Idle) with (Some ([] : list Json.token, Json.InString "")).
  cbv iota beta. rewrite lex_run_app, lex_run_escape. reflexivity.
Qed.

Lemma lex_of_run (s : string) (st : Json.lex_state) :
  Json.lex s st =
  match Json.lex_run s st with
  | Some (toks, st') => option_map (app toks) (Json.finish st')
  | None => None
  end.
Proof.
  rewrite <- (append_nil_r s) at 1. rewrite lex_app. reflexivity.
Qed.

Lemma reread_ascii (s : string) :
  all_chars is_ascii_byte s = true -> reread s = s.
Proof.
  induction s as [|c s IH]; simpl; [reflexivity|].
  intros H. apply andb_prop in H as [Hc Hs]. rewrite (IH Hs).
  destruct c as [[] [] [] [] [] [] [] []]; try discriminate Hc; reflexivity.
Qed.

(** X5. A JSON reader takes the escaped form of any text, put between
    quotes, for one string: the text itself when all its bytes are ASCII;
    in general every byte above 0x7F comes back as two bytes (the UTF-8
    form of the code point with the byte's number), so text that is not
    ASCII does not survive the diagnostic channel. *)
Theorem escaped_text_rereads (input : string) :
  Json.lex (quoted (escapeJsonString input)) Json.Idle = Some [Json.TStr (reread input)]
  /\ (all_chars is_ascii_byte input = true -> reread input = input).
Proof.
  split; [|apply reread_ascii].
  now rewrite lex_of_run, lex_run_quoted_escape.
Qed.

Lemma lex_punct (c : ascii) (tok : Json.token) (d : string) :
  Json.idle_step c = Some ([tok], Json.Idle) ->
  Json.lex (str c ++ d) Json.Idle = option_map (cons tok) (Json.lex d Json.Idle).
Proof.
  intros H. change (str c ++ d) with (String c d). cbn [Json.lex Json.step].
  rewrite H. destruct (Json.lex d Json.Idle); reflexivity.
Qed.

Lemma lex_run_punct (c : ascii) (tok : Json.token) (d : string) :
  Json.idle_step c = Some ([tok], Json.Idle) ->
  Json.lex_run (str c ++ d) Json.Idle =
  option_map (fun r => (tok :: fst r, snd r)) (Json.lex_run d Json.Idle).
Proof.
  intros H. change (str c ++ d) with (String c d). cbn [Json.lex_run Json.step].
  rewrite H. destruct (Json.lex_run d Json.Idle) as [[t s]|]; reflexivity.
Qed.

Lemma step_plain (c : ascii) (acc : string) :
  is_json_plain_byte c = true ->
  Json.step c (Json.InString acc) = Some ([], Json.InString (acc ++ str c)).
Proof.
  unfold is_json_plain_byte. intros H.
  apply andb_prop in H as [H Hb]. apply andb_prop in H as [H Hq].
  apply andb_prop in H as [Hlow Hhigh].
  apply negb_true_iff in Hb, Hq. simpl. rewrite Hq, Hb.
  apply N.leb_le in Hlow. apply N.ltb_lt in Hhigh.
  destruct (N.ltb_spec (N_of_ascii c) 32); [lia|].
  destruct (N.leb_spec 128 (N_of_ascii c)); [lia|reflexivity].
Qed.

Lemma lex_run_plain (s : string) :
  forall acc,
    all_chars is_json_plain_byte s = true ->
    Json.lex_run s (Json.InString acc) = Some ([], Json.InString (acc ++ s)).
Proof.
  induction s as [|c s IH]; intros acc H; cbn [Json.lex_run all_chars] in *.
  - now rewrite append_nil_r.
  - apply andb_prop in H as [Hc Hs].
    rewrite (step_plain c acc Hc), (IH _ Hs). simpl.
    now rewrite append_assoc.
Qed.

Lemma lex_run_quoted_plain (s : string) :
  all_chars is_json_plain_byte s = true ->
  Json.lex_run (quoted s) Json.Idle = Some ([Json.TStr s], Json.Idle).
Proof.
  intros H. unfold quoted.
  change (str dquote ++ s ++ str dquote) with (String dquote (s ++ str dquote)).
  cbn [Json.lex_run].
  change (Json.step dquote Json.Idle) with (Some ([] : list Json.token, Json.InString "")).
  cbv iota beta. rewrite lex_run_app, (lex_run_plain s "" H). reflexivity.
Qed.

Lemma lex_run_member (key value : string) :
  all_chars is_json_plain_byte key = true ->
  Json.lex_run (member key (quoted (escapeJsonString value))) Json.Idle =
  Some ([Json.TStr key; Json.Colon; Json.TStr (reread value)], Json.Idle).
Proof.
  intros Hk. unfold member.
  rewrite lex_run_app, (lex_run_quoted_plain key Hk).
  rewrite (lex_run_punct ":" Json.Colon) by reflexivity.
  rewrite lex_run_quoted_escape. reflexivity.
Qed.

Lemma concat_cons (sep x : string) (l : list string) :
  l <> [] -> String.concat sep (x :: l) = x ++ sep ++ String.concat sep l.
Proof. destruct l; [contradiction|reflexivity]. Qed.

Lemma lex_fields (z : Z) (fields : list (string * string)) :
  Forall (fun kv => all_chars is_json_plain_byte (fst kv) = true) fields ->
  Json.lex (String.concat "," (encode_fields fields ++ [member "timestamp" (to_string z)]) ++ "}")
           Json.Idle =
  Some (member_tokens fields
          ++ [Json.TStr "timestamp"; Json.Colon; Json.TNum (to_string z); Json.RBrace])%list.
Proof.
  induction 1 as [|[key value] fields Hkey Hrest IH].
  - cbn [encode_fields map app String.concat member_tokens flat_map]. unfold member.
    rewrite !append_assoc, lex_app.
    change (Json.lex_run (quoted "timestamp") Json.Idle)
      with (Some ([Json.TStr "timestamp"], Json.Idle)).
    cbv iota beta.
    rewrite (lex_punct ":" Json.Colon) by reflexivity.
    rewrite lex_to_string. reflexivity.
  - cbn [encode_fields map app fst snd].
    rewrite concat_cons by (destruct (map _ fields); discriminate).
    rewrite !append_assoc, lex_app, (lex_run_member key value Hkey).
    rewrite (lex_punct "," Json.Comma) by reflexivity.
    fold (encode_fields fields). rewrite IH. reflexivity.
Qed.

Lemma parse_fields (fields : list (string * string)) (t : string) (x : Json.value) :
  Json.token_value (Json.TNum t) = Some x ->
  Json.parse_members
    (member_tokens fields ++ [Json.TStr "timestamp"; Json.Colon; Json.TNum t; Json.RBrace]) =
  Some (map (fun kv => (fst kv, Json.Str (reread (snd kv)))) fields ++ [("timestamp", x)])%list.
Proof.
  intros Hx. induction fields as [|[key value] fields IH].
  - cbn [member_tokens flat_map app map Json.parse_members]. now rewrite Hx.
  - change (member_tokens ((key, value) :: fields))
      with ([Json.TStr key; Json.Colon; Json.TStr (reread value); Json.Comma]
              ++ member_tokens fields)%list.
    cbn [app map fst snd Json.parse_members Json.token_value]. now rewrite IH.
Qed.

Lemma envelope_fields (message_type status message response_text : string) (now_ms : Z) :
  envelope_members message_type status message response_text "" now_ms =
  (encode_fields
     (("type", message_type)
        :: present [("status", status); ("message", message); ("response", response_text)])
     ++ [member "timestamp" (to_string now_ms)])%list.
Proof.
  unfold envelope_members, present, encode_fields, optional.
  cbn [List.filter snd fst].
  destruct (empty status), (empty message), (empty response_text); reflexivity.
Qed.

Lemma diagnostic_reading
    (message_type status message response_text : string) (now_ms : Z) :
  Json.decode (createStderrMessage message_type status message response_text "" now_ms) =
  Some ([("type", Json.Str (reread message_type))]
          ++ reread_field "status" status
          ++ reread_field "message" message
          ++ reread_field "response" response_text
          ++ [("timestamp", Json.Num now_ms)])%list.
Proof.
  rewrite createStderrMessage_layout, envelope_fields. unfold Json.decode.
  set (fields := ("type", message_type)
                   :: present [("status", status); ("message", message);
                               ("response", response_text)]).
  assert (Hkeys : Forall (fun kv => all_chars is_json_plain_byte (fst kv) = true) fields).
  { unfold fields, present. cbn [List.filter snd].
    destruct (empty status), (empty message), (empty response_text);
      repeat constructor. }
  rewrite (lex_punct "{" Json.LBrace) by reflexivity.
  rewrite (lex_fields now_ms fields Hkeys). cbn [option_map].
  assert (Hparse : forall toks,
             Json.parse_object (Json.LBrace :: member_tokens fields ++ toks)
             = Json.parse_members (member_tokens fields ++ toks)).
  { intros toks. unfold fields. reflexivity. }
  rewrite Hparse, (parse_fields fields _ _ (token_value_to_string now_ms)).
  unfold fields, present, reread_field. cbn [List.filter snd fst map app].
  destruct (empty status), (empty message), (empty response_text); reflexivity.
Qed.

(** X6. Every diagnostic built without a data argument is a JSON object:
    a reader finds type, then each of status, message and response whose
    argument is not empty, then the timestamp read from the clock; each
    string comes back as its argument when that is ASCII (as [reread]
    says otherwise). *)
Theorem diagnostic_decodes
    (message_type status message response_text : string) (now_ms : Z) :
  Json.decode (createStderrMessage message_type status message response_text "" now_ms) =
  Some ([("type", Json.Str (reread message_type))]
          ++ reread_field "status" status
          ++ reread_field "message" message
          ++ reread_field "response" response_text
          ++ [("timestamp", Json.Num now_ms)])%list.
Proof. exact (diagnostic_reading message_type status message response_text now_ms). Qed.

(** X7. The legacy envelope is a JSON object with the members id, type
    and content as given, provided the three hold only bytes from space
    (0x20) to DEL (0x7F) other than the quote and the backslash:
    [generateResponse] copies them without escaping. *)
Theorem legacy_envelope_decodes (id type content : string) :
  all_chars is_json_plain_byte id = true ->
  all_chars is_json_plain_byte type = true ->
  all_chars is_json_plain_byte content = true ->
  Json.decode (generateResponse id type content) =
  Some [("id", Json.Str id); ("type", Json.Str type); ("content", Json.Str content)].
Proof.
  intros Hid Htype Hcontent. unfold Json.decode, generateResponse.
  rewrite lex_of_run.
  rewrite (lex_run_punct "{" Json.LBrace) by reflexivity.
  rewrite lex_run_app.
  change (Json.lex_run (quoted "id") Json.Idle) with (Some ([Json.TStr "id"], Json.Idle)).
  cbv iota beta.
  rewrite (lex_run_punct ":" Json.Colon) by reflexivity.
  rewrite lex_run_app, (lex_run_quoted_plain id Hid).
  rewrite (lex_run_punct "," Json.Comma) by reflexivity.
  rewrite lex_run_app.
  change (Json.lex_run (quoted "type") Json.Idle) with (Some ([Json.TStr "type"], Json.Idle)).
  cbv iota beta.
  rewrite (lex_run_punct ":" Json.Colon) by reflexivity.
  rewrite lex_run_app, (lex_run_quoted_plain type Htype).
  rewrite (lex_run_punct "," Json.Comma) by reflexivity.
  rewrite lex_run_app.
  change (Json.lex_run (quoted "content") Json.Idle)
    with (Some ([Json.TStr "content"], Json.Idle)).
  cbv iota beta.
  rewrite (lex_run_punct ":" Json.Colon) by reflexivity.
  rewrite lex_run_app, (lex_run_quoted_plain content Hcontent).
  reflexivity.
Qed.

(** ** The generation-length override *)

Lemma drop_get (s : string) :
  forall i c, String.get i s = Some c -> drop i s = String c (drop (S i) s).
Proof.
  induction s as [|a s IH]; intros [|i] c H; simpl in *; try discriminate.
  - inversion H; subst. now destruct s.
  - rewrite (IH i c H). reflexivity.
Qed.

Lemma drop_beyond (s : string) :
  forall i, String.length s <= i -> drop i s = "".
Proof.
  induction s as [|a s IH]; intros [|i] H; simpl in *; try reflexivity; try lia.
  apply IH. lia.
Qed.

Lemma str_at_get (s : string) (i : nat) (c : ascii) :
  i < String.length s -> str_at s i = Ok c -> String.get i s = Some c.
Proof.
  unfold str_at. intros Hi H.
  destruct (String.get i s) eqn:Hg; [congruence|].
  apply get_none_ge in Hg. lia.
Qed.

Lemma isdigit_char (c : ascii) :
  isdigit (char_to_int c) =
  if outside_ctype char_is_signed c then Undefined else Ok (is_decimal_digit c).
Proof.
  unfold char_to_int, outside_ctype.
  destruct char_is_signed; destruct c as [[] [] [] [] [] [] [] []]; reflexivity.
Qed.

Lemma outside_not_digit (signed : bool) (c : ascii) :
  outside_ctype signed c = true ->
  is_decimal_digit c = false /\ is_ascii_byte c = false /\ signed = true.
Proof.
  destruct signed; [|discriminate].
  destruct c as [[] [] [] [] [] [] [] []]; try discriminate; repeat split.
Qed.

Lemma all_digits_from_drop (text : string) (i : nat) :
  all_digits_from text i =
  match first_non_digit (drop i text) with
  | Some c => if outside_ctype char_is_signed c then Undefined else Ok false
  | None => Ok true
  end.
Proof.
  funelim (all_digits_from text i);
    try (rewrite drop_beyond by lia; reflexivity);
    try (destruct (str_at_ok str0 i ltac:(lia)) as [c' Hc']; congruence).
  all: match goal with
       | Hs : str_at ?s ?k = Ok ?b, Hl : ?k < String.length ?s |- _ =>
         rewrite (drop_get s k b (str_at_get s k b Hl Hs)); cbn [first_non_digit]
       end.
  all: match goal with
       | Hd : isdigit _ = _ |- _ => rewrite isdigit_char in Hd
       end.
  all: destruct (outside_ctype char_is_signed c) eqn:Hout; try discriminate.
  - match goal with
    | Hd : Ok _ = Ok _ |- _ => inversion Hd; subst; clear Hd
    end.
    destruct (is_decimal_digit c); cbn [negb]; [assumption|now rewrite Hout].
  - destruct (outside_not_digit _ _ Hout) as [-> _]. now rewrite Hout.
Qed.

Lemma first_non_digit_none (s : string) :
  first_non_digit s = None <-> all_chars is_decimal_digit s = true.
Proof.
  induction s as [|c s IH]; cbn [first_non_digit all_chars]; [tauto|].
  destruct (is_decimal_digit c); cbn [andb]; [exact IH|].
  split; discriminate.
Qed.

Lemma first_non_digit_in (s : string) (c : ascii) :
  first_non_digit s = Some c -> is_ascii_byte c = false ->
  all_chars is_ascii_byte s = false.
Proof.
  induction s as [|a s IH]; cbn [first_non_digit all_chars]; [discriminate|].
  destruct (is_decimal_digit a).
  - intros H Hc. rewrite (IH H Hc). apply andb_false_r.
  - intros H Hc. inversion H; subst a. now rewrite Hc.
Qed.

Lemma digit_not_space (c : ascii) : is_decimal_digit c = true -> isspace c = false.
Proof.
  destruct c as [[] [] [] [] [] [] [] []]; try discriminate; reflexivity.
Qed.

Lemma strtol_digits_all (s : string) :
  forall acc,
    all_chars is_decimal_digit s = true ->
    strtol_digits s acc =
    match s with
    | EmptyString => acc
    | _ => Some (decimal_value_from s (default 0%Z acc))
    end.
Proof.
  induction s as [|c s IH]; intros acc H; simpl in *; [reflexivity|].
  apply andb_prop in H as [Hc Hs]. rewrite Hc, (IH _ Hs).
  destruct s; reflexivity.
Qed.

Lemma stoi_signed_digits (str : string) :
  str <> "" ->
  all_chars is_decimal_digit (snd (split_sign str)) = true ->
  stoi str =
  match snd (split_sign str) with
  | EmptyString => Throw std_invalid_argument
  | body =>
    let v := if fst (split_sign str) then (- decimal_value body)%Z else decimal_value body in
    if (Z.leb INT_MIN v && Z.leb v INT_MAX)%bool then Ok v else Throw std_out_of_range
  end.
Proof.
  intros Hne Hd. destruct str as [|c rest]; [contradiction|].
  unfold stoi, split_sign in *.
  assert (Hsp : skip_spaces (String c rest) = String c rest).
  { simpl. destruct (Ascii.eqb c "-") eqn:Hm.
    - apply Ascii.eqb_eq in Hm. subst c. reflexivity.
    - destruct (Ascii.eqb c "+") eqn:Hp.
      + apply Ascii.eqb_eq in Hp. subst c. reflexivity.
      + simpl in Hd. apply andb_prop in Hd as [Hc _].
        now rewrite (digit_not_space c Hc). }
  rewrite Hsp.
  destruct (Ascii.eqb c "-"); [|destruct (Ascii.eqb c "+")]; simpl in Hd |- *.
  - rewrite (strtol_digits_all rest None Hd). destruct rest; reflexivity.
  - rewrite (strtol_digits_all rest None Hd). destruct rest; reflexivity.
  - pose proof (strtol_digits_all (String c rest) None Hd) as Hs.
    simpl in Hs. rewrite Hs. reflexivity.
Qed.

(** What the override comes to once the sign is split off: [body] is
    what the digit check runs over. *)
Lemma override_after_sign (str body : string) (negative : bool) (i : nat) :
  str <> "" ->
  split_sign str = (negative, body) ->
  drop i str = body ->
  (valid ← all_digits_from str i;
   if (valid && negb (empty str))%bool then stoi str else Ok (-1)%Z) =
  match first_non_digit body with
  | Some c => if outside_ctype char_is_signed c then Undefined else Ok (-1)%Z
  | None =>
    if empty body then Throw std_invalid_argument
    else
      let v := if negative then (- decimal_value body)%Z else decimal_value body in
      if (Z.leb INT_MIN v && Z.leb v INT_MAX)%bool then Ok v
      else Throw std_out_of_range
  end.
Proof.
  intros Hne Hsplit Hdrop. rewrite all_digits_from_drop, Hdrop.
  destruct (first_non_digit body) as [c|] eqn:Hfirst.
  - now destruct (outside_ctype char_is_signed c).
  - cbn [mbind outcome_bind bind andb].
    apply empty_false in Hne. rewrite Hne. cbn [negb].
    apply empty_false in Hne. apply first_non_digit_none in Hfirst.
    pose proof (stoi_signed_digits str Hne) as Hstoi.
    rewrite Hsplit in Hstoi. cbn [fst snd] in Hstoi.
    rewrite (Hstoi Hfirst). now destruct body.
Qed.

(** X8. The generation-length override of a chat request gives: the
    default -1 when it is empty or holds a non-digit after an optional
    leading sign; the signed number when it is a sign (or none) and digits
    that fit [int]; the exception [std::out_of_range] when the digits do
    not fit [int]; and [std::invalid_argument] when it is a sign alone.
    Where plain [char] is signed there is one more case: when the first
    non-digit is a byte from 0x80 to 0xFE, [std::isdigit] is called on a
    negative value and the behaviour is undefined. *)
Theorem override_follows_rule (str : string) :
  chat_max_new_tokens (override str) = budget_rule char_is_signed str.
Proof.
  unfold chat_max_new_tokens, override, budget_rule.
  rewrite lookup_insert_eq.
  destruct str as [|c rest]; [reflexivity|].
  change (empty (String c rest)) with false. cbn [negb].
  change (str_at (String c rest) 0) with (Ok c). cbn [mbind outcome_bind bind].
  destruct (split_sign (String c rest)) as [negative body] eqn:Hsplit.
  apply (override_after_sign (String c rest) body negative); [discriminate|exact Hsplit|].
  unfold split_sign in Hsplit.
  destruct (Ascii.eqb c "-"); [|destruct (Ascii.eqb c "+")];
    rewrite ?orb_true_r; cbn [orb drop]; now inversion Hsplit.
Qed.

(** ** How the service can end *)

Lemma stoi_defined (s : string) : stoi s <> Undefined.
Proof.
  unfold stoi.
  destruct (skip_spaces s) as [|c rest].
  - simpl. discriminate.
  - destruct (Ascii.eqb c "-"); [|destruct (Ascii.eqb c "+")];
      match goal with
      | |- context [strtol_digits ?x None] => destruct (strtol_digits x None)
      end;
      try discriminate;
      match goal with
      | |- context [if ?b then _ else _] => destruct b
      end; discriminate.
Qed.

(** The override has undefined behaviour only through [std::isdigit]. *)
Lemma chat_max_new_tokens_undefined (params : gmap string string) :
  chat_max_new_tokens params = Undefined ->
  char_is_signed = true /\
  exists str,
    params !! "max_new_tokens" = Some str /\ all_chars is_ascii_byte str = false.
Proof.
  unfold chat_max_new_tokens.
  destruct (params !! "max_new_tokens") as [[|c rest]|]; try discriminate.
  change (empty (String c rest)) with false. cbn [negb].
  change (str_at (String c rest) 0) with (Ok c). cbn [mbind outcome_bind bind].
  rewrite all_digits_from_drop.
  match goal with
  | |- context [first_non_digit ?body] =>
    destruct (first_non_digit body) as [b|] eqn:Hfirst
  end.
  - destruct (outside_ctype char_is_signed b) eqn:Hout;
      cbn [mbind outcome_bind bind andb]; [|discriminate].
    intros _. destruct (outside_not_digit _ _ Hout) as (_ & Hb & Hsigned).
    split; [exact Hsigned|]. exists (String c rest). split; [reflexivity|].
    destruct (Ascii.eqb c "+" || Ascii.eqb c "-")%bool; cbn [drop] in Hfirst.
    + cbn [all_chars]. rewrite (first_non_digit_in rest b Hfirst Hb).
      apply andb_false_r.
    + exact (first_non_digit_in _ b Hfirst Hb).
  - cbn [mbind outcome_bind bind andb negb]. intros H.
    now apply stoi_defined in H.
Qed.

Lemma handleChatRequest_fails (req : Request.t) (s : Session E) (w : World) :
  (forall e, handleChatRequest req s w = Throw e ->
             chat_max_new_tokens (Request.params req) = Throw e) /\
  (handleChatRequest req s w = Undefined ->
   chat_max_new_tokens (Request.params req) = Undefined).
Proof.
  unfold handleChatRequest.
  destruct (chat_max_new_tokens (Request.params req)) as [v|e'|];
    cbn [mbind outcome_bind bind].
  - destruct (response _ _ _) as [ops e0].
    destruct (fold_left _ _ _) as [sb cap].
    split; [intros e H; discriminate H|intros H; discriminate H].
  - split; [intros e H; inversion H; reflexivity|intros H; discriminate H].
  - split; [intros e H; discriminate H|reflexivity].
Qed.

(** How [run_loop] can fail: through the override of a chat line. *)
Lemma run_loop_fails (lines : list string) :
  forall (s : Session E) (w : World) (failure : outcome Z),
    (exists e, failure = Throw e) \/ failure = Undefined ->
    match failure with
    | Throw e => run_loop lines s w = Throw e
    | _ => run_loop lines s w = Undefined
    end ->
    exists line req,
      In line lines /\ parseRequest line = Ok req /\
      Request.method req = "chat" /\
      chat_max_new_tokens (Request.params req) = failure.
Proof.
  induction lines as [|request lines IH]; intros s w failure Hfail Hrun;
    cbn [run_loop] in Hrun.
  - destruct (m_running s); destruct Hfail as [[e ->]| ->]; discriminate Hrun.
  - assert (Hlater : forall s1 w1,
               match failure with
               | Throw e => run_loop lines s1 w1 = Throw e
               | _ => run_loop lines s1 w1 = Undefined
               end ->
               exists line req,
                 In line (request :: lines) /\ parseRequest line = Ok req /\
                 Request.method req = "chat" /\
                 chat_max_new_tokens (Request.params req) = failure).
    { intros s1 w1 H. destruct (IH s1 w1 failure Hfail H) as (line & req & Hin & Hrest).
      exists line, req. split; [right; exact Hin|exact Hrest]. }
    destruct (m_running s);
      [|destruct Hfail as [[e ->]| ->]; discriminate Hrun].
    destruct (empty request); [now apply (Hlater s w)|].
    destruct (parseRequest_returns request) as [req Hreq]. rewrite Hreq in Hrun.
    cbn [mbind outcome_bind bind] in Hrun.
    destruct (String.eqb (Request.method req) "chat") eqn:Hchat.
    { apply String.eqb_eq in Hchat.
      destruct (handleChatRequest_fails req s w) as [Hthrow Hundef].
      destruct (handleChatRequest req s w) as [[s1 w1]|e'|];
        cbn [mbind outcome_bind bind] in Hrun; [now apply (Hlater s1 w1)| |];
        exists request, req; (split; [left; reflexivity|]);
        (split; [exact Hreq|]); (split; [exact Hchat|]);
        destruct Hfail as [[e ->]| ->]; try discriminate Hrun.
      - inversion Hrun; subst e'. now apply Hthrow.
      - now apply Hundef. }
    destruct (String.eqb (Request.method req) "status").
    { destruct (handleStatusRequest req s w) as [s1 w1]. now apply (Hlater s1 w1). }
    destruct (String.eqb (Request.method req) "system_prompt").
    { destruct (handleSystemPromptRequest req s w) as [s1 w1]. now apply (Hlater s1 w1). }
    destruct (String.eqb (Request.method req) "reset").
    { destruct (handleResetRequest req s w) as [s1 w1]. now apply (Hlater s1 w1). }
    destruct (String.eqb (Request.method req) "exit").
    { destruct Hfail as [[e ->]| ->]; discriminate Hrun. }
    eapply Hlater. exact Hrun.
Qed.

(** X9. The service loop ends with an exception only when one of the
    lines is a chat request whose generation-length override makes
    [std::stoi] throw (a sign alone, or digits that do not fit [int]):
    that exception is the one that ends the loop.  It has undefined
    behaviour only where plain [char] is signed, and only when one of the
    lines is a chat request whose override holds a byte above 0x7F, which
    reaches [std::isdigit] as a negative value; the decoder and the other
    handlers have none. *)
Theorem run_fails_only_on_override (lines : list string) (s : Session E) (w : World) :
  (forall e, run lines s w = Throw e ->
     exists line req,
       In line lines /\ parseRequest line = Ok req /\
       Request.method req = "chat" /\
       chat_max_new_tokens (Request.params req) = Throw e) /\
  (run lines s w = Undefined ->
   char_is_signed = true /\
   exists line req str,
     In line lines /\ parseRequest line = Ok req /\
     Request.method req = "chat" /\
     Request.params req !! "max_new_tokens" = Some str /\
     all_chars is_ascii_byte str = false).
Proof.
  unfold run. split.
  - intros e H.
    exact (run_loop_fails lines _ w (Throw e) (or_introl (ex_intro _ e eq_refl)) H).
  - intros H.
    destruct (run_loop_fails lines _ w Undefined (or_intror eq_refl) H)
      as (line & req & Hin & Hreq & Hm & Hundef).
    destruct (chat_max_new_tokens_undefined _ Hundef) as (Hsigned & str & Hstr & Hbyte).
    split; [exact Hsigned|]. exists line, req, str. now repeat split.
Qed.

(** ** Diagnostics are single lines *)

Lemma all_chars_weaken (p q : ascii -> bool) (s : string) :
  (forall c, p c = true -> q c = true) ->
  all_chars p s = true -> all_chars q s = true.
Proof.
  intros Hpq. induction s as [|c s IH]; simpl; [reflexivity|].
  intros H. apply andb_prop in H as [Hc Hs]. now rewrite (Hpq c Hc), (IH Hs).
Qed.

Lemma plain_not_newline (c : ascii) : is_plain_byte c = true -> not_newline c = true.
Proof.
  destruct c as [[] [] [] [] [] [] [] []]; try discriminate; reflexivity.
Qed.

Lemma escape_not_newline (s : string) :
  all_chars not_newline (escapeJsonString s) = true.
Proof.
  rewrite escapeJsonString_spec_eq.
  induction s as [|c s IH]; simpl; [reflexivity|].
  rewrite all_chars_app, IH, andb_true_r.
  apply (all_chars_weaken is_plain_byte); [apply plain_not_newline|].
  apply escape_byte_plain.
Qed.

Lemma uint_not_newline (d : Decimal.uint) :
  all_chars not_newline (NilEmpty.string_of_uint d) = true.
Proof. induction d; simpl; auto. Qed.

Lemma to_string_not_newline (z : Z) : all_chars not_newline (to_string z) = true.
Proof.
  unfold to_string. destruct (Z.to_int z); simpl; apply uint_not_newline.
Qed.

Lemma diagnostic_no_newline
    (message_type status message response_text data : string) (now_ms : Z) :
  all_chars not_newline data = true ->
  all_chars not_newline
    (createStderrMessage message_type status message response_text data now_ms) = true.
Proof.
  intros Hdata. unfold createStderrMessage, quoted.
  destruct (empty status), (empty message), (empty response_text), (empty data);
    cbn [negb]; rewrite !all_chars_app;
    rewrite ?escape_not_newline, ?to_string_not_newline, ?Hdata; reflexivity.
Qed.

(** X10. A diagnostic has no newline in it unless the data argument
    brings one: every newline in the other arguments is escaped, so each
    diagnostic stays on one line of the channel. *)
Theorem diagnostic_is_one_line
    (message_type status message response_text data : string) (now_ms : Z) :
  all_chars not_newline data = true ->
  all_chars not_newline
    (createStderrMessage message_type status message response_text data now_ms) = true.
Proof.
  exact (diagnostic_no_newline message_type status message response_text data now_ms).
Qed.

Lemma diagnostic_in_order
    (message_type status message response_text : string) (now_ms : Z) :
  diagnostic_ok
    (Insert (createStderrMessage message_type status message response_text "" now_ms)).
Proof.
  split.
  - rewrite diagnostic_reading. discriminate.
  - apply diagnostic_no_newline. reflexivity.
Qed.

(** ** What each handler does, in one equation *)

Lemma handleStatusRequest_effect (req : Request.t) (s : Session E) (w : World) :
  handleStatusRequest req s w =
  (s,
   mkWorld (cout w)
     (cerr w ++
      [Insert (createStderrMessage "status" "info"
                 ("status:" ++ (if m_processing s then "processing" else "idle")
                    ++ ",prompt_len:" ++ to_string (prompt_len (getContext (m_llm s)))
                    ++ ",gen_seq_len:" ++ to_string (gen_seq_len (getContext (m_llm s)))
                    ++ ",chat_history_count:"
                    ++ to_string (Z.of_nat (length (m_chat_history s))))
                 "" "" (system_clock (clock_reads w)));
       Endl; Flush])
     (S (clock_reads w))
     (llm_calls w ++ [CallGetContext])).
Proof.
  unfold handleStatusRequest, cerr_message, to_cerr, tick, called. simpl.
  now rewrite <- app_assoc.
Qed.

Lemma handleResetRequest_effect (req : Request.t) (s : Session E) (w : World) :
  handleResetRequest req s w =
  (mkSession (reset (m_llm s)) (m_running s) (m_processing s) (m_system_prompt s) [],
   mkWorld (cout w)
     (cerr w ++
      [Insert (createStderrMessage "message" "success" MSG_RESET "" ""
                 (system_clock (clock_reads w)));
       Endl; Flush])
     (S (clock_reads w))
     (llm_calls w ++ [CallReset])).
Proof.
  unfold handleResetRequest, cerr_message, to_cerr, tick, called. simpl.
  now rewrite <- app_assoc.
Qed.

Lemma handleSystemPromptRequest_effect (req : Request.t) (s : Session E) (w : World) :
  handleSystemPromptRequest req s w =
  (if empty (Request.content req) then s
   else mkSession (m_llm s) (m_running s) (m_processing s) (Request.content req)
          (m_chat_history s),
   mkWorld (cout w)
     (cerr w ++
      [Insert (if empty (Request.content req)
               then createStderrMessage "error" "error" MSG_PROMPT_EMPTY "" ""
                      (system_clock (clock_reads w))
               else createStderrMessage "message" "success" MSG_PROMPT_SET "" ""
                      (system_clock (clock_reads w)));
       Endl; Flush])
     (S (clock_reads w))
     (llm_calls w)).
Proof.
  unfold handleSystemPromptRequest, cerr_message, to_cerr, tick, set_system_prompt.
  destruct (empty (Request.content req)); simpl; now rewrite <- app_assoc.
Qed.

Lemma unknown_effect (method : string) (w : World) :
  to_cerr [Flush] (cerr_message "error" "error" (MSG_UNKNOWN ++ method) "" "" w) =
  mkWorld (cout w)
    (cerr w ++
     [Insert (createStderrMessage "error" "error" (MSG_UNKNOWN ++ method) "" ""
                (system_clock (clock_reads w)));
      Endl; Flush])
    (S (clock_reads w))
    (llm_calls w).
Proof.
  unfold cerr_message, to_cerr, tick. simpl. now rewrite <- app_assoc.
Qed.

(** A property that every handler keeps is kept by the loop. *)
Lemma run_loop_preserves (P : Session E -> World -> Prop) (lines : list string) :
  (forall line req s w s' w',
      In line lines -> parseRequest line = Ok req -> Request.method req = "chat" ->
      P s w -> handleChatRequest req s w = Ok (s', w') -> P s' w') ->
  (forall line req s w,
      In line lines -> parseRequest line = Ok req -> Request.method req = "status" ->
      P s w -> P (fst (handleStatusRequest req s w)) (snd (handleStatusRequest req s w))) ->
  (forall line req s w,
      In line lines -> parseRequest line = Ok req ->
      Request.method req = "system_prompt" ->
      P s w ->
      P (fst (handleSystemPromptRequest req s w))
        (snd (handleSystemPromptRequest req s w))) ->
  (forall line req s w,
      In line lines -> parseRequest line = Ok req -> Request.method req = "reset" ->
      P s w -> P (fst (handleResetRequest req s w)) (snd (handleResetRequest req s w))) ->
  (forall line req s w,
      In line lines -> parseRequest line = Ok req ->
      P s w ->
      P s (to_cerr [Flush]
             (cerr_message "error" "error" (MSG_UNKNOWN ++ Request.method req) "" "" w))) ->
  forall s w s' w',
    P s w -> run_loop lines s w = Ok (s', w') -> P s' w'.
Proof.
  induction lines as [|request lines IH];
    intros Hchat Hstatus Hprompt Hreset Hunknown s w s' w' HP H; cbn [run_loop] in H.
  - destruct (m_running s); inversion H; subst; exact HP.
  - assert (Hlater : forall s1 w1, P s1 w1 -> run_loop lines s1 w1 = Ok (s', w') -> P s' w').
    { intros s1 w1. apply IH.
      - intros line req s0 w0 s0' w0' Hin.
        exact (Hchat line req s0 w0 s0' w0' (or_intror Hin)).
      - intros line req s0 w0 Hin. exact (Hstatus line req s0 w0 (or_intror Hin)).
      - intros line req s0 w0 Hin. exact (Hprompt line req s0 w0 (or_intror Hin)).
      - intros line req s0 w0 Hin. exact (Hreset line req s0 w0 (or_intror Hin)).
      - intros line req s0 w0 Hin. exact (Hunknown line req s0 w0 (or_intror Hin)). }
    destruct (m_running s); [|inversion H; subst; exact HP].
    destruct (empty request); [eapply Hlater; eauto|].
    destruct (parseRequest request) as [req| |] eqn:Hreq;
      cbn [mbind outcome_bind bind] in H; try discriminate.
    destruct (String.eqb (Request.method req) "chat") eqn:Hm1.
    { apply String.eqb_eq in Hm1.
      destruct (handleChatRequest req s w) as [[s1 w1]| |] eqn:Hc;
        cbn [mbind outcome_bind bind] in H; try discriminate.
      eapply Hlater; [|exact H]. eapply Hchat; eauto. left; reflexivity. }
    destruct (String.eqb (Request.method req) "status") eqn:Hm2.
    { apply String.eqb_eq in Hm2.
      specialize (Hstatus request req s w (or_introl eq_refl) Hreq Hm2 HP).
      destruct (handleStatusRequest req s w) as [s1 w1]. cbn [fst snd] in Hstatus.
      exact (Hlater s1 w1 Hstatus H). }
    destruct (String.eqb (Request.method req) "system_prompt") eqn:Hm3.
    { apply String.eqb_eq in Hm3.
      specialize (Hprompt request req s w (or_introl eq_refl) Hreq Hm3 HP).
      destruct (handleSystemPromptRequest req s w) as [s1 w1]. cbn [fst snd] in Hprompt.
      exact (Hlater s1 w1 Hprompt H). }
    destruct (String.eqb (Request.method req) "reset") eqn:Hm4.
    { apply String.eqb_eq in Hm4.
      specialize (Hreset request req s w (or_introl eq_refl) Hreq Hm4 HP).
      destruct (handleResetRequest req s w) as [s1 w1]. cbn [fst snd] in Hreset.
      exact (Hlater s1 w1 Hreset H). }
    destruct (String.eqb (Request.method req) "exit").
    { inversion H; subst. exact HP. }
    eapply Hlater; [|exact H]. eapply Hunknown; eauto. left; reflexivity.
Qed.

(** ** The loop over the lines *)

Lemma run_loop_stopped (lines : list string) (s : Session E) (w : World) :
  m_running s = false -> run_loop lines s w = Ok (s, w).
Proof. intros H. destruct lines; cbn [run_loop]; now rewrite H. Qed.

Lemma exit_line_method (line : string) :
  is_exit_line line = true ->
  empty line = false /\
  exists req, parseRequest line = Ok req /\ Request.method req = "exit".
Proof.
  unfold is_exit_line, method_of. intros H. apply andb_prop in H as [He Hm].
  apply negb_true_iff in He. split; [exact He|].
  destruct (parseRequest line) as [req| |]; try discriminate Hm.
  exists req. split; [reflexivity|]. now apply String.eqb_eq.
Qed.

(** X11. Nothing that follows an exit line on standard input has any
    effect: the loop ends as it would have ended had the input stopped just
    before that line. *)
Theorem lines_after_exit_are_ignored
    (before after : list string) (line : string) (s : Session E) (w : World) :
  is_exit_line line = true ->
  run_loop (before ++ line :: after) s w = run_loop before s w.
Proof.
  intros Hexit. destruct (exit_line_method line Hexit) as [He (req & Hreq & Hm)].
  revert s w. induction before as [|request before IH]; intros s w;
    cbn [app run_loop].
  - rewrite He, Hreq. cbn [mbind outcome_bind bind]. rewrite Hm.
    destruct (m_running s); reflexivity.
  - destruct (m_running s); [|reflexivity].
    destruct (empty request); [apply IH|].
    destruct (parseRequest request) as [r| |]; cbn [mbind outcome_bind bind];
      try reflexivity.
    destruct (String.eqb (Request.method r) "chat").
    { destruct (handleChatRequest r s w) as [[s1 w1]| |];
        cbn [mbind outcome_bind bind]; try reflexivity. apply IH. }
    destruct (String.eqb (Request.method r) "status").
    { destruct (handleStatusRequest r s w) as [s1 w1]. apply IH. }
    destruct (String.eqb (Request.method r) "system_prompt").
    { destruct (handleSystemPromptRequest r s w) as [s1 w1]. apply IH. }
    destruct (String.eqb (Request.method r) "reset").
    { destruct (handleResetRequest r s w) as [s1 w1]. apply IH. }
    destruct (String.eqb (Request.method r) "exit"); [reflexivity|].
    apply IH.
Qed.

(** X12. As long as no exit line is among them, serving a first batch of
    lines and then a second one is the same as serving them in one go: the
    loop carries nothing from line to line but the session and the two
    channels. *)
Theorem run_loop_app (l1 l2 : list string) (s : Session E) (w : World) :
  forallb (fun line => negb (is_exit_line line)) l1 = true ->
  run_loop (l1 ++ l2) s w =
  run_loop l1 s w ≫= (fun '(s1, w1) => run_loop l2 s1 w1).
Proof.
  revert s w. induction l1 as [|request l1 IH]; intros s w Hno;
    cbn [app run_loop].
  - destruct (m_running s); reflexivity.
  - cbn [forallb] in Hno. apply andb_prop in Hno as [Hreq Hno].
    destruct (m_running s) eqn:Hrun;
      [|cbn [mbind outcome_bind bind]; now rewrite run_loop_stopped].
    unfold is_exit_line, method_of in Hreq.
    destruct (empty request); [now apply IH|]. cbn [negb andb] in Hreq.
    destruct (parseRequest request) as [r| |]; cbn [mbind outcome_bind bind];
      try reflexivity.
    destruct (String.eqb (Request.method r) "chat").
    { destruct (handleChatRequest r s w) as [[s1 w1]| |];
        cbn [mbind outcome_bind bind]; try reflexivity. now apply IH. }
    destruct (String.eqb (Request.method r) "status").
    { destruct (handleStatusRequest r s w) as [s1 w1]. now apply IH. }
    destruct (String.eqb (Request.method r) "system_prompt").
    { destruct (handleSystemPromptRequest r s w) as [s1 w1]. now apply IH. }
    destruct (String.eqb (Request.method r) "reset").
    { destruct (handleResetRequest r s w) as [s1 w1]. now apply IH. }
    destruct (String.eqb (Request.method r) "exit"); [discriminate Hreq|].
    now apply IH.
Qed.

(** X13. Empty lines are skipped without a trace: removing them from the
    input changes nothing. *)
Theorem empty_lines_are_skipped (lines : list string) (s : Session E) (w : World) :
  run_loop (List.filter (fun line => negb (empty line)) lines) s w =
  run_loop lines s w.
Proof.
  revert s w. induction lines as [|request lines IH]; intros s w;
    cbn [List.filter]; [reflexivity|].
  destruct (empty request) eqn:He; cbn [negb].
  - rewrite IH. cbn [run_loop]. rewrite He.
    destruct (m_running s) eqn:Hrun; [reflexivity|now apply run_loop_stopped].
  - cbn [run_loop]. rewrite He.
    destruct (m_running s); [|reflexivity].
    destruct (parseRequest request) as [r| |]; cbn [mbind outcome_bind bind];
      try reflexivity.
    destruct (String.eqb (Request.method r) "chat").
    { destruct (handleChatRequest r s w) as [[s1 w1]| |];
        cbn [mbind outcome_bind bind]; try reflexivity. apply IH. }
    destruct (String.eqb (Request.method r) "status").
    { destruct (handleStatusRequest r s w) as [s1 w1]. apply IH. }
    destruct (String.eqb (Request.method r) "system_prompt").
    { destruct (handleSystemPromptRequest r s w) as [s1 w1]. apply IH. }
    destruct (String.eqb (Request.method r) "reset").
    { destruct (handleResetRequest r s w) as [s1 w1]. apply IH. }
    destruct (String.eqb (Request.method r) "exit"); [reflexivity|].
    apply IH.
Qed.

(** ** What a run keeps *)

Lemma paired_roles_app (l2 : list string) (l1 : list string) :
  (paired_roles l1 = true -> paired_roles (l1 ++ l2) = paired_roles l2) /\
  (forall r, paired_roles (r :: l1) = true ->
             paired_roles ((r :: l1) ++ l2) = paired_roles l2).
Proof.
  induction l1 as [|a l1 [IH1 IH2]].
  - split; [intros _; reflexivity|intros r H; discriminate H].
  - split; [apply IH2|]. intros r H.
    cbn [paired_roles] in H. apply andb_prop in H as [H H3].
    cbn [app paired_roles] in *. now rewrite H, (IH1 H3).
Qed.

Lemma paired_roles_grow (roles : list string) :
  paired_roles roles = true ->
  paired_roles (roles ++ ["user"; "assistant"]) = true.
Proof.
  intros H. destruct (paired_roles_app ["user"; "assistant"] roles) as [Happ _].
  now rewrite (Happ H).
Qed.

Lemma chat_messages_shape (req : Request.t) (s : Session E) :
  chat_messages req s =
  (system_part (m_system_prompt s) ++ m_chat_history s
     ++ [("user", Request.content req)])%list.
Proof.
  unfold chat_messages, system_part.
  destruct (empty (m_system_prompt s)); cbn [negb app]; reflexivity.
Qed.

Lemma replays_app (prompt_ok content_ok : string -> Prop)
    (e e1 e2 : E) (h h1 h2 : ChatMessages) (calls1 calls2 : list llm_call) :
  replays prompt_ok content_ok e h calls1 e1 h1 ->
  replays prompt_ok content_ok e1 h1 calls2 e2 h2 ->
  replays prompt_ok content_ok e h (calls1 ++ calls2) e2 h2.
Proof.
  intros H1 H2. induction H1; cbn [app].
  - exact H2.
  - eapply replays_response; eauto.
  - apply replays_reset. auto.
  - apply replays_context. auto.
Qed.

(** X14. The calls a run makes to the engine are the session replayed:
    every prompt passed to [response] is the system message, when there is
    a system prompt (the one the session started with, or the content of a
    system_prompt line), then the whole history as it stands at that
    moment, then the content of a chat line as the new user message; after
    the call the history is that history, the user message and the answer
    the engine wrote; a reset call empties it; and the history and the
    engine state at the end of the run are those the replay ends in.  A
    history made of user and assistant turns stays made of such turns. *)
Theorem prompts_are_well_formed
    (lines : list string) (s s' : Session E) (w w' : World) :
  run lines s w = Ok (s', w') ->
  (exists new_calls,
     llm_calls w' = (llm_calls w ++ new_calls)%list /\
     replays (prompt_from lines (m_system_prompt s)) (content_from lines)
       (m_llm s) (m_chat_history s) new_calls (m_llm s') (m_chat_history s')) /\
  (paired_roles (map fst (m_chat_history s)) = true ->
   paired_roles (map fst (m_chat_history s')) = true).
Proof.
  intros Hrun. unfold run in Hrun. split.
  - assert (Hinv :
              prompt_from lines (m_system_prompt s) (m_system_prompt s') /\
              exists new_calls,
                llm_calls w' = (llm_calls w ++ new_calls)%list /\
                replays (prompt_from lines (m_system_prompt s)) (content_from lines)
                  (m_llm s) (m_chat_history s) new_calls (m_llm s') (m_chat_history s'));
      [|exact (proj2 Hinv)].
    refine (run_loop_preserves
              (fun s1 w1 =>
                 prompt_from lines (m_system_prompt s) (m_system_prompt s1) /\
                 exists calls,
                   llm_calls w1 = (llm_calls w ++ calls)%list /\
                   replays (prompt_from lines (m_system_prompt s)) (content_from lines)
                     (m_llm s) (m_chat_history s) calls (m_llm s1) (m_chat_history s1))
              lines _ _ _ _ _ _ _ _ _ _ Hrun).
    + intros line req s0 w0 s1 w1 Hin Hreq Hm (Hprompt & calls & Hcalls & Hreplay) H.
      apply handleChatRequest_completed in H
        as (budget & ops & e & _ & Hr & -> & ->).
      cbn [m_system_prompt m_llm m_chat_history llm_calls].
      split; [exact Hprompt|].
      exists (calls ++ [CallResponse (chat_messages req s0) budget])%list.
      split; [now rewrite Hcalls, <- app_assoc|].
      apply (replays_app _ _ _ _ _ _ _ _ _ _ Hreplay).
      rewrite chat_messages_shape in Hr |- *.
      eapply replays_response; [exact Hprompt| |exact Hr|apply replays_done].
      exists line, req. now repeat split.
    + intros line req s0 w0 _ _ _ (Hprompt & calls & Hcalls & Hreplay).
      rewrite handleStatusRequest_effect. cbn [fst snd llm_calls].
      split; [exact Hprompt|].
      exists (calls ++ [CallGetContext])%list.
      split; [now rewrite Hcalls, <- app_assoc|].
      apply (replays_app _ _ _ _ _ _ _ _ _ _ Hreplay).
      apply replays_context, replays_done.
    + intros line req s0 w0 Hin Hreq Hm (Hprompt & calls & Hcalls & Hreplay).
      rewrite handleSystemPromptRequest_effect. cbn [fst snd llm_calls].
      destruct (empty (Request.content req)).
      * split; [exact Hprompt|]. exists calls. now split.
      * cbn [m_system_prompt m_llm m_chat_history].
        split; [right; exists line, req; now repeat split|].
        exists calls. now split.
    + intros line req s0 w0 _ _ _ (Hprompt & calls & Hcalls & Hreplay).
      rewrite handleResetRequest_effect.
      cbn [fst snd llm_calls m_system_prompt m_llm m_chat_history].
      split; [exact Hprompt|].
      exists (calls ++ [CallReset])%list.
      split; [now rewrite Hcalls, <- app_assoc|].
      apply (replays_app _ _ _ _ _ _ _ _ _ _ Hreplay).
      apply replays_reset, replays_done.
    + intros line req s0 w0 _ _ (Hprompt & calls & Hcalls & Hreplay).
      rewrite unknown_effect. cbn [llm_calls].
      split; [exact Hprompt|]. exists calls. now split.
    + cbn [set_running m_system_prompt m_llm m_chat_history].
      split; [left; reflexivity|].
      exists []. split; [now rewrite app_nil_r|apply replays_done].
  - intros Hs.
    refine (run_loop_preserves
              (fun s1 _ => paired_roles (map fst (m_chat_history s1)) = true)
              lines _ _ _ _ _ _ _ _ _ _ Hrun).
    + intros line req s0 w0 s1 w1 _ _ _ Hp H.
      apply handleChatRequest_completed in H
        as (budget & ops & e & _ & _ & -> & _).
      cbn [m_chat_history]. rewrite List.map_app. now apply paired_roles_grow.
    + intros line req s0 w0 _ _ _ Hp. now rewrite handleStatusRequest_effect.
    + intros line req s0 w0 _ _ _ Hp. rewrite handleSystemPromptRequest_effect.
      cbn [fst]. now destruct (empty (Request.content req)).
    + intros line req s0 w0 _ _ _ Hp. now rewrite handleResetRequest_effect.
    + intros line req s0 w0 _ _ Hp. exact Hp.
    + exact Hs.
Qed.

(** X15. The processing flag is down whenever the loop is between two
    requests, so a status request served after any completed run reports
    idle, never processing. *)
Theorem status_reports_idle
    (lines : list string) (req : Request.t) (s s' : Session E) (w w' : World) :
  m_processing s = false ->
  run lines s w = Ok (s', w') ->
  m_processing s' = false /\
  exists counters,
    handleStatusRequest req s' w' =
    (s',
     mkWorld (cout w')
       (cerr w' ++
        [Insert (createStderrMessage "status" "info" ("status:idle" ++ counters)
                   "" "" (system_clock (clock_reads w')));
         Endl; Flush])
       (S (clock_reads w'))
       (llm_calls w' ++ [CallGetContext])).
Proof.
  intros Hs Hrun. unfold run in Hrun.
  assert (Hidle : m_processing s' = false).
  { refine (run_loop_preserves (fun s1 _ => m_processing s1 = false)
              lines _ _ _ _ _ _ _ _ _ _ Hrun).
    - intros line r s0 w0 s1 w1 _ _ _ _ H.
      apply handleChatRequest_completed in H
        as (budget & ops & e & _ & _ & -> & _). reflexivity.
    - intros line r s0 w0 _ _ _ H. now rewrite handleStatusRequest_effect.
    - intros line r s0 w0 _ _ _ H. rewrite handleSystemPromptRequest_effect.
      cbn [fst]. now destruct (empty (Request.content r)).
    - intros line r s0 w0 _ _ _ H. now rewrite handleResetRequest_effect.
    - intros line r s0 w0 _ _ H. exact H.
    - exact Hs. }
  split; [exact Hidle|].
  rewrite handleStatusRequest_effect, Hidle. eexists. reflexivity.
Qed.

(** X16. The system prompt of a session is the one it started with or
    the content of a system_prompt line of the input, and that content is
    not empty: once a session has a system prompt no request takes it
    away. *)
Theorem system_prompt_origin
    (lines : list string) (s s' : Session E) (w w' : World) :
  run lines s w = Ok (s', w') ->
  (m_system_prompt s' = m_system_prompt s \/
   exists line req,
     In line lines /\ parseRequest line = Ok req /\
     Request.method req = "system_prompt" /\
     Request.content req = m_system_prompt s' /\
     Request.content req <> "") /\
  (m_system_prompt s <> "" -> m_system_prompt s' <> "").
Proof.
  intros Hrun. unfold run in Hrun.
  assert (Horigin :
            m_system_prompt s' = m_system_prompt s \/
            exists line req,
              In line lines /\ parseRequest line = Ok req /\
              Request.method req = "system_prompt" /\
              Request.content req = m_system_prompt s' /\
              Request.content req <> "").
  { refine (run_loop_preserves
              (fun s1 _ =>
                 m_system_prompt s1 = m_system_prompt s \/
                 exists line req,
                   In line lines /\ parseRequest line = Ok req /\
                   Request.method req = "system_prompt" /\
                   Request.content req = m_system_prompt s1 /\
                   Request.content req <> "")
              lines _ _ _ _ _ _ _ _ _ _ Hrun).
    - intros line r s0 w0 s1 w1 _ _ _ HP H.
      apply handleChatRequest_completed in H
        as (budget & ops & e & _ & _ & -> & _). exact HP.
    - intros line r s0 w0 _ _ _ HP. now rewrite handleStatusRequest_effect.
    - intros line r s0 w0 Hin Hreq Hm HP. rewrite handleSystemPromptRequest_effect.
      cbn [fst]. destruct (empty (Request.content r)) eqn:He; [exact HP|].
      right. exists line, r. apply empty_false in He. now repeat split.
    - intros line r s0 w0 _ _ _ HP. now rewrite handleResetRequest_effect.
    - intros line r s0 w0 _ _ HP. exact HP.
    - left. reflexivity. }
  split; [exact Horigin|]. intros Hset.
  destruct Horigin as [->|(line & req & _ & _ & _ & <- & Hne)]; assumption.
Qed.

(** ** What a run puts on the two channels *)

Lemma bytes_content_ops (ops : list sink_op) :
  bytes_of (content_ops ops) = written ops.
Proof.
  induction ops as [|[s|c|] ops IH]; cbn [content_ops written]; try assumption;
    [reflexivity| |].
  - destruct (empty s) eqn:He.
    + apply empty_true in He. subst s. exact IH.
    + cbn [bytes_of op_bytes]. now rewrite IH.
  - cbn [bytes_of op_bytes]. now rewrite IH.
Qed.

Lemma bytes_stream_ops (ops : list sink_op) :
  bytes_of (stream_ops ops) = frame (written ops).
Proof.
  unfold stream_ops, frame. destruct (empty (written ops)); [reflexivity|].
  rewrite !bytes_of_app, bytes_content_ops. cbn [bytes_of op_bytes].
  now rewrite !append_nil_r, !append_assoc.
Qed.

Lemma join_all_app (l1 l2 : list string) :
  join_all (l1 ++ l2) = join_all l1 ++ join_all l2.
Proof.
  induction l1 as [|p l1 IH]; cbn [app join_all]; [reflexivity|].
  now rewrite IH, append_assoc.
Qed.

Lemma count_responses_app (l1 l2 : list llm_call) :
  count_responses (l1 ++ l2) = count_responses l1 + count_responses l2.
Proof.
  unfold count_responses. now rewrite List.filter_app, List.length_app.
Qed.

Lemma answers_of_app (calls1 calls2 : list llm_call) :
  forall e,
    answers_of e (calls1 ++ calls2) =
    ((fst (answers_of e calls1)
        ++ fst (answers_of (snd (answers_of e calls1)) calls2))%list,
     snd (answers_of (snd (answers_of e calls1)) calls2)).
Proof.
  induction calls1 as [|call calls1 IH]; intros e; cbn [app answers_of fst snd].
  - now destruct (answers_of e calls2).
  - destruct call as [messages budget| |]; [|apply IH|apply IH].
    destruct (response e messages budget) as [ops e1]. rewrite IH.
    destruct (answers_of e1 calls1) as [answers e2]. reflexivity.
Qed.

(** X17. Standard output carries the answers and nothing else.  The bytes
    a run adds to it are one frame for each [response] call of the run, in
    the order of the calls; the frame of a call holds the bytes the engine
    writes for the prompt of that call, between the start marker with its
    newline and the end marker with its newline, and is empty when the
    engine writes nothing.  Status, system_prompt, reset and unknown
    requests add nothing. *)
Theorem stdout_is_a_sequence_of_frames
    (lines : list string) (s s' : Session E) (w w' : World) :
  run lines s w = Ok (s', w') ->
  exists new_calls,
    llm_calls w' = (llm_calls w ++ new_calls)%list /\
    bytes_of (cout w') =
    bytes_of (cout w) ++ join_all (map frame (fst (answers_of (m_llm s) new_calls))) /\
    m_llm s' = snd (answers_of (m_llm s) new_calls).
Proof.
  intros Hrun. unfold run in Hrun.
  refine (run_loop_preserves
            (fun s1 w1 =>
               exists calls,
                 llm_calls w1 = (llm_calls w ++ calls)%list /\
                 bytes_of (cout w1) =
                 bytes_of (cout w) ++ join_all (map frame (fst (answers_of (m_llm s) calls))) /\
                 m_llm s1 = snd (answers_of (m_llm s) calls))
            lines _ _ _ _ _ _ _ _ _ _ Hrun).
  - intros line req s0 w0 s1 w1 _ _ _ (calls & Hcalls & Hout & Hllm) H.
    apply handleChatRequest_completed in H
      as (budget & ops & e & _ & Hr & -> & ->).
    exists (calls ++ [CallResponse (chat_messages req s0) budget])%list.
    cbn [cout llm_calls m_llm].
    rewrite answers_of_app, <- Hllm. cbn [answers_of fst snd]. rewrite Hr.
    cbn [fst snd]. split; [now rewrite Hcalls, <- app_assoc|]. split; [|reflexivity].
    rewrite bytes_of_app, Hout, bytes_stream_ops, List.map_app, join_all_app.
    cbn [map join_all]. now rewrite append_nil_r, append_assoc.
  - intros line req s0 w0 _ _ _ (calls & Hcalls & Hout & Hllm).
    rewrite handleStatusRequest_effect. cbn [fst snd cout llm_calls].
    exists (calls ++ [CallGetContext])%list.
    rewrite answers_of_app. cbn [answers_of fst snd]. rewrite app_nil_r.
    split; [now rewrite Hcalls, <- app_assoc|]. now split.
  - intros line req s0 w0 _ _ _ (calls & Hcalls & Hout & Hllm).
    rewrite handleSystemPromptRequest_effect. cbn [fst snd cout llm_calls].
    exists calls. split; [exact Hcalls|]. split; [exact Hout|].
    now destruct (empty (Request.content req)).
  - intros line req s0 w0 _ _ _ (calls & Hcalls & Hout & Hllm).
    rewrite handleResetRequest_effect. cbn [fst snd cout llm_calls m_llm].
    exists (calls ++ [CallReset])%list.
    rewrite answers_of_app, <- Hllm. cbn [answers_of fst snd]. rewrite app_nil_r.
    split; [now rewrite Hcalls, <- app_assoc|]. now split.
  - intros line req s0 w0 _ _ (calls & Hcalls & Hout & Hllm).
    rewrite unknown_effect. cbn [cout llm_calls]. exists calls. now repeat split.
  - exists []. cbn [answers_of map join_all fst snd set_running m_llm].
    now rewrite app_nil_r, append_nil_r.
Qed.

(** X18. Everything a run inserts into the diagnostic channel is a JSON
    object on a line of its own: each inserted text decodes and holds no
    newline. *)
Theorem diagnostics_are_json_lines
    (lines : list string) (s s' : Session E) (w w' : World) :
  List.Forall diagnostic_ok (cerr w) ->
  run lines s w = Ok (s', w') ->
  List.Forall diagnostic_ok (cerr w').
Proof.
  intros Hw Hrun. unfold run in Hrun.
  assert (Hone : forall t st m r now_ms,
             List.Forall diagnostic_ok
               [Insert (createStderrMessage t st m r "" now_ms); Endl; Flush]).
  { intros. apply List.Forall_cons; [apply diagnostic_in_order|].
    repeat constructor. }
  refine (run_loop_preserves (fun _ w1 => List.Forall diagnostic_ok (cerr w1))
            lines _ _ _ _ _ _ _ _ _ _ Hrun).
  - intros line req s0 w0 s1 w1 _ _ _ HP H.
    apply handleChatRequest_completed in H
      as (budget & ops & e & _ & _ & _ & ->).
    cbn [cerr]. apply List.Forall_app. split; [exact HP|].
    unfold chat_diagnostics. repeat constructor; apply diagnostic_in_order.
  - intros line req s0 w0 _ _ _ HP. rewrite handleStatusRequest_effect.
    cbn [snd cerr]. apply List.Forall_app. split; [exact HP|apply Hone].
  - intros line req s0 w0 _ _ _ HP. rewrite handleSystemPromptRequest_effect.
    cbn [snd cerr]. apply List.Forall_app. split; [exact HP|].
    destruct (empty (Request.content req)); apply Hone.
  - intros line req s0 w0 _ _ _ HP. rewrite handleResetRequest_effect.
    cbn [snd cerr]. apply List.Forall_app. split; [exact HP|apply Hone].
  - intros line req s0 w0 _ _ HP. rewrite unknown_effect.
    cbn [cerr]. apply List.Forall_app. split; [exact HP|apply Hone].
  - exact Hw.
Qed.

(** X19. A run without a chat line always completes, leaves standard
    output as it was and never asks the engine for an answer. *)
Theorem only_chat_reaches_the_engine
    (lines : list string) (s : Session E) (w : World) :
  (forall line, In line lines -> method_of line <> "chat") ->
  exists s' w',
    run lines s w = Ok (s', w') /\
    cout w' = cout w /\
    count_responses (llm_calls w') = count_responses (llm_calls w).
Proof.
  intros Hno. unfold run.
  assert (Hnone : forall line req,
             In line lines -> parseRequest line = Ok req ->
             Request.method req = "chat" -> False).
  { intros line req Hin Hreq Hm. apply (Hno line Hin).
    unfold method_of. now rewrite Hreq. }
  destruct (run_loop lines (set_running true s) w) as [[s' w']|e|] eqn:Hrun;
    [|exfalso|exfalso].
  - exists s', w'. split; [reflexivity|].
    refine (run_loop_preserves
              (fun _ w1 => cout w1 = cout w /\
                           count_responses (llm_calls w1) = count_responses (llm_calls w))
              lines _ _ _ _ _ _ _ _ _ _ Hrun).
    + intros line req s0 w0 s1 w1 Hin Hreq Hm. destruct (Hnone line req Hin Hreq Hm).
    + intros line req s0 w0 _ _ _ [Hout Hcalls]. rewrite handleStatusRequest_effect.
      cbn [snd cout llm_calls]. split; [exact Hout|].
      rewrite count_responses_app, Hcalls.
      cbn [count_responses List.filter is_response_call length]. lia.
    + intros line req s0 w0 _ _ _ HP. now rewrite handleSystemPromptRequest_effect.
    + intros line req s0 w0 _ _ _ [Hout Hcalls]. rewrite handleResetRequest_effect.
      cbn [snd cout llm_calls]. split; [exact Hout|].
      rewrite count_responses_app, Hcalls.
      cbn [count_responses List.filter is_response_call length]. lia.
    + intros line req s0 w0 _ _ HP. now rewrite unknown_effect.
    + split; reflexivity.
  - destruct (run_loop_fails lines _ w (Throw e)
                (or_introl (ex_intro _ e eq_refl)) Hrun)
      as (line & req & Hin & Hreq & Hm & _).
    exact (Hnone line req Hin Hreq Hm).
  - destruct (run_loop_fails lines _ w Undefined (or_intror eq_refl) Hrun)
      as (line & req & Hin & Hreq & Hm & _).
    exact (Hnone line req Hin Hreq Hm).
Qed.

(** ** The decoder on a member that is there *)

Lemma get_app_at (q r : string) (c : ascii) :
  String.get (String.length q) (q ++ String c r) = Some c.
Proof. induction q as [|a q IH]; simpl; [reflexivity|exact IH]. Qed.

Lemma str_at_app (q r : string) (c : ascii) :
  str_at (q ++ String c r) (String.length q) = Ok c.
Proof. unfold str_at. now rewrite get_app_at. Qed.

Lemma index_char_here (d : ascii) (q r : string) :
  String.index (String.length q) (str d) (q ++ String d r) = Some (String.length q).
Proof.
  induction q as [|a q IH]; cbn [String.length String.append String.index].
  - unfold str. cbn [String.prefix]. destruct (ascii_dec d d); [|contradiction].
    now destruct r.
  - now rewrite IH.
Qed.

Lemma index_char_skip (d c : ascii) (q r : string) :
  c <> d ->
  String.index (String.length q) (str d) (q ++ String c r) =
  String.index (S (String.length q)) (str d) (q ++ String c r).
Proof.
  intros Hc. induction q as [|a q IH]; cbn [String.length String.append String.index].
  - unfold str. cbn [String.prefix]. destruct (ascii_dec d c); [congruence|reflexivity].
  - now rewrite IH.
Qed.

Lemma snoc_app (q r : string) (c : ascii) :
  q ++ String c r = (q ++ str c) ++ r.
Proof. now rewrite append_assoc. Qed.

Lemma length_snoc (q : string) (c : ascii) :
  String.length (q ++ str c) = S (String.length q).
Proof. rewrite length_append. simpl. lia. Qed.

Lemma find_char_run (d : ascii) (a : string) :
  forall q r,
    all_chars (not_char d) a = true ->
    find (q ++ a ++ String d r) (str d) (String.length q) =
    Some (String.length q + String.length a).
Proof.
  unfold find. induction a as [|c a IH]; intros q r Ha; cbn [String.append String.length].
  - rewrite index_char_here. f_equal. lia.
  - cbn [all_chars] in Ha. apply andb_prop in Ha as [Hc Ha].
    apply negb_true_iff, Ascii.eqb_neq in Hc.
    rewrite index_char_skip by exact Hc.
    rewrite snoc_app, <- (length_snoc q c), (IH _ _ Ha), length_snoc. f_equal. lia.
Qed.

Lemma skip_blanks_step (s : string) (p : nat) (c : ascii) :
  p < String.length s -> str_at s p = Ok c ->
  skip_blanks s p = if is_blank c then skip_blanks s (S p) else Ok p.
Proof.
  intros Hp Hc. rewrite skip_blanks_equation_1.
  destruct (lt_dec p (String.length s)); [|lia].
  now rewrite skip_blanks_clause_1_equation_1, Hc, skip_blanks_clause_1_clause_1_equation_1.
Qed.

Lemma scan_value_step (s : string) (p : nat) (c : ascii) :
  p < String.length s -> str_at s p = Ok c ->
  scan_value s p = if is_value_end c then Ok p else scan_value s (S p).
Proof.
  intros Hp Hc. rewrite scan_value_equation_1.
  destruct (lt_dec p (String.length s)); [|lia].
  now rewrite scan_value_clause_1_equation_1, Hc, scan_value_clause_1_clause_1_equation_1.
Qed.

Lemma scan_value_end (s : string) (p : nat) :
  String.length s <= p -> scan_value s p = Ok p.
Proof.
  intros Hp. rewrite scan_value_equation_1.
  destruct (lt_dec p (String.length s)); [lia|].
  now rewrite scan_value_clause_1_equation_2.
Qed.

Lemma closing_quote_step (s : string) (e : nat) (c : ascii) :
  str_at_pred s e = Ok c ->
  closing_quote s (Some e) =
  if Ascii.eqb c backslash
  then closing_quote s (find s (str dquote) (e + 1))
  else Ok (Some e).
Proof.
  intros Hc. rewrite closing_quote_equation_1, Hc, closing_quote_clause_2_equation_1.
  destruct (Ascii.eqb c backslash).
  - rewrite closing_quote_clause_2_clause_1_equation_1. unfold inspect.
    now rewrite closing_quote_clause_2_clause_1_clause_1_equation_1.
  - now rewrite closing_quote_clause_2_clause_1_equation_2.
Qed.

Lemma inside_app (q r : string) (c : ascii) :
  String.length q < String.length (q ++ String c r).
Proof. rewrite length_append. simpl. lia. Qed.

Lemma skip_blanks_run (b : string) :
  forall (q r : string) (c : ascii),
    all_chars is_blank b = true -> is_blank c = false ->
    skip_blanks (q ++ b ++ String c r) (String.length q) =
    Ok (String.length q + String.length b).
Proof.
  induction b as [|a b IH]; intros q r c Hb Hc; cbn [String.append String.length].
  - rewrite (skip_blanks_step _ _ c (inside_app q r c) (str_at_app q r c)), Hc.
    f_equal. lia.
  - cbn [all_chars] in Hb. apply andb_prop in Hb as [Ha Hb].
    rewrite (skip_blanks_step _ _ a (inside_app q _ a) (str_at_app q _ a)), Ha.
    rewrite snoc_app, <- (length_snoc q a), (IH _ _ _ Hb Hc), length_snoc. f_equal. lia.
Qed.

Lemma scan_value_run (v : string) :
  forall (q rest : string),
    all_chars (fun c => negb (is_value_end c)) v = true ->
    ends_value rest = true ->
    scan_value (q ++ v ++ rest) (String.length q) =
    Ok (String.length q + String.length v).
Proof.
  induction v as [|a v IH]; intros q rest Hv Hrest; cbn [String.append String.length].
  - destruct rest as [|c rest].
    + rewrite scan_value_end by (rewrite append_nil_r; lia). f_equal. lia.
    + cbn [ends_value] in Hrest.
      rewrite (scan_value_step _ _ c (inside_app q rest c) (str_at_app q rest c)), Hrest.
      f_equal. lia.
  - cbn [all_chars] in Hv. apply andb_prop in Hv as [Ha Hv].
    apply negb_true_iff in Ha.
    rewrite (scan_value_step _ _ a (inside_app q _ a) (str_at_app q _ a)), Ha.
    rewrite snoc_app, <- (length_snoc q a), (IH _ _ Hv Hrest), length_snoc. f_equal. lia.
Qed.

Lemma closing_quote_run (v : string) :
  forall (q r : string) (prev : ascii),
    closes_at_end prev v = true ->
    closing_quote ((q ++ str prev) ++ v ++ String dquote r)
      (find ((q ++ str prev) ++ v ++ String dquote r) (str dquote)
         (String.length (q ++ str prev))) =
    Ok (Some (String.length (q ++ str prev) + String.length v)).
Proof.
  induction v as [|c v IH]; intros q r prev Hv; cbn [String.append String.length].
  - cbn [closes_at_end] in Hv. apply negb_true_iff in Hv.
    unfold find. rewrite index_char_here.
    rewrite (closing_quote_step _ _ prev).
    + rewrite Hv. f_equal. f_equal. lia.
    + rewrite length_snoc. cbn [str_at_pred]. rewrite append_assoc. apply str_at_app.
  - cbn [closes_at_end] in Hv. apply andb_prop in Hv as [Hc Hv].
    set (q' := q ++ str prev) in *.
    assert (Hnext :
              closing_quote (q' ++ String c (v ++ String dquote r))
                (find (q' ++ String c (v ++ String dquote r)) (str dquote)
                   (S (String.length q'))) =
              Ok (Some (String.length q' + S (String.length v)))).
    { rewrite (snoc_app q' _ c), <- (length_snoc q' c), (IH _ _ _ Hv), length_snoc.
      f_equal. f_equal. lia. }
    destruct (Ascii.eqb c dquote) eqn:Hq.
    + apply Ascii.eqb_eq in Hq. subst c. cbn [negb orb] in Hc.
      unfold find at 1. rewrite index_char_here.
      rewrite (closing_quote_step _ _ prev).
      * rewrite Hc. replace (String.length q' + 1) with (S (String.length q')) by lia.
        exact Hnext.
      * subst q'. rewrite length_snoc. cbn [str_at_pred]. rewrite append_assoc.
        apply str_at_app.
    + apply Ascii.eqb_neq in Hq. unfold find at 1.
      rewrite index_char_skip by exact Hq. exact Hnext.
Qed.

Lemma substring_app (v : string) :
  forall (q r : string),
    String.substring (String.length q) (String.length v) (q ++ v ++ r) = v.
Proof.
  intros q r. induction q as [|a q IH]; cbn [String.length String.append String.substring].
  - induction v as [|c v IHv]; cbn [String.length String.append String.substring].
    + now destruct r.
    + now rewrite IHv.
  - exact IH.
Qed.

Lemma substr_app (q v r : string) :
  substr (q ++ v ++ r) (String.length q) (String.length v) = Ok v.
Proof.
  rewrite substr_ok by (rewrite length_append; lia). now rewrite substring_app.
Qed.

Lemma quoted_no_colon (key : string) :
  all_chars (not_char ":") key = true ->
  all_chars (not_char ":") (quoted key) = true.
Proof.
  intros H. unfold quoted, str. cbn [String.append all_chars].
  now rewrite all_chars_app, H.
Qed.

(** Where [extractValue] stands once the key, the colon and the blanks
    are behind it: at [start_pos], with [c] the byte there. *)
Lemma extractValue_at_value (pre key blanks tail : string) (c : ascii) (r : string) :
  find (pre ++ quoted key ++ ":" ++ blanks ++ tail) (quoted key) 0
    = Some (String.length pre) ->
  all_chars (not_char ":") key = true ->
  all_chars is_blank blanks = true ->
  tail = String c r -> is_blank c = false ->
  exists q,
    pre ++ quoted key ++ ":" ++ blanks ++ tail = q ++ tail /\
    find (pre ++ quoted key ++ ":" ++ blanks ++ tail) ":" (String.length pre)
      = Some (String.length pre + String.length (quoted key)) /\
    skip_blanks (pre ++ quoted key ++ ":" ++ blanks ++ tail)
      (String.length pre + String.length (quoted key) + 1) = Ok (String.length q) /\
    str_at (pre ++ quoted key ++ ":" ++ blanks ++ tail) (String.length q) = Ok c.
Proof.
  intros Hkey Hcolon Hblank -> Hc.
  exists (pre ++ quoted key ++ ":" ++ blanks).
  assert (Hline : pre ++ quoted key ++ ":" ++ blanks ++ String c r =
                  (pre ++ quoted key ++ ":" ++ blanks) ++ String c r).
  { now rewrite !append_assoc. }
  split; [exact Hline|]. split; [|split].
  - apply (find_char_run ":" (quoted key) pre (blanks ++ String c r)).
    now apply quoted_no_colon.
  - replace (pre ++ quoted key ++ ":" ++ blanks ++ String c r)
      with ((pre ++ quoted key ++ ":") ++ blanks ++ String c r)
      by now rewrite !append_assoc.
    replace (String.length pre + String.length (quoted key) + 1)
      with (String.length (pre ++ quoted key ++ ":"))
      by (rewrite !length_append; simpl; lia).
    rewrite (skip_blanks_run blanks _ r c Hblank Hc).
    f_equal. rewrite !length_append. simpl. lia.
  - rewrite Hline. apply str_at_app.
Qed.

Lemma extractValue_quoted (pre key blanks v rest : string) :
  find (pre ++ quoted key ++ ":" ++ blanks ++ quoted v ++ rest) (quoted key) 0
    = Some (String.length pre) ->
  all_chars (not_char ":") key = true ->
  all_chars is_blank blanks = true ->
  closes_at_end dquote v = true ->
  extractValue (pre ++ quoted key ++ ":" ++ blanks ++ quoted v ++ rest) key = Ok v.
Proof.
  intros Hkey Hcolon Hblank Hv.
  destruct (extractValue_at_value pre key blanks (quoted v ++ rest)
              dquote (v ++ str dquote ++ rest) Hkey Hcolon Hblank)
    as (q & Hline & Hfind & Hskip & Hat).
  { unfold quoted, str. now rewrite !append_assoc. }
  { reflexivity. }
  unfold extractValue. change (str dquote ++ key ++ str dquote) with (quoted key).
  rewrite Hkey, Hfind, Hskip. cbn [mbind outcome_bind bind]. rewrite Hat.
  cbn [mbind outcome_bind bind]. rewrite Ascii.eqb_refl.
  rewrite Hline.
  replace (q ++ quoted v ++ rest) with ((q ++ str dquote) ++ v ++ String dquote rest)
    by (unfold quoted, str; now rewrite !append_assoc).
  replace (String.length q + 1) with (String.length (q ++ str dquote))
    by (rewrite length_snoc; lia).
  rewrite (closing_quote_run v q rest dquote Hv). cbn [mbind outcome_bind bind].
  replace (String.length (q ++ str dquote) + String.length v
           - String.length (q ++ str dquote)) with (String.length v) by lia.
  rewrite substr_app. reflexivity.
Qed.

Lemma extractValue_bare (pre key blanks v rest : string) :
  find (pre ++ quoted key ++ ":" ++ blanks ++ v ++ rest) (quoted key) 0
    = Some (String.length pre) ->
  all_chars (not_char ":") key = true ->
  all_chars is_blank blanks = true ->
  bare_value v = true ->
  ends_value rest = true ->
  extractValue (pre ++ quoted key ++ ":" ++ blanks ++ v ++ rest) key = Ok v.
Proof.
  intros Hkey Hcolon Hblank Hv Hrest.
  destruct v as [|c v']; [discriminate Hv|].
  cbn [bare_value] in Hv. apply andb_prop in Hv as [Hv Hall].
  apply andb_prop in Hv as [Hb Hq]. apply negb_true_iff in Hb, Hq.
  destruct (extractValue_at_value pre key blanks (String c v' ++ rest)
              c (v' ++ rest) Hkey Hcolon Hblank eq_refl Hb)
    as (q & Hline & Hfind & Hskip & Hat).
  unfold extractValue. change (str dquote ++ key ++ str dquote) with (quoted key).
  rewrite Hkey, Hfind, Hskip. cbn [mbind outcome_bind bind]. rewrite Hat.
  cbn [mbind outcome_bind bind]. rewrite Hq. cbn [mbind outcome_bind bind].
  rewrite Hline, (scan_value_run (String c v') q rest Hall Hrest).
  cbn [mbind outcome_bind bind].
  replace (String.length q + String.length (String c v') - String.length q)
    with (String.length (String c v')) by lia.
  apply substr_app.
Qed.

(** X20. A member written as quoted key, colon, blanks and quoted value
    is read back exactly, on these conditions: the member is the first
    place of the line where the quoted key stands, the key holds no colon,
    the value does not end in a backslash and each quote in it has a
    backslash before it.  The value comes back with its backslashes. *)
Theorem extractValue_string_member (pre key blanks v rest : string) :
  find (pre ++ quoted key ++ ":" ++ blanks ++ quoted v ++ rest) (quoted key) 0
    = Some (String.length pre) ->
  all_chars (not_char ":") key = true ->
  all_chars is_blank blanks = true ->
  closes_at_end dquote v = true ->
  extractValue (pre ++ quoted key ++ ":" ++ blanks ++ quoted v ++ rest) key = Ok v.
Proof. exact (extractValue_quoted pre key blanks v rest). Qed.

(** X21. A member whose value is not a string (a number, say) is read
    back up to the first comma, closing brace, closing bracket or space, or
    to the end of the line. *)
Theorem extractValue_bare_member (pre key blanks v rest : string) :
  find (pre ++ quoted key ++ ":" ++ blanks ++ v ++ rest) (quoted key) 0
    = Some (String.length pre) ->
  all_chars (not_char ":") key = true ->
  all_chars is_blank blanks = true ->
  bare_value v = true ->
  ends_value rest = true ->
  extractValue (pre ++ quoted key ++ ":" ++ blanks ++ v ++ rest) key = Ok v.
Proof. exact (extractValue_bare pre key blanks v rest). Qed.

(** X22. A chat line made of the type and the prompt decodes to a chat
    request with that prompt, and a system_prompt line made of the type and
    the content to a system_prompt request with that content, whatever the
    text is, as long as the scan for its closing quote stops at its end. *)
Theorem request_lines_decode (text : string) :
  closes_at_end dquote text = true ->
  (exists id budget,
     parseRequest (request_line "chat" "prompt" text) =
     Ok (Request.mk id "chat" text (override budget))) /\
  (exists id,
     parseRequest (request_line "system_prompt" "content" text) =
     Ok (Request.mk id "system_prompt" text ∅)).
Proof.
  intros Htext. split.
  - destruct (extractValue_returns (request_line "chat" "prompt" text) "id") as [id Hid].
    destruct (extractValue_returns (request_line "chat" "prompt" text) "max_new_tokens")
      as [budget Hbudget].
    assert (Htype : extractValue (request_line "chat" "prompt" text) "type" = Ok "chat").
    { exact (extractValue_quoted "{" "type" "" "chat"
               ("," ++ member "prompt" (quoted text) ++ "}")
               eq_refl eq_refl eq_refl eq_refl). }
    assert (Hprompt : extractValue (request_line "chat" "prompt" text) "prompt" = Ok text).
    { exact (extractValue_quoted ("{" ++ member "type" (quoted "chat") ++ ",")
               "prompt" "" text "}" eq_refl eq_refl eq_refl Htext). }
    exists id, budget. unfold parseRequest.
    rewrite Htype, Hid. cbn [mbind outcome_bind bind String.eqb Ascii.eqb Bool.eqb].
    now rewrite Hprompt, Hbudget.
  - destruct (extractValue_returns (request_line "system_prompt" "content" text) "id")
      as [id Hid].
    assert (Htype : extractValue (request_line "system_prompt" "content" text) "type"
                    = Ok "system_prompt").
    { exact (extractValue_quoted "{" "type" "" "system_prompt"
               ("," ++ member "content" (quoted text) ++ "}")
               eq_refl eq_refl eq_refl eq_refl). }
    assert (Hcontent : extractValue (request_line "system_prompt" "content" text) "content"
                       = Ok text).
    { exact (extractValue_quoted ("{" ++ member "type" (quoted "system_prompt") ++ ",")
               "content" "" text "}" eq_refl eq_refl eq_refl Htext). }
    exists id. unfold parseRequest.
    rewrite Htype, Hid. cbn [mbind outcome_bind bind String.eqb Ascii.eqb Bool.eqb].
    now rewrite Hcontent.
Qed.

End LlmStdioCore.

(** * The prompt table reader *)

Lemma csv_quote_opens (stream cell : string) (row : list string)
    (csv_data : list (list string)) :
  SystemInfo.parse_csv_loop (String dquote stream) cell row csv_data false =
  SystemInfo.parse_csv_loop stream cell row csv_data true.
Proof. cbn. now destruct stream. Qed.

Lemma csv_quoted_text (text : string) :
  forall (rest cell : string) (c : ascii) (row : list string)
         (csv_data : list (list string)),
    c <> dquote ->
    SystemInfo.parse_csv_loop
      (SystemInfo.double_quotes text ++ String dquote (String c rest))
      cell row csv_data true =
    SystemInfo.parse_csv_loop (String c rest) (cell ++ text) row csv_data false.
Proof.
  induction text as [|a text IH]; intros rest cell c row csv_data Hc.
  - apply Ascii.eqb_neq in Hc. cbn [SystemInfo.double_quotes String.append].
    cbn [SystemInfo.parse_csv_loop]. rewrite Ascii.eqb_refl, Hc.
    now rewrite append_nil_r.
  - cbn [SystemInfo.double_quotes]. destruct (Ascii.eqb a dquote) eqn:Ha.
    + apply Ascii.eqb_eq in Ha. subst a. cbn [String.append SystemInfo.parse_csv_loop].
      rewrite Ascii.eqb_refl. cbn [andb]. rewrite (IH _ _ _ _ _ Hc).
      now rewrite append_assoc.
    + cbn [String.append SystemInfo.parse_csv_loop]. rewrite Ha.
      cbn [negb andb]. rewrite !andb_false_r. rewrite (IH _ _ _ _ _ Hc).
      now rewrite append_assoc.
Qed.

Lemma csv_plain_text (text : string) :
  forall (rest cell : string) (c : ascii) (row : list string)
         (csv_data : list (list string)),
    all_chars SystemInfo.is_plain_char text = true ->
    SystemInfo.parse_csv_loop (text ++ String c rest) cell row csv_data false =
    SystemInfo.parse_csv_loop (String c rest) (cell ++ text) row csv_data false.
Proof.
  induction text as [|a text IH]; intros rest cell c row csv_data Ht.
  - cbn [String.append]. now rewrite append_nil_r.
  - cbn [all_chars] in Ht. apply andb_prop in Ht as [Ha Ht].
    unfold SystemInfo.is_plain_char in Ha. apply negb_true_iff in Ha.
    apply orb_false_elim in Ha as [Ha Hlf]. apply orb_false_elim in Ha as [Hq Hcomma].
    cbn [String.append SystemInfo.parse_csv_loop]. rewrite Hq, Hcomma, Hlf.
    assert (He : empty (text ++ String c rest) = false) by now destruct text.
    rewrite He. cbn [andb orb]. rewrite (IH _ _ _ _ _ Ht).
    now rewrite append_assoc.
Qed.

Lemma csv_cell_read (quote : string -> bool) (text rest : string) (c : ascii)
    (row : list string) (csv_data : list (list string)) :
  (quote text || all_chars SystemInfo.is_plain_char text)%bool = true ->
  c <> dquote ->
  SystemInfo.parse_csv_loop (SystemInfo.csv_cell quote text ++ String c rest)
    "" row csv_data false =
  SystemInfo.parse_csv_loop (String c rest) text row csv_data false.
Proof.
  intros Hq Hc. unfold SystemInfo.csv_cell. destruct (quote text).
  - unfold quoted, str. rewrite !append_assoc. cbn [String.append].
    rewrite csv_quote_opens. now rewrite csv_quoted_text.
  - cbn [orb] in Hq. now rewrite csv_plain_text.
Qed.

Lemma csv_row_read (quote : string -> bool) (cells : list string) :
  forall (first rest : string) (row : list string) (csv_data : list (list string)),
    forallb (fun cell => (quote cell || all_chars SystemInfo.is_plain_char cell)%bool)
      (first :: cells) = true ->
    SystemInfo.parse_csv_loop
      (SystemInfo.csv_line quote (first :: cells) ++ String LF rest) "" row csv_data false =
    SystemInfo.parse_csv_loop rest "" []
      (csv_data ++ [(row ++ first :: cells)%list])%list false.
Proof.
  induction cells as [|second cells IH]; intros first rest row csv_data Hok;
    cbn [forallb] in Hok; apply andb_prop in Hok as [Hfirst Hok].
  - cbn [SystemInfo.csv_line]. rewrite csv_cell_read by (assumption || discriminate).
    reflexivity.
  - change (SystemInfo.csv_line quote (first :: second :: cells))
      with (SystemInfo.csv_cell quote first ++ "," ++ SystemInfo.csv_line quote (second :: cells)).
    rewrite !append_assoc. cbn [String.append].
    rewrite csv_cell_read by (assumption || discriminate).
    cbn [SystemInfo.parse_csv_loop Ascii.eqb Bool.eqb dquote andb negb].
    rewrite (IH second rest _ csv_data Hok). now rewrite <- app_assoc.
Qed.

Lemma content_of_from (lines : list string) :
  forall content,
    fold_left (fun content line => (content ++ line) ++ str LF) lines content =
    content ++ SystemInfo.content_of lines.
Proof.
  unfold SystemInfo.content_of.
  induction lines as [|line lines IH]; intros content; cbn [fold_left].
  - now rewrite append_nil_r.
  - rewrite IH, (IH (("" ++ line) ++ str LF)). cbn [String.append].
    now rewrite !append_assoc.
Qed.

Lemma content_of_cons (line : string) (lines : list string) :
  SystemInfo.content_of (line :: lines) =
  line ++ String LF (SystemInfo.content_of lines).
Proof.
  unfold SystemInfo.content_of at 1. cbn [fold_left].
  rewrite content_of_from. cbn [String.append]. now rewrite append_assoc.
Qed.

Lemma content_of_app (l1 l2 : list string) :
  SystemInfo.content_of (l1 ++ l2) =
  SystemInfo.content_of l1 ++ SystemInfo.content_of l2.
Proof.
  induction l1 as [|line l1 IH]; [reflexivity|].
  cbn [app]. rewrite !content_of_cons, IH. now rewrite append_assoc.
Qed.

Lemma csv_rows_read (quote : string -> bool) (rows : list (list string)) :
  forall (rest : string) csv_data,
    SystemInfo.quotes_where_needed quote rows = true ->
    SystemInfo.no_empty_row rows = true ->
    SystemInfo.parse_csv_loop
      (SystemInfo.content_of (map (SystemInfo.csv_line quote) rows) ++ rest)
      "" [] csv_data false =
    SystemInfo.parse_csv_loop rest "" [] (csv_data ++ rows)%list false.
Proof.
  induction rows as [|row rows IH]; intros rest csv_data Hq Hne.
  - cbn [map]. now rewrite app_nil_r.
  - cbn [SystemInfo.quotes_where_needed SystemInfo.no_empty_row forallb] in Hq, Hne.
    apply andb_prop in Hq as [Hrow Hq]. apply andb_prop in Hne as [Hlen Hne].
    destruct row as [|first cells]; [discriminate Hlen|].
    cbn [map]. rewrite content_of_cons, append_assoc. cbn [String.append].
    rewrite (csv_row_read quote cells first _ [] csv_data Hrow).
    rewrite (IH _ _ Hq Hne). cbn [app]. now rewrite <- app_assoc.
Qed.

Lemma csv_inside_quotes (stream : string) :
  forall (cell : string) (row : list string) (csv_data : list (list string)),
    all_chars (not_char dquote) stream = true ->
    SystemInfo.parse_csv_loop stream cell row csv_data true = csv_data.
Proof.
  induction stream as [|c stream IH]; intros cell row csv_data Hs; [reflexivity|].
  cbn [all_chars] in Hs. apply andb_prop in Hs as [Hc Hs].
  unfold not_char in Hc. apply negb_true_iff in Hc.
  cbn [SystemInfo.parse_csv_loop]. rewrite Hc. cbn [negb]. rewrite !andb_false_r.
  now apply IH.
Qed.

Lemma content_no_quote (lines : list string) :
  forallb (all_chars (not_char dquote)) lines = true ->
  all_chars (not_char dquote) (SystemInfo.content_of lines) = true.
Proof.
  induction lines as [|line lines IH]; intros H; [reflexivity|].
  cbn [forallb] in H. apply andb_prop in H as [Hl H].
  rewrite content_of_cons, all_chars_app. cbn [all_chars]. now rewrite Hl, IH.
Qed.

(** X23. The reader reads back every table that is written in the usual
    way: the cells of a row joined by commas, one row per line, a cell
    between quotes with every quote in it doubled, or without quotes when
    it holds no quote, no comma and no newline.  Rows have at least one
    cell; a cell between quotes may hold commas, quotes and newlines. *)
Theorem parse_csv_reads_back (quote : string -> bool) (rows : list (list string)) :
  SystemInfo.quotes_where_needed quote rows = true ->
  SystemInfo.no_empty_row rows = true ->
  SystemInfo.parse_csv (map (SystemInfo.csv_line quote) rows) = rows.
Proof.
  intros Hq Hne. unfold SystemInfo.parse_csv.
  rewrite <- (append_nil_r (SystemInfo.content_of _)).
  now rewrite (csv_rows_read quote rows "" [] Hq Hne).
Qed.

(** X24. A quote that is opened and never closed takes the rest of the
    table with it: the rows before the line are read, the line itself and
    every line after it are lost, without any error. *)
Theorem unclosed_quote_drops_the_rest
    (quote : string -> bool) (rows : list (list string))
    (text : string) (more : list string) :
  SystemInfo.quotes_where_needed quote rows = true ->
  SystemInfo.no_empty_row rows = true ->
  forallb (all_chars (not_char dquote)) (text :: more) = true ->
  SystemInfo.parse_csv
    (map (SystemInfo.csv_line quote) rows ++ String dquote text :: more) = rows.
Proof.
  intros Hq Hne Hrest. unfold SystemInfo.parse_csv.
  rewrite content_of_app, (csv_rows_read quote rows _ [] Hq Hne).
  rewrite content_of_cons. cbn [String.append app]. rewrite csv_quote_opens.
  apply csv_inside_quotes.
  rewrite <- content_of_cons. now apply content_no_quote.
Qed.

(** * The prompt tokens of the benchmark *)

(** [l] repeats [source]: its element at [i] is the element of [source]
    at [i] modulo the length of [source]. *)
Definition repeats (source l : list Z) : Prop :=
  forall i, i < length l -> nth_error l i = nth_error source (i mod length source).

Lemma repeats_app (source acc : list Z) (k r : nat) :
  length acc = k * length source ->
  repeats source acc ->
  r <= length source ->
  repeats source (acc ++ firstn r source) /\
  length (acc ++ firstn r source) = k * length source + r.
Proof.
  intros Hlen Hacc Hr.
  assert (Hl : length (acc ++ firstn r source) = k * length source + r).
  { rewrite List.length_app, List.length_firstn. lia. }
  split; [|exact Hl]. intros i Hi. rewrite Hl in Hi.
  destruct (Nat.lt_ge_cases i (length acc)) as [Hlt|Hge].
  - rewrite nth_error_app1 by exact Hlt. now apply Hacc.
  - rewrite nth_error_app2 by exact Hge. rewrite nth_error_firstn.
    destruct (Nat.ltb_spec (i - length acc) r) as [_|Hno]; [|lia].
    f_equal. replace i with ((i - length acc) + k * length source) at 2 by lia.
    rewrite Nat.Div0.mod_add. symmetry. apply Nat.mod_small. lia.
Qed.

Lemma insert_cycles_repeats (source : list Z) (n : nat) :
  forall (acc : list Z) (k : nat),
    length acc = k * length source ->
    repeats source acc ->
    repeats source (VllmBench.insert_cycles n source acc) /\
    length (VllmBench.insert_cycles n source acc) = (k + n) * length source.
Proof.
  induction n as [|n IH]; intros acc k Hlen Hacc; cbn [VllmBench.insert_cycles].
  - split; [exact Hacc|]. rewrite Hlen. f_equal. lia.
  - destruct (repeats_app source acc k (length source) Hlen Hacc (le_n _)) as [Hr Hl].
    rewrite List.firstn_all in Hr, Hl.
    destruct (IH (acc ++ source)%list (S k)) as [Hr' Hl']; [lia|exact Hr|].
    split; [exact Hr'|]. rewrite Hl'. f_equal. lia.
Qed.

Lemma adjustTokensToLength_repeats (sourceTokens : list Z) (targetLength : Z) :
  sourceTokens <> [] -> (0 < targetLength)%Z ->
  length (VllmBench.adjustTokensToLength sourceTokens targetLength)
    = Z.to_nat targetLength /\
  repeats sourceTokens (VllmBench.adjustTokensToLength sourceTokens targetLength).
Proof.
  intros Hsrc Ht. unfold VllmBench.adjustTokensToLength.
  assert (Hlen : length sourceTokens <> 0) by (destruct sourceTokens; [congruence|discriminate]).
  destruct (Nat.eqb_spec (length sourceTokens) 0) as [|_]; [contradiction|].
  destruct (Z.leb_spec targetLength 0) as [|_]; [lia|]. cbn [orb].
  rewrite <- (Z2Nat.id targetLength) by lia.
  set (target := Z.to_nat targetLength). rewrite Nat2Z.id.
  assert (Htarget : 0 < target) by (subst target; lia).
  destruct (Z.eqb_spec (Z.of_nat (length sourceTokens)) (Z.of_nat target)) as [Heq|Hne].
  { split; [lia|]. intros i Hi. f_equal. symmetry. now apply Nat.mod_small. }
  destruct (Z.ltb_spec (Z.of_nat target) (Z.of_nat (length sourceTokens))) as [Hlt|Hge].
  { split; [rewrite List.length_firstn; lia|].
    intros i Hi. rewrite List.length_firstn in Hi. rewrite nth_error_firstn.
    destruct (Nat.ltb_spec i target) as [_|Hno]; [|lia].
    f_equal. symmetry. apply Nat.mod_small. lia. }
  rewrite <- Nat2Z.inj_div, <- Nat2Z.inj_mod, !Nat2Z.id.
  destruct (insert_cycles_repeats sourceTokens (target / length sourceTokens) [] 0)
    as [Hfull Hfull_len]; [reflexivity|intros i Hi; cbn in Hi; lia|].
  pose proof (Nat.Div0.div_mod target (length sourceTokens)) as Hdiv.
  pose proof (Nat.mod_upper_bound target (length sourceTokens) Hlen) as Hmod.
  destruct (Z.ltb_spec 0 (Z.of_nat (target mod length sourceTokens))) as [Hrem|Hrem].
  - destruct (repeats_app sourceTokens _ _ (target mod length sourceTokens)
                Hfull_len Hfull) as [Hr Hl]; [lia|].
    split; [|exact Hr]. rewrite Hl. lia.
  - split; [|exact Hfull]. rewrite Hfull_len. lia.
Qed.

(** X25. Whenever there is a source and a positive target, the adjusted
    tokens are exactly target many, and they are the source read round and
    round: the token at [i] is the source token at [i] modulo the length of
    the source, whether the source was cut, repeated or returned as it
    is. *)
Theorem adjustTokensToLength_cycles (sourceTokens : list Z) (targetLength : Z) :
  sourceTokens <> [] -> (0 < targetLength)%Z ->
  length (VllmBench.adjustTokensToLength sourceTokens targetLength)
    = Z.to_nat targetLength /\
  forall i, i < Z.to_nat targetLength ->
    nth_error (VllmBench.adjustTokensToLength sourceTokens targetLength) i =
    nth_error sourceTokens (i mod length sourceTokens).
Proof.
  intros Hsrc Ht.
  destruct (adjustTokensToLength_repeats sourceTokens targetLength Hsrc Ht) as [Hl Hr].
  split; [exact Hl|]. intros i Hi. apply Hr. now rewrite Hl.
Qed.

Lemma push_variable_tokens (count : nat) :
  forall (i : Z) (tokens : list Z),
    length tokens = Z.to_nat i -> (0 <= i)%Z ->
    (forall j, j < length tokens ->
       nth_error tokens j = Some (20 + Z.of_nat j mod 20)%Z) ->
    length (VllmBench.push_variable count i tokens) = length tokens + count /\
    forall j, j < length tokens + count ->
      nth_error (VllmBench.push_variable count i tokens) j =
      Some (20 + Z.of_nat j mod 20)%Z.
Proof.
  induction count as [|count IH]; intros i tokens Hlen Hi Htok;
    cbn [VllmBench.push_variable].
  - split; [lia|]. intros j Hj. apply Htok. lia.
  - destruct (IH (i + 1)%Z (tokens ++ [(20 + Z.rem i 20)%Z])%list) as [Hl Hn].
    + rewrite List.length_app. cbn [length]. lia.
    + lia.
    + intros j Hj. rewrite List.length_app in Hj. cbn [length] in Hj.
      destruct (Nat.lt_ge_cases j (length tokens)) as [Hlt|Hge].
      * rewrite nth_error_app1 by exact Hlt. now apply Htok.
      * rewrite nth_error_app2 by exact Hge.
        replace (j - length tokens) with 0 by lia. cbn [nth_error].
        rewrite Z.rem_mod_nonneg by lia. do 3 f_equal. lia.
    + rewrite List.length_app in Hl, Hn. cbn [length] in Hl, Hn.
      split; [lia|]. intros j Hj. apply Hn. lia.
Qed.

Lemma adjustTokensToLength_nothing (sourceTokens : list Z) (targetLength : Z) :
  sourceTokens = [] \/ (targetLength <= 0)%Z ->
  VllmBench.adjustTokensToLength sourceTokens targetLength = [].
Proof.
  intros [->|Ht]; [reflexivity|]. unfold VllmBench.adjustTokensToLength.
  destruct (Z.leb_spec targetLength 0) as [_|]; [|lia]. now rewrite orb_true_r.
Qed.

Lemma prepareTokens_length
    (t : VllmBench.TestInstance) (fileTokens : list Z) (nPrompt : Z)
    (verbose : bool) (testType : string) :
  (0 < nPrompt)%Z ->
  VllmBench.promptFilePath t = "" \/ fileTokens <> [] ->
  length (fst (VllmBench.prepareTokens t fileTokens nPrompt verbose testType))
    = Z.to_nat nPrompt.
Proof.
  intros Hn Hfile. unfold VllmBench.prepareTokens.
  destruct (Z.ltb_spec 0 nPrompt) as [_|]; [|lia].
  destruct (empty (VllmBench.promptFilePath t)) eqn:He; cbn [negb andb].
  - destruct (VllmBench.useVariablePrompt t); cbn [fst].
    + destruct (push_variable_tokens (Z.to_nat nPrompt) 0 []) as [Hl _];
        [reflexivity|lia|intros j Hj; cbn in Hj; lia|exact Hl].
    + apply List.repeat_length.
  - apply empty_false in He. destruct Hfile as [Hp|Hf]; [contradiction|].
    destruct (adjustTokensToLength_repeats fileTokens nPrompt Hf Hn) as [Hl _].
    now destruct verbose.
Qed.

(** X26. With a positive prompt length, [prepareTokens] returns that many
    tokens, unless a prompt file is named and gave no token.  Without a
    prompt file the token at [i] is 20 plus [i] modulo 20 for a variable
    prompt and 16 otherwise, and nothing is printed. *)
Theorem prepareTokens_fills
    (t : VllmBench.TestInstance) (fileTokens : list Z) (nPrompt : Z)
    (verbose : bool) (testType : string) :
  (0 < nPrompt)%Z ->
  VllmBench.promptFilePath t = "" \/ fileTokens <> [] ->
  length (fst (VllmBench.prepareTokens t fileTokens nPrompt verbose testType))
    = Z.to_nat nPrompt /\
  (VllmBench.promptFilePath t = "" ->
   snd (VllmBench.prepareTokens t fileTokens nPrompt verbose testType) = [] /\
   forall i, i < Z.to_nat nPrompt ->
     nth_error (fst (VllmBench.prepareTokens t fileTokens nPrompt verbose testType)) i =
     Some (if VllmBench.useVariablePrompt t then (20 + Z.of_nat i mod 20)%Z else 16%Z)).
Proof.
  intros Hn Hfile. split; [now apply prepareTokens_length|].
  intros Hpath. unfold VllmBench.prepareTokens.
  destruct (Z.ltb_spec 0 nPrompt) as [_|]; [|lia].
  apply empty_true in Hpath. rewrite Hpath. cbn [negb andb].
  destruct (VllmBench.useVariablePrompt t); cbn [fst snd].
  - destruct (push_variable_tokens (Z.to_nat nPrompt) 0 []) as [_ Hnth];
      [reflexivity|lia|intros j Hj; cbn in Hj; lia|].
    split; [reflexivity|exact Hnth].
  - split; [reflexivity|]. intros i Hi. now apply nth_error_repeat.
Qed.

(** X27. [prepareTokens] returns no token exactly when the prompt length
    is not positive, or a prompt file is named and gave no token: in that
    second case the prompt is empty although a length was asked for. *)
Theorem prepareTokens_empty
    (t : VllmBench.TestInstance) (fileTokens : list Z) (nPrompt : Z)
    (verbose : bool) (testType : string) :
  fst (VllmBench.prepareTokens t fileTokens nPrompt verbose testType) = [] <->
  (nPrompt <= 0)%Z \/ (VllmBench.promptFilePath t <> "" /\ fileTokens = []).
Proof.
  split.
  - intros Hnil.
    destruct (Z.leb_spec nPrompt 0) as [Hle|Hpos]; [left; exact Hle|right].
    destruct (empty (VllmBench.promptFilePath t)) eqn:He.
    + apply empty_true in He.
      pose proof (prepareTokens_length t fileTokens nPrompt verbose testType Hpos
                    (or_introl He)) as Hl.
      rewrite Hnil in Hl. cbn [length] in Hl. lia.
    + apply empty_false in He. split; [exact He|].
      destruct fileTokens as [|token fileTokens]; [reflexivity|].
      assert (Hl : length (fst (VllmBench.prepareTokens t (token :: fileTokens) nPrompt
                                  verbose testType)) = Z.to_nat nPrompt)
        by (apply prepareTokens_length; [exact Hpos|right; discriminate]).
      rewrite Hnil in Hl. cbn [length] in Hl. lia.
  - intros [Hle|[Hpath ->]]; unfold VllmBench.prepareTokens.
    + destruct (Z.ltb_spec 0 nPrompt) as [|_]; [lia|]. now rewrite andb_false_r.
    + apply empty_false in Hpath. rewrite Hpath. cbn [negb andb].
      destruct (Z.ltb_spec 0 nPrompt); [|reflexivity].
      rewrite adjustTokensToLength_nothing by now left. now destruct verbose.
Qed.

(** * The theorems on concrete runs *)

(** With the scripted engine the markers frame [Hi!]; with the engine
    that writes nothing, nothing reaches standard output. *)
Lemma stream_markers_frame_the_output_witness :
  (exists w',
      handleChatRequest true example_clock example_chat_request
        (fresh_session 0) fresh_world
      = Ok (example_session_after_chat, w') /\
      bytes_of (cout w') =
      bytes_of (cout fresh_world)
        ++ ("[LLM_STREAM_START]" ++ str LF) ++ "Hi!" ++ ("[LLM_STREAM_END]" ++ str LF)) /\
  (exists s' w',
      handleChatRequest (llm := silent_llm) true example_clock example_chat_request
        (fresh_session 0) fresh_world
      = Ok (s', w') /\
      bytes_of (cout w') = bytes_of (cout fresh_world)).
Proof.
  split.
  - eexists.
    assert (Hrun : handleChatRequest true example_clock example_chat_request
                     (fresh_session 0) fresh_world
                   = Ok (example_session_after_chat, _))
      by (vm_compute; reflexivity).
    destruct (stream_markers_frame_the_output true example_clock example_chat_request
                (fresh_session 0) example_session_after_chat fresh_world _ Hrun)
      as (budget & ops & e & _ & Hr & Hwrites & _).
    vm_compute in Hr. inversion Hr; subst ops e; clear Hr.
    split; [exact Hrun|]. apply Hwrites. vm_compute. discriminate.
  - eexists. eexists.
    assert (Hrun : handleChatRequest (llm := silent_llm) true example_clock
                     example_chat_request (fresh_session 0) fresh_world
                   = Ok (_, _))
      by (vm_compute; reflexivity).
    destruct (stream_markers_frame_the_output (llm := silent_llm) true example_clock
                example_chat_request (fresh_session 0) _ fresh_world _ Hrun)
      as (budget & ops & e & _ & Hr & _ & Hsilent).
    vm_compute in Hr. inversion Hr; subst ops e; clear Hr.
    split; [exact Hrun|]. apply Hsilent. reflexivity.
Defined.

(** C3 as stated does not hold of the bytes on standard output: with the
    engine that writes [Hi!] the end marker stands behind [Hi!] on the same
    line, so no line of the output is the end marker. *)
Lemma end_marker_is_not_a_line_of_its_own :
  ~ (forall (req : Request.t) (s s' : Session nat) (w w' : World) (added : string),
       handleChatRequest true example_clock req s w = Ok (s', w') ->
       bytes_of (cout w') = bytes_of (cout w) ++ added ->
       added <> "" ->
       count_lines StreamingBuffer.START added = 1 /\
       count_lines StreamingBuffer.END added = 1).
Proof.
  intros Hclaim.
  assert (Hrun : exists s1 w1,
             handleChatRequest true example_clock example_chat_request
               (fresh_session 0) fresh_world = Ok (s1, w1) /\
             bytes_of (cout w1) =
             "[LLM_STREAM_START]" ++ str LF ++ "Hi![LLM_STREAM_END]" ++ str LF)
    by (eexists; eexists; split; vm_compute; reflexivity).
  destruct Hrun as (s1 & w1 & Hrun & Hbytes).
  destruct (Hclaim _ _ _ _ _ (bytes_of (cout w1)) Hrun eq_refl) as [_ Hend].
  - rewrite Hbytes. discriminate.
  - rewrite Hbytes in Hend. vm_compute in Hend. discriminate Hend.
Qed.

Lemma capture_is_verbatim_witness :
  exists w',
    handleChatRequest true example_clock example_chat_request (fresh_session 0) fresh_world
    = Ok (example_session_after_chat, w') /\
    exists max_new_tokens ops e delta,
      chat_max_new_tokens true (Request.params example_chat_request) = Ok max_new_tokens /\
      response (m_llm (fresh_session 0))
               (chat_messages example_chat_request (fresh_session 0)) max_new_tokens
      = (ops, e) /\
      m_chat_history example_session_after_chat =
        (m_chat_history (fresh_session 0)
           ++ [("user", Request.content example_chat_request);
               ("assistant", written ops)])%list /\
      cout w' = (cout fresh_world ++ delta)%list /\
      bytes_of delta =
        (if empty (written ops) then ""
         else StreamingBuffer.START ++ str LF
                ++ written ops
                ++ StreamingBuffer.END ++ str LF) /\
      cerr w' =
        (cerr fresh_world ++
         [Insert (createStderrMessage true "status" "success" MSG_STREAM_DONE "" ""
                    (example_clock (clock_reads fresh_world)));
          Endl;
          Insert (createStderrMessage true "response" "success" MSG_RESPONSE_DONE
                    (written ops) "" (example_clock (S (clock_reads fresh_world))));
          Endl;
          Flush])%list.
Proof.
  eexists. split; [vm_compute; reflexivity|].
  eapply (capture_is_verbatim true example_clock example_chat_request
            (fresh_session 0) example_session_after_chat fresh_world).
  vm_compute. reflexivity.
Defined.

Lemma chat_history_grows_in_pairs_witness :
  (exists w',
      handleChatRequest true example_clock example_chat_request
        (fresh_session 0) fresh_world
      = Ok (example_session_after_chat, w') /\
      length (m_chat_history example_session_after_chat)
      = length (m_chat_history (fresh_session 0)) + 2) /\
  Nat.even (length (m_chat_history example_session_with_prompt)) = true /\
  (exists s' w',
      run true example_clock [hello_line; reset_line; hello_line]
        example_session_with_prompt fresh_world = Ok (s', w') /\
      Nat.even (length (m_chat_history s')) = true) /\
  (exists s' w',
      run true example_clock example_lines (fresh_session 0) fresh_world = Ok (s', w') /\
      Nat.even (length (m_chat_history s')) = true).
Proof.
  destruct (chat_history_grows_in_pairs true example_clock (E := nat))
    as (Hchat & _ & _ & _ & Hrun & Hfresh).
  split; [|split; [reflexivity|split]].
  - eexists.
    assert (Hdone : handleChatRequest true example_clock example_chat_request
                      (fresh_session 0) fresh_world
                    = Ok (example_session_after_chat, _))
      by (vm_compute; reflexivity).
    split; [exact Hdone|].
    exact (proj1 (Hchat _ _ _ _ _ Hdone)).
  - eexists. eexists.
    assert (Hdone : run true example_clock [hello_line; reset_line; hello_line]
                      example_session_with_prompt fresh_world = Ok (_, _))
      by (vm_compute; reflexivity).
    split; [exact Hdone|].
    eapply Hrun; [|exact Hdone]. reflexivity.
  - eexists. eexists.
    assert (Hdone : run true example_clock example_lines (fresh_session 0) fresh_world
                    = Ok (_, _))
      by (vm_compute; reflexivity).
    split; [exact Hdone|].
    apply (Hfresh _ _ _ _ _ Hdone).
Defined.

Lemma reset_keeps_system_prompt_witness :
  m_system_prompt example_session_with_prompt <> "" /\
  m_chat_history
    (fst (handleResetRequest true example_clock example_reset_request
            example_session_with_prompt fresh_world)) = [] /\
  exists s2 w2,
    handleChatRequest true example_clock example_chat_request
      (fst (handleResetRequest true example_clock example_reset_request
              example_session_with_prompt fresh_world))
      (snd (handleResetRequest true example_clock example_reset_request
              example_session_with_prompt fresh_world))
    = Ok (s2, w2) /\
    exists max_new_tokens,
      llm_calls w2 =
        [CallReset; CallResponse [("system", "X"); ("user", "hello")] max_new_tokens].
Proof.
  pose proof (reset_keeps_system_prompt true example_clock example_reset_request
                example_session_with_prompt fresh_world) as H.
  cbv zeta in H.
  destruct H as (Hhist & _ & _ & _ & _ & _ & _ & _ & Hchat).
  split; [vm_compute; discriminate|].
  split; [exact Hhist|].
  eexists. eexists. split; [vm_compute; reflexivity|].
  apply (Hchat example_chat_request
           (mkSession 1 true false "X" [("user", "hello"); ("assistant", "Hi!")])).
  - vm_compute. discriminate.
  - vm_compute. reflexivity.
Defined.

Lemma system_prompt_handler_witness :
  Request.content empty_prompt_request = "" /\
  fst (handleSystemPromptRequest true example_clock empty_prompt_request
         example_session_with_prompt fresh_world) = example_session_with_prompt /\
  Request.content new_prompt_request <> "" /\
  m_system_prompt
    (fst (handleSystemPromptRequest true example_clock new_prompt_request
            (fresh_session 0) fresh_world)) = "X".
Proof.
  split; [reflexivity|].
  split.
  - pose proof (system_prompt_handler true example_clock empty_prompt_request
                  example_session_with_prompt fresh_world) as H.
    cbv zeta in H. destruct H as [Hempty _].
    destruct (Hempty eq_refl) as [Hs _]. exact Hs.
  - split; [vm_compute; discriminate|].
    pose proof (system_prompt_handler true example_clock new_prompt_request
                  (fresh_session 0) fresh_world) as H.
    cbv zeta in H. destruct H as [_ Hfull].
    destruct Hfull as [Hs _]; [vm_compute; discriminate|].
    rewrite Hs. reflexivity.
Defined.

Lemma unknown_method_is_reported_witness :
  m_running running_session = true /\
  frobnicate_line <> "" /\
  parseRequest frobnicate_line = Ok (Request.mk "" "frobnicate" "" ∅) /\
  run_loop true example_clock [frobnicate_line; status_line] running_session fresh_world =
  run_loop true example_clock [status_line] running_session
    (mkWorld []
       [Insert (createStderrMessage true "error" "error"
                  (MSG_UNKNOWN ++ "frobnicate") "" "" (example_clock 0));
        Endl; Flush]
       1 []).
Proof.
  split; [reflexivity|].
  split; [vm_compute; discriminate|].
  split; [vm_compute; reflexivity|].
  destruct (unknown_method_is_reported true example_clock (E := nat))
    as (_ & _ & Hloop).
  apply (Hloop frobnicate_line [status_line] (Request.mk "" "frobnicate" "" ∅)
           running_session fresh_world).
  - reflexivity.
  - vm_compute. discriminate.
  - vm_compute. reflexivity.
  - vm_compute. discriminate.
  - vm_compute. discriminate.
  - vm_compute. discriminate.
  - vm_compute. discriminate.
  - vm_compute. discriminate.
Defined.

(** A line that is not an object at all decodes to the empty method,
    which the loop reports like any other unknown method. *)
Example malformed_line_is_unknown :
  parseRequest "garbage" = Ok (Request.mk "" "" "" ∅) /\
  run_loop true example_clock ["garbage"] running_session fresh_world =
  Ok (running_session,
      mkWorld []
        [Insert (createStderrMessage true "error" "error" MSG_UNKNOWN "" ""
                   (example_clock 0));
         Endl; Flush]
        1 []).
Proof.
  split; vm_compute; reflexivity.
Qed.

(** ** The further properties on concrete inputs *)

Lemma escapeJsonString_injective_witness :
  escapeJsonString true ("a" ++ str LF) = escapeJsonString true (String "a" (str LF)) /\
  "a" ++ str LF = String "a" (str LF).
Proof.
  split; [reflexivity|].
  apply (escapeJsonString_injective true). reflexivity.
Defined.

Lemma escaped_text_rereads_witness :
  all_chars is_ascii_byte example_prompt_raw = true /\
  reread example_prompt_raw = example_prompt_raw.
Proof.
  split; [reflexivity|].
  apply (proj2 (escaped_text_rereads true example_prompt_raw)). reflexivity.
Defined.

Lemma legacy_envelope_decodes_witness :
  all_chars is_json_plain_byte "7" = true /\
  all_chars is_json_plain_byte "response" = true /\
  all_chars is_json_plain_byte "Hi!" = true /\
  Json.decode (generateResponse "7" "response" "Hi!") =
  Some [("id", Json.Str "7"); ("type", Json.Str "response"); ("content", Json.Str "Hi!")].
Proof.
  split; [reflexivity|]. split; [reflexivity|]. split; [reflexivity|].
  apply (legacy_envelope_decodes "7" "response" "Hi!"); reflexivity.
Defined.

Lemma run_fails_only_on_override_witness :
  (run true example_clock [hello_line; sign_only_line] (fresh_session 0) fresh_world
     = Throw std_invalid_argument /\
   exists line req,
     In line [hello_line; sign_only_line] /\ parseRequest line = Ok req /\
     Request.method req = "chat" /\
     chat_max_new_tokens true (Request.params req) = Throw std_invalid_argument) /\
  (run true example_clock [hello_line; high_byte_line] (fresh_session 0) fresh_world
     = Undefined /\
   exists line req str,
     In line [hello_line; high_byte_line] /\ parseRequest line = Ok req /\
     Request.method req = "chat" /\
     Request.params req !! "max_new_tokens" = Some str /\
     all_chars is_ascii_byte str = false).
Proof.
  split.
  - split; [vm_compute; reflexivity|].
    apply (proj1 (run_fails_only_on_override true example_clock
                    [hello_line; sign_only_line] (fresh_session 0) fresh_world)).
    vm_compute. reflexivity.
  - split; [vm_compute; reflexivity|].
    apply (proj2 (run_fails_only_on_override true example_clock
                    [hello_line; high_byte_line] (fresh_session 0) fresh_world)).
    vm_compute. reflexivity.
Defined.

Lemma diagnostic_is_one_line_witness :
  all_chars not_newline "[1]" = true /\
  all_chars not_newline
    (createStderrMessage true "status" "info" ("two" ++ str LF ++ "lines") "" "[1]" 5) = true.
Proof.
  split; [reflexivity|].
  apply (diagnostic_is_one_line true). reflexivity.
Defined.

Lemma lines_after_exit_are_ignored_witness :
  is_exit_line exit_line = true /\
  run_loop true example_clock ([hello_line] ++ exit_line :: [hello_line; status_line])
    running_session fresh_world =
  run_loop true example_clock [hello_line] running_session fresh_world.
Proof.
  split; [vm_compute; reflexivity|].
  apply (lines_after_exit_are_ignored true example_clock). vm_compute. reflexivity.
Defined.

Lemma run_loop_app_witness :
  forallb (fun line => negb (is_exit_line line)) [system_prompt_line; hello_line] = true /\
  run_loop true example_clock ([system_prompt_line; hello_line] ++ [status_line; hello_line])
    running_session fresh_world =
  run_loop true example_clock [system_prompt_line; hello_line] running_session fresh_world
    ≫= (fun '(s1, w1) => run_loop true example_clock [status_line; hello_line] s1 w1).
Proof.
  split; [vm_compute; reflexivity|].
  apply (run_loop_app true example_clock). vm_compute. reflexivity.
Defined.

Lemma prompts_are_well_formed_witness :
  paired_roles (map fst (m_chat_history (fresh_session 0))) = true /\
  exists s' w' new_calls,
    run true example_clock example_lines (fresh_session 0) fresh_world = Ok (s', w') /\
    llm_calls w' = (llm_calls fresh_world ++ new_calls)%list /\
    replays (prompt_from example_lines (m_system_prompt (fresh_session 0)))
      (content_from example_lines)
      (m_llm (fresh_session 0)) (m_chat_history (fresh_session 0)) new_calls
      (m_llm s') (m_chat_history s') /\
    paired_roles (map fst (m_chat_history s')) = true.
Proof.
  split; [reflexivity|]. eexists. eexists.
  assert (Hdone : run true example_clock example_lines (fresh_session 0) fresh_world
                  = Ok (_, _))
    by (vm_compute; reflexivity).
  destruct (prompts_are_well_formed true example_clock example_lines
              (fresh_session 0) _ fresh_world _ Hdone)
    as [(new_calls & Hcalls & Hreplay) Hpaired].
  exists new_calls. split; [exact Hdone|]. split; [exact Hcalls|].
  split; [exact Hreplay|]. apply Hpaired. reflexivity.
Defined.

Lemma status_reports_idle_witness :
  m_processing (fresh_session 0) = false /\
  exists s' w',
    run true example_clock example_lines (fresh_session 0) fresh_world = Ok (s', w') /\
    m_processing s' = false /\
    exists counters,
      handleStatusRequest true example_clock example_status_request s' w' =
      (s',
       mkWorld (cout w')
         (cerr w' ++
          [Insert (createStderrMessage true "status" "info" ("status:idle" ++ counters)
                     "" "" (example_clock (clock_reads w')));
           Endl; Flush])
         (S (clock_reads w'))
         (llm_calls w' ++ [CallGetContext])).
Proof.
  split; [reflexivity|]. eexists. eexists.
  assert (Hdone : run true example_clock example_lines (fresh_session 0) fresh_world
                  = Ok (_, _))
    by (vm_compute; reflexivity).
  split; [exact Hdone|].
  exact (status_reports_idle true example_clock example_lines example_status_request
           (fresh_session 0) _ fresh_world _ eq_refl Hdone).
Defined.

Lemma system_prompt_origin_witness :
  m_system_prompt example_session_with_prompt <> "" /\
  exists s' w',
    run true example_clock [hello_line; reset_line; hello_line]
      example_session_with_prompt fresh_world = Ok (s', w') /\
    m_system_prompt s' <> "".
Proof.
  split; [vm_compute; discriminate|]. eexists. eexists.
  assert (Hdone : run true example_clock [hello_line; reset_line; hello_line]
                    example_session_with_prompt fresh_world = Ok (_, _))
    by (vm_compute; reflexivity).
  split; [exact Hdone|].
  apply (proj2 (system_prompt_origin true example_clock _ _ _ _ _ Hdone)).
  vm_compute. discriminate.
Defined.

Lemma stdout_is_a_sequence_of_frames_witness :
  exists s' w' new_calls,
    run true example_clock example_lines (fresh_session 0) fresh_world = Ok (s', w') /\
    llm_calls w' = (llm_calls fresh_world ++ new_calls)%list /\
    bytes_of (cout w') =
    bytes_of (cout fresh_world)
      ++ join_all (map frame (fst (answers_of (m_llm (fresh_session 0)) new_calls))) /\
    m_llm s' = snd (answers_of (m_llm (fresh_session 0)) new_calls).
Proof.
  eexists. eexists.
  assert (Hdone : run true example_clock example_lines (fresh_session 0) fresh_world
                  = Ok (_, _))
    by (vm_compute; reflexivity).
  destruct (stdout_is_a_sequence_of_frames true example_clock example_lines
              (fresh_session 0) _ fresh_world _ Hdone)
    as (new_calls & Hcalls & Hout & Hllm).
  exists new_calls. split; [exact Hdone|]. split; [exact Hcalls|].
  split; [exact Hout|exact Hllm].
Defined.

Lemma diagnostics_are_json_lines_witness :
  List.Forall diagnostic_ok (cerr fresh_world) /\
  exists s' w',
    run true example_clock example_lines (fresh_session 0) fresh_world = Ok (s', w') /\
    List.Forall diagnostic_ok (cerr w').
Proof.
  split; [apply List.Forall_nil|]. eexists. eexists.
  assert (Hdone : run true example_clock example_lines (fresh_session 0) fresh_world
                  = Ok (_, _))
    by (vm_compute; reflexivity).
  split; [exact Hdone|].
  exact (diagnostics_are_json_lines true example_clock example_lines
           (fresh_session 0) _ fresh_world _ (List.Forall_nil _) Hdone).
Defined.

Lemma only_chat_reaches_the_engine_witness :
  (forall line, In line [status_line; frobnicate_line; reset_line] ->
                method_of line <> "chat") /\
  exists s' w',
    run true example_clock [status_line; frobnicate_line; reset_line]
      (fresh_session 0) fresh_world = Ok (s', w') /\
    cout w' = cout fresh_world /\
    count_responses (llm_calls w') = count_responses (llm_calls fresh_world).
Proof.
  assert (Hno : forall line, In line [status_line; frobnicate_line; reset_line] ->
                             method_of line <> "chat").
  { intros line [<-|[<-|[<-|[]]]]; vm_compute; discriminate. }
  split; [exact Hno|].
  exact (only_chat_reaches_the_engine true example_clock _ (fresh_session 0) fresh_world Hno).
Defined.

Lemma extractValue_string_member_witness :
  closes_at_end dquote example_prompt_raw = true /\
  extractValue
    (("{" ++ member "type" (quoted "chat") ++ ",")
       ++ quoted "prompt" ++ ":" ++ (" " ++ str HT)
       ++ quoted example_prompt_raw ++ "}") "prompt"
  = Ok example_prompt_raw.
Proof.
  split; [reflexivity|].
  apply (extractValue_string_member ("{" ++ member "type" (quoted "chat") ++ ",")
           "prompt" (" " ++ str HT) example_prompt_raw "}"); reflexivity.
Defined.

Lemma extractValue_bare_member_witness :
  bare_value "128" = true /\
  extractValue
    (("{" ++ member "type" (quoted "chat") ++ ",")
       ++ quoted "max_new_tokens" ++ ":" ++ " " ++ "128" ++ "}") "max_new_tokens"
  = Ok "128".
Proof.
  split; [reflexivity|].
  apply (extractValue_bare_member ("{" ++ member "type" (quoted "chat") ++ ",")
           "max_new_tokens" " " "128" "}"); reflexivity.
Defined.

Lemma request_lines_decode_witness :
  closes_at_end dquote example_prompt_raw = true /\
  (exists id budget,
     parseRequest (request_line "chat" "prompt" example_prompt_raw) =
     Ok (Request.mk id "chat" example_prompt_raw (override budget))) /\
  (exists id,
     parseRequest (request_line "system_prompt" "content" example_prompt_raw) =
     Ok (Request.mk id "system_prompt" example_prompt_raw ∅)).
Proof.
  split; [reflexivity|].
  apply (request_lines_decode example_prompt_raw). reflexivity.
Defined.

Lemma parse_csv_reads_back_witness :
  SystemInfo.parse_csv
    (map (SystemInfo.csv_line (fun cell => negb (all_chars SystemInfo.is_plain_char cell)))
       [["a"; "b,c"]; [""; "say " ++ quoted "hi"; "two" ++ str LF ++ "lines"]]) =
  [["a"; "b,c"]; [""; "say " ++ quoted "hi"; "two" ++ str LF ++ "lines"]].
Proof.
  apply (parse_csv_reads_back
           (fun cell => negb (all_chars SystemInfo.is_plain_char cell))); reflexivity.
Defined.

Lemma unclosed_quote_drops_the_rest_witness :
  SystemInfo.parse_csv
    (map (SystemInfo.csv_line (fun _ => false)) [["a"; "b"]]
       ++ String dquote "x,y" :: ["z,w"])%list =
  [["a"; "b"]].
Proof.
  apply (unclosed_quote_drops_the_rest (fun _ => false) [["a"; "b"]] "x,y" ["z,w"]);
    reflexivity.
Defined.

Lemma adjustTokensToLength_cycles_witness :
  length (VllmBench.adjustTokensToLength [1; 2; 3]%Z 8) = 8 /\
  nth_error (VllmBench.adjustTokensToLength [1; 2; 3]%Z 8) 7 = Some 2%Z.
Proof.
  destruct (adjustTokensToLength_cycles [1; 2; 3]%Z 8) as [Hlen Hnth];
    [discriminate|lia|].
  split; [exact Hlen|]. apply (Hnth 7). simpl. lia.
Defined.

Lemma prepareTokens_fills_witness :
  length (fst (VllmBench.prepareTokens (VllmBench.mkTestInstance true "") [] 23 false "pp"))
    = 23 /\
  nth_error (fst (VllmBench.prepareTokens (VllmBench.mkTestInstance true "") [] 23 false "pp"))
    21 = Some 21%Z.
Proof.
  destruct (prepareTokens_fills (VllmBench.mkTestInstance true "") [] 23 false "pp")
    as [Hlen Hrest]; [lia|left; reflexivity|].
  split; [exact Hlen|].
  destruct (Hrest eq_refl) as [_ Hnth]. apply (Hnth 21). simpl. lia.
Defined.

Lemma prepareTokens_empty_witness :
  fst (VllmBench.prepareTokens (VllmBench.mkTestInstance false "prompt.txt") [] 64 true "pp")
    = [].
Proof.
  apply (proj2 (prepareTokens_empty (VllmBench.mkTestInstance false "prompt.txt")
                  [] 64 true "pp")).
  right. split; [discriminate|reflexivity].
Defined.
